(** * Lead-time dashboard (src/App.js): ingestion and percentile pipeline

    The development embeds the data path of the component
    [DynamicLeadTimeDashboard]: the body of [processCSV] (header check,
    completeness filter, per-row normalisation, lead-time derivation, sort,
    type list and filter initialisation), the state setters it drives, the
    type-filter toggle, the reset button and the percentile computation that
    every render performs on the current state; and what a render derives
    from the state besides: the colours, the series of the chart and those
    it draws, the type buttons, the cards, the summary, the date range of
    the chart and the choice between the upload page and the dashboard.

    Conventions.
    - JavaScript strings are byte strings (UTF-8); messages are the literal
      texts of the source.
    - A [Date] is its time value: an integer number of milliseconds since the
      epoch ([Z]); the invalid date (time value NaN) is [None].
    - Time values and lead times are integers.  The difference of two time
      values and its quotient by the length of a day are Numbers, binary64
      values rounded to nearest with ties to the even significand, which
      the module [Number] writes out on fractions
      ([leadTimeOf_binary64_sample] evaluates the primitive binary64
      operations beside it); [leadTimeOf_exact] shows that for dates less
      than 2^53 ms apart the result is the floor of the exact quotient,
      plus 1.  The percentile
      index multiplies by 0.85 and 0.95, which are not binary64 values, and
      is computed on primitive binary64 floats.  The means on the cards,
      [Math.round (sum / n)], are the rounded quotient of two integers
      ([roundedQuotient_sample] evaluates the binary64 computation around
      the halves).
    - [handleFileUpload] is an async function that waits for the text of
      the file: [handleFileUploadStart] and [handleFileUploadResume] are
      its two parts, [handleFileUpload] the two in one run, and the
      transition system [Running] lets any event fall between them.
    - The host functions the source calls on dates ([new Date (string)],
      [String (date)], [toLocaleDateString]) are the fields of the class
      [Host]; every theorem holds for every host, and a reference host
      evaluates the pipeline on concrete inputs.  [Papa.parse] is the
      decoder: [processCSV] is embedded from the point where its result
      [parsed] is available, and the handlers that call it take the decoder
      as a parameter.
    - The file holds two copies of the component.  The later one (lines
      432-945) is embedded; the earlier one has the same completeness
      filter, lead-time expression and sort, and none of the checks.
    - [formatXAxisDate] and the loop that lays out the ticks of the chart
      read the host's local calendar and are not embedded; of the ticks only
      the range ([minDate], [maxDate]) is. *)

From Stdlib Require Import ZArith String Ascii List Lia Floats DecimalString.
From Stdlib Require Import Sorted Permutation.
From stdpp Require Import gmap strings list.

(* 0.85 and 0.95 are read as the nearest binary64 values, as in JavaScript. *)
Set Warnings "-inexact-float".

Local Open Scope string_scope.
Local Open Scope list_scope.
Local Open Scope Z_scope.

(** ** Strings *)

Module JsString.

(** Code points of WhiteSpace and LineTerminator (ECMA-262, 12.2 and 12.3)
    in their UTF-8 encoding: one, two or three bytes. *)
Definition ws1 (c : ascii) : bool :=
  let n := nat_of_ascii c in
  ((9 <=? n)%nat && (n <=? 13)%nat) || (n =? 32)%nat.

Definition ws2 (c1 c2 : ascii) : bool :=
  (nat_of_ascii c1 =? 194)%nat && (nat_of_ascii c2 =? 160)%nat.

Definition ws3 (c1 c2 c3 : ascii) : bool :=
  let a := nat_of_ascii c1 in
  let b := nat_of_ascii c2 in
  let c := nat_of_ascii c3 in
  ((a =? 225) && (b =? 154) && (c =? 128))%nat          (* U+1680 *)
  || ((a =? 226) && (b =? 128)
      && (((128 <=? c) && (c <=? 138))                   (* U+2000..U+200A *)
          || (c =? 168) || (c =? 169) || (c =? 175)))%nat (* U+2028 U+2029 U+202F *)
  || ((a =? 226) && (b =? 129) && (c =? 159))%nat       (* U+205F *)
  || ((a =? 227) && (b =? 128) && (c =? 128))%nat       (* U+3000 *)
  || ((a =? 239) && (b =? 187) && (c =? 191))%nat.      (* U+FEFF *)

(** Drop leading white space; [two] and [three] recognise the multi-byte
    code points in the order the bytes are met. *)
Fixpoint strip (two : ascii -> ascii -> bool)
    (three : ascii -> ascii -> ascii -> bool) (s : string) : string :=
  match s with
  | EmptyString => s
  | String c1 s1 =>
      if ws1 c1 then strip two three s1
      else match s1 with
           | EmptyString => s
           | String c2 s2 =>
               if two c1 c2 then strip two three s2
               else match s2 with
                    | EmptyString => s
                    | String c3 s3 =>
                        if three c1 c2 c3 then strip two three s3 else s
                    end
           end
  end.

Definition trimStart (s : string) : string := strip ws2 ws3 s.

Definition trimEnd (s : string) : string :=
  String.rev
    (strip (fun c2 c1 => ws2 c1 c2) (fun c3 c2 c1 => ws3 c1 c2 c3)
       (String.rev s)).

(** [String.prototype.trim] *)
Definition trim (s : string) : string := trimEnd (trimStart s).

(** [Array.prototype.join] on an array of strings *)
Definition join (sep : string) (l : list string) : string :=
  String.concat sep l.

(** [Array.prototype.includes] on an array of strings *)
Definition includes (l : list string) (x : string) : bool :=
  existsb (String.eqb x) l.

(** [String.prototype.toLowerCase] on the ASCII letters, which is all
    that the test for the [.csv] suffix can depend on. *)
Definition lowerAscii (c : ascii) : ascii :=
  let n := nat_of_ascii c in
  if (65 <=? n)%nat && (n <=? 90)%nat then ascii_of_nat (n + 32) else c.

Fixpoint toLowerCase (s : string) : string :=
  match s with
  | EmptyString => EmptyString
  | String c s' => String (lowerAscii c) (toLowerCase s')
  end.

(** [String.prototype.endsWith] *)
Definition endsWith (s suffix : string) : bool :=
  String.prefix (String.rev suffix) (String.rev s).

(** Decimal rendering of an integral Number, [Number::toString] *)
Definition ofZ (z : Z) : string := NilZero.string_of_int (Z.to_int z).

End JsString.

(** ** Cell values

    With [dynamicTyping] a decoded cell is one of: absent ([undefined], a
    ragged row), [null] (empty text), a boolean, a number, a string or a
    [Date].  Numeric cells are modelled on the integers. *)

Inductive JsValue : Type :=
| JUndefined
| JNull
| JBool (b : bool)
| JNumber (n : Z)
| JString (s : string)
| JDate (t : option Z).

(** [ToBoolean] *)
Definition truthy (v : JsValue) : bool :=
  match v with
  | JUndefined | JNull => false
  | JBool b => b
  | JNumber n => negb (n =? 0)
  | JString s => negb (String.eqb s "")
  | JDate _ => true
  end.


(** A decoded row is an object keyed by header name; reading a property
    that the row does not have gives [undefined]. *)
Definition Row : Type := gmap string JsValue.

Definition prop (row : Row) (key : string) : JsValue :=
  default JUndefined (row !! key).

(** The result of [Papa.parse (csvContent, {header: true, ...})] as far as
    [processCSV] reads it: [parsed.data] and [parsed.meta.fields] (which is
    absent when no header line was found).  [parsed.errors] only feeds
    [console.warn]. *)
Module Papa.
Record ParseResult : Type := {
  data : list Row;
  fields : option (list string)
}.
End Papa.

(** ** Records and component state *)

(** The object literal returned for each row (lines 599-607). *)
Record WorkItem : Type := {
  id : string;
  type : string;
  commitedDate : Z;
  closedDate : Z;
  leadTime : Z;
  dateFormatted : string;
  timestamp : Z
}.

(** The [useState] cells of the component (lines 433-441). *)
Record State : Type := {
  data : list WorkItem;
  itemTypes : list string;
  typeFilters : gmap string bool;
  showP85 : bool;
  showP95 : bool;
  loading : bool;
  error : option string;
  csvUploaded : bool;
  fileName : string
}.

Definition initialState : State := {|
  data := []; itemTypes := []; typeFilters := ∅;
  showP85 := true; showP95 := true; loading := false;
  error := None; csvUploaded := false; fileName := ""
|}.

(** ** Effects: exceptions over the component state *)

Inductive Outcome (A : Type) : Type :=
| Returned (a : A)
| Thrown (message : string).
Arguments Returned {A} a.
Arguments Thrown {A} message.

Definition Eff (A : Type) : Type := State -> Outcome A * State.

Definition ret {A} (a : A) : Eff A := fun st => (Returned a, st).

Definition throw {A} (message : string) : Eff A :=
  fun st => (Thrown message, st).

Definition bind {A B} (c : Eff A) (k : A -> Eff B) : Eff B :=
  fun st =>
    match c st with
    | (Returned a, st') => k a st'
    | (Thrown m, st') => (Thrown m, st')
    end.

Notation "'let*' x ':=' c 'in' k" := (bind c (fun x => k))
  (at level 10, x name, c at level 100, k at level 200).
Notation "c ;; k" := (bind c (fun _ => k))
  (at level 100, k at level 200, right associativity).

Definition setData (d : list WorkItem) : Eff unit := fun st =>
  (Returned tt,
   {| data := d; itemTypes := itemTypes st; typeFilters := typeFilters st;
      showP85 := showP85 st; showP95 := showP95 st; loading := loading st;
      error := error st; csvUploaded := csvUploaded st;
      fileName := fileName st |}).

Definition setItemTypes (ts : list string) : Eff unit := fun st =>
  (Returned tt,
   {| data := data st; itemTypes := ts; typeFilters := typeFilters st;
      showP85 := showP85 st; showP95 := showP95 st; loading := loading st;
      error := error st; csvUploaded := csvUploaded st;
      fileName := fileName st |}).

Definition setTypeFilters (f : gmap string bool -> gmap string bool)
  : Eff unit := fun st =>
  (Returned tt,
   {| data := data st; itemTypes := itemTypes st;
      typeFilters := f (typeFilters st);
      showP85 := showP85 st; showP95 := showP95 st; loading := loading st;
      error := error st; csvUploaded := csvUploaded st;
      fileName := fileName st |}).

Definition setLoading (b : bool) : Eff unit := fun st =>
  (Returned tt,
   {| data := data st; itemTypes := itemTypes st;
      typeFilters := typeFilters st;
      showP85 := showP85 st; showP95 := showP95 st; loading := b;
      error := error st; csvUploaded := csvUploaded st;
      fileName := fileName st |}).

Definition setError (e : option string) : Eff unit := fun st =>
  (Returned tt,
   {| data := data st; itemTypes := itemTypes st;
      typeFilters := typeFilters st;
      showP85 := showP85 st; showP95 := showP95 st; loading := loading st;
      error := e; csvUploaded := csvUploaded st;
      fileName := fileName st |}).

Definition setCsvUploaded (b : bool) : Eff unit := fun st =>
  (Returned tt,
   {| data := data st; itemTypes := itemTypes st;
      typeFilters := typeFilters st;
      showP85 := showP85 st; showP95 := showP95 st; loading := loading st;
      error := error st; csvUploaded := b;
      fileName := fileName st |}).

Definition setFileName (n : string) : Eff unit := fun st =>
  (Returned tt,
   {| data := data st; itemTypes := itemTypes st;
      typeFilters := typeFilters st;
      showP85 := showP85 st; showP95 := showP95 st; loading := loading st;
      error := error st; csvUploaded := csvUploaded st;
      fileName := n |}).

(** [setTypeFilters] is called with a value in [processCSV] and with an
    updater function in [toggleTypeFilter]; a value [v] is the constant
    updater [fun _ => v]. *)

(** A callback that may throw but does not touch the state, run over an
    array from left to right ([Array.prototype.map]): the first throw
    abandons the rest. *)
Fixpoint mapThrowing {A B} (f : A -> Outcome B) (l : list A)
  : Outcome (list B) :=
  match l with
  | [] => Returned []
  | x :: l' =>
      match f x with
      | Thrown m => Thrown m
      | Returned y =>
          match mapThrowing f l' with
          | Thrown m => Thrown m
          | Returned ys => Returned (y :: ys)
          end
      end
  end.

Definition lift {A} (o : Outcome A) : Eff A := fun st => (o, st).

(** ** Array helpers *)

(** [Array.prototype.sort (cmp)].  The sort is stable (ECMAScript 2019), so
    for a consistent comparator its result is the one arrangement that is
    ordered and keeps equal elements in their original order; inserting the
    elements from the right, each before the first element it does not
    exceed, computes it. *)
Fixpoint insertBy {A} (cmp : A -> A -> Z) (x : A) (l : list A) : list A :=
  match l with
  | [] => [x]
  | y :: l' => if cmp x y <=? 0 then x :: l else y :: insertBy cmp x l'
  end.

Definition sortBy {A} (cmp : A -> A -> Z) (l : list A) : list A :=
  foldr (insertBy cmp) [] l.

(** [[...new Set (l)]]: the distinct elements in order of first occurrence. *)
Fixpoint distinctFrom (seen : list string) (l : list string) : list string :=
  match l with
  | [] => []
  | x :: l' =>
      if JsString.includes seen x then distinctFrom seen l'
      else x :: distinctFrom (x :: seen) l'
  end.

Definition distinct (l : list string) : list string := distinctFrom [] l.

(** ** The type-filter object

    [typeFilters] is a plain object used as a map from type name to boolean.
    Reading a key it does not own falls through to [Object.prototype], whose
    members are all truthy; any other absent key reads [undefined]. *)
Definition objectPrototypeKeys : list string :=
  [ "constructor"; "__defineGetter__"; "__defineSetter__"; "hasOwnProperty";
    "__lookupGetter__"; "__lookupSetter__"; "isPrototypeOf";
    "propertyIsEnumerable"; "toString"; "valueOf"; "__proto__";
    "toLocaleString" ].

(** Truthiness of [typeFilters[key]]. *)
Definition filterOn (tf : gmap string bool) (key : string) : bool :=
  match tf !! key with
  | Some b => b
  | None => JsString.includes objectPrototypeKeys key
  end.

(** [initialFilters[type] = true] (line 616).  Assigning a primitive to
    ["__proto__"] is ignored by the [Object.prototype] setter. *)
Definition assignTrue (tf : gmap string bool) (key : string)
  : gmap string bool :=
  if String.eqb key "__proto__" then tf else <[key := true]> tf.

(** ** Numbers

    A Number is a binary64 value.  The time value of a valid date is an
    integer of magnitude at most 8.64e15, which is below 2^53 and so is a
    Number exactly; the difference of two time values and its quotient by
    the length of a day need not be, and are rounded to the nearest Number,
    ties going to the even significand.  The Numbers that these two
    operations can give lie between 2^-27 and 2^54 in magnitude (or are 0),
    far from the ends of the exponent range, so a finite Number is written
    here as the fraction it equals and only the 53-bit significand is
    modelled. *)
Module Number.

(** A finite Number as the fraction it is equal to: a numerator and a
    denominator that is a power of two. *)
Definition t : Type := (Z * Z)%type.

(** The integer nearest to [p / q], the even one of two that are equally
    near, for [0 <= p] and [0 < q]. *)
Definition nearestInteger (p q : Z) : Z :=
  let f := p / q in
  match 2 * (p mod q) ?= q with
  | Lt => f
  | Gt => f + 1
  | Eq => if Z.even f then f else f + 1
  end.

(** [p / q] over [2 ^ e], as a fraction. *)
Definition scale (p q e : Z) : Z * Z :=
  if 0 <=? e then (p, q * 2 ^ e) else (p * 2 ^ (- e), q).

(** The exponent [e] with [2 ^ e <= p / q < 2 ^ (e + 1)], for [0 < p] and
    [0 < q]. *)
Definition exponent (p q : Z) : Z :=
  let e := Z.log2 p - Z.log2 q in
  let '(a, b) := scale p q e in
  if a <? b then e - 1 else e.

(** The Number nearest to [p / q] for [0 < p] and [0 < q]: [p / q] is
    scaled to lie between 2^52 and 2^53, rounded to an integer, and scaled
    back. *)
Definition nearest (p q : Z) : t :=
  let e := exponent p q - 52 in
  let '(a, b) := scale p q e in
  let m := nearestInteger a b in
  if 0 <=? e then (m * 2 ^ e, 1) else (m, 2 ^ (- e)).

(** The Number nearest to [p / q], for [0 < q]. *)
Definition round (p q : Z) : t :=
  match p with
  | 0 => (0, 1)
  | Z.pos _ => nearest p q
  | Z.neg _ => let '(n, d) := nearest (- p) q in (- n, d)
  end.

(** [a - b] for two integers that are Numbers. *)
Definition sub (a b : Z) : t := round (a - b) 1.

(** [x / n] for a Number [x] and a positive integer [n] that is a Number. *)
Definition div (x : t) (n : Z) : t := round (fst x) (snd x * n).

(** [Math.floor (x)] *)
Definition floor (x : t) : Z := fst x / snd x.

End Number.

(** ** Lead time *)

(** [1000 * 60 * 60 * 24] *)
Definition msPerDay : Z := 1000 * 60 * 60 * 24.

(** Lines 596-597 (and 99-100 in the earlier copy of the component):
    [timeDiff = closedDate.getTime () - commitedDate.getTime ()] and
    [Math.floor (timeDiff / (1000 * 60 * 60 * 24)) + 1].  The floor is an
    integer below 2^28 in magnitude, so adding 1 to it is exact. *)
Definition leadTimeOf (closed commited : Z) : Z :=
  let timeDiff := Number.sub closed commited in
  Number.floor (Number.div timeDiff msPerDay) + 1.

(** The comparator of line 608 (and 112). *)
Definition byTimestamp (a b : WorkItem) : Z := timestamp a - timestamp b.

(** ** Error messages (the template literals of lines 535-540, 552-558,
    576-582 and 587-592) *)

Definition nl : string := String (ascii_of_nat 10) EmptyString.

Definition requiredColumns : list string :=
  ["ID"; "Tipo de Item"; "Commited Date"; "Closed Date"].

Definition schemaErrorMessage (missingColumns headers : list string)
  : string :=
  "❌ Estrutura do CSV inválida!" +:+ nl +:+ nl +:+
  "Colunas obrigatórias faltando:" +:+ nl +:+
  JsString.join ", " missingColumns +:+ nl +:+ nl +:+
  "Estrutura esperada:" +:+ nl +:+
  "ID, Tipo de Item, Commited Date, Closed Date" +:+ nl +:+ nl +:+
  "Estrutura encontrada:" +:+ nl +:+
  JsString.join ", " headers.

Definition noValidDataMessage : string :=
  "❌ Nenhum dado válido encontrado!" +:+ nl +:+ nl +:+
  "Verifique se o CSV possui:" +:+ nl +:+
  "• Pelo menos uma linha de dados" +:+ nl +:+
  "• Valores preenchidos em todas as colunas obrigatórias" +:+ nl +:+
  "• Datas no formato correto (YYYY-MM-DD)".

Definition invalidDateMessage (id commited closed : string) : string :=
  "❌ Data inválida encontrada!" +:+ nl +:+ nl +:+
  "Linha com ID: " +:+ id +:+ nl +:+
  "Commited Date: " +:+ commited +:+ nl +:+
  "Closed Date: " +:+ closed +:+ nl +:+ nl +:+
  "Use o formato: YYYY-MM-DD (ex: 2025-01-15)".

Definition inconsistentDateMessage (id commited closed : string) : string :=
  "❌ Data inconsistente encontrada!" +:+ nl +:+ nl +:+
  "Linha com ID: " +:+ id +:+ nl +:+
  "Closed Date (" +:+ closed +:+ ") é anterior ao Commited Date (" +:+
  commited +:+ ")" +:+ nl +:+ nl +:+
  "A data de conclusão deve ser igual ou posterior à data de início.".

(** The row predicate of lines 544-549 (and 91):
    [row.ID && row['Tipo de Item'] && row['Commited Date'] &&
     row['Closed Date']]. *)
Definition rowComplete (row : Row) : bool :=
  truthy (prop row "ID") && truthy (prop row "Tipo de Item") &&
  truthy (prop row "Commited Date") && truthy (prop row "Closed Date").

(** The host functions the source calls on dates. *)
Class Host : Type := {
  (** [new Date (s).getTime ()]: the host's date parser; [None] is NaN. *)
  newDate : string -> option Z;
  (** [Date.prototype.toString] of a valid date, in the host's time zone. *)
  dateToString : Z -> string;
  (** [toLocaleDateString ('pt-BR')] of a valid date. *)
  toLocaleDateString : Z -> string
}.

Section Pipeline.

Context {host : Host}.

(** [String (v)], also the conversion a template literal applies. *)
Definition toStr (v : JsValue) : string :=
  match v with
  | JUndefined => "undefined"
  | JNull => "null"
  | JBool true => "true"
  | JBool false => "false"
  | JNumber n => JsString.ofZ n
  | JString s => s
  | JDate (Some t) => dateToString t
  | JDate None => "Invalid Date"
  end.

(** The callback of [validRows.map] (lines 566-608). *)
Definition processRow (row : Row) : Outcome WorkItem :=
  let id := JsString.trim (toStr (prop row "ID")) in
  let type := JsString.trim (toStr (prop row "Tipo de Item")) in
  let commitedDate :=
    newDate (JsString.trim (toStr (prop row "Commited Date"))) in
  let closedDate :=
    newDate (JsString.trim (toStr (prop row "Closed Date"))) in
  match commitedDate, closedDate with
  | Some commited, Some closed =>
      if closed <? commited then
        Thrown (inconsistentDateMessage id
                  (toStr (prop row "Commited Date"))
                  (toStr (prop row "Closed Date")))
      else
        Returned {|
          id := id;
          type := type;
          commitedDate := commited;
          closedDate := closed;
          leadTime := leadTimeOf closed commited;
          dateFormatted := toLocaleDateString closed;
          timestamp := closed
        |}
  | _, _ =>
      Thrown (invalidDateMessage id
                (toStr (prop row "Commited Date"))
                (toStr (prop row "Closed Date")))
  end.

(** Lines 544-549. *)
Definition validRows (parsed : Papa.ParseResult) : list Row :=
  List.filter rowComplete (Papa.data parsed).

(** Lines 529-532. *)
Definition headersOf (parsed : Papa.ParseResult) : list string :=
  default [] (Papa.fields parsed).

Definition missingColumnsOf (headers : list string) : list string :=
  List.filter (fun col => negb (JsString.includes headers col))
    requiredColumns.

(** [processCSV] (lines 514-622), from the decoded [parsed] on. *)
Definition processCSV (parsed : Papa.ParseResult) : Eff unit :=
  let headers := headersOf parsed in
  let missingColumns := missingColumnsOf headers in
  if (0 <? length missingColumns)%nat then
    throw (schemaErrorMessage missingColumns headers)
  else
    let validRows := validRows parsed in
    if (length validRows =? 0)%nat then throw noValidDataMessage
    else
      let* mapped := lift (mapThrowing processRow validRows) in
      let processedData := sortBy byTimestamp mapped in
      let uniqueTypes := distinct (map type processedData) in
      let initialFilters := foldl assignTrue ∅ uniqueTypes in
      setData processedData ;;
      setItemTypes uniqueTypes ;;
      setTypeFilters (fun _ => initialFilters).

(** [Papa.parse (csvContent, {header: true, dynamicTyping: true,
    skipEmptyLines: true, delimitersToGuess: ...})]: the decoder. *)
Variable papaParse : string -> Papa.ParseResult.

(** The [File] handed over by the file input: its name, and the text that
    [file.text ()] resolves to. *)
Record File : Type := { name : string; text : string }.

(** [try { body } catch (err) { handler (err.message) } finally { fin }] *)
Definition tryCatchFinally (body : Eff unit) (handler : string -> Eff unit)
    (fin : Eff unit) : Eff unit :=
  fun st =>
    match body st with
    | (Returned _, st') => fin st'
    | (Thrown m, st') =>
        match handler m st' with
        | (Returned _, st'') => fin st''
        | (Thrown m', st'') =>
            match fin st'' with
            | (Returned _, st3) => (Thrown m', st3)
            | thrown => thrown
            end
        end
    end.

(** [handleFileUpload] (lines 485-512), run from its first line to its
    last, as it is when no other event is handled while the text of the
    file is read; [file] is [event.target.files[0]]. *)
Definition handleFileUpload (file : option File) : Eff unit :=
  match file with
  | None => ret tt
  | Some file =>
      tryCatchFinally
        (setLoading true ;;
         setError None ;;
         if negb (JsString.endsWith (JsString.toLowerCase (name file))
                    ".csv")
         then
           setError
             (Some "❌ Arquivo inválido! Por favor, selecione apenas arquivos .csv") ;;
           setLoading false
         else
           setFileName (name file) ;;
           processCSV (papaParse (text file)) ;;
           setCsvUploaded true)
        (fun message =>
           setError (Some ("Erro ao processar o arquivo: " +:+ message)))
        (setLoading false)
  end.

(** [handleFileUpload] is an async function, and reading the text of the
    file takes time: the handler runs up to [await file.text ()] (line 503)
    when the input changes, and the rest of it runs once the text is there.
    Other events can be handled in between.

    The first part (lines 485-502).  It cannot throw, so [catch] plays no
    part in it; for a name that is turned away it is the whole handler,
    [finally] included. *)
Definition handleFileUploadStart (file : File) : Eff unit :=
  setLoading true ;;
  setError None ;;
  if negb (JsString.endsWith (JsString.toLowerCase (name file)) ".csv")
  then
    setError
      (Some "❌ Arquivo inválido! Por favor, selecione apenas arquivos .csv") ;;
    setLoading false ;;
    setLoading false
  else
    setFileName (name file).

(** The second part (lines 503-511), for a file whose name was accepted. *)
Definition handleFileUploadResume (file : File) : Eff unit :=
  tryCatchFinally
    (processCSV (papaParse (text file)) ;;
     setCsvUploaded true)
    (fun message =>
       setError (Some ("Erro ao processar o arquivo: " +:+ message)))
    (setLoading false).

(** The effect run on mount (lines 624-639).  [content] is what
    [window.fs.readFile ('BaseClaude.csv')] resolved to, [None] when it
    rejected; the [catch] only logs. *)
Definition tryAutoLoad (content : option string) : Eff unit :=
  match content with
  | None => ret tt
  | Some csvContent =>
      tryCatchFinally
        (setFileName "BaseClaude.csv" ;;
         processCSV (papaParse csvContent) ;;
         setCsvUploaded true)
        (fun _ => ret tt)
        (ret tt)
  end.

End Pipeline.

(** ** Handlers that do not depend on the host *)

(** [toggleTypeFilter] (lines 669-674): [{...prev, [type]: !prev[type]}]. *)
Definition toggleTypeFilter (type : string) : Eff unit :=
  setTypeFilters (fun prev => <[type := negb (filterOn prev type)]> prev).

(** The click handler of the "Importar Novo CSV" button (lines 750-757). *)
Definition importNewCsv : Eff unit :=
  setCsvUploaded false ;;
  setData [] ;;
  setItemTypes [] ;;
  setTypeFilters (fun _ => ∅) ;;
  setError None ;;
  setFileName "".

Definition setShowP85 (b : bool) : Eff unit := fun st =>
  (Returned tt,
   {| data := data st; itemTypes := itemTypes st;
      typeFilters := typeFilters st;
      showP85 := b; showP95 := showP95 st; loading := loading st;
      error := error st; csvUploaded := csvUploaded st;
      fileName := fileName st |}).

Definition setShowP95 (b : bool) : Eff unit := fun st =>
  (Returned tt,
   {| data := data st; itemTypes := itemTypes st;
      typeFilters := typeFilters st;
      showP85 := showP85 st; showP95 := b; loading := loading st;
      error := error st; csvUploaded := csvUploaded st;
      fileName := fileName st |}).

(** ** The component as a transition system

    An event and its handler, run to completion on the current state.  For
    [Mounted] the event is the settling of [window.fs.readFile], before
    which [tryAutoLoad] writes nothing; [FileChosen] runs
    [handleFileUpload] in one piece. *)
Inductive Event : Type :=
| Mounted (content : option string)
| FileChosen (file : option File)
| TypeClicked (type : string)
| P85Clicked
| P95Clicked
| ImportNewClicked.

Definition handle {host : Host} (papaParse : string -> Papa.ParseResult)
    (e : Event) : Eff unit :=
  match e with
  | Mounted content => tryAutoLoad papaParse content
  | FileChosen file => handleFileUpload papaParse file
  | TypeClicked type => toggleTypeFilter type
  | P85Clicked => fun st => setShowP85 (negb (showP85 st)) st
  | P95Clicked => fun st => setShowP95 (negb (showP95 st)) st
  | ImportNewClicked => importNewCsv
  end.

(** The states the component goes through.  [Running papaParse reading st]:
    the component is in state [st] while the texts of the files [reading]
    are being read.  Choosing a file runs the first part of
    [handleFileUpload] and, if the name is accepted, starts reading it; the
    second part runs when its text is there, and any event can be handled
    before that.  The other handlers run in one piece
    ([await processCSV (...)] gives way to no event). *)
Inductive Running {host : Host} (papaParse : string -> Papa.ParseResult)
  : list File -> State -> Prop :=
| RunningInitial : Running papaParse [] initialState
| RunningHandled reading st e :
    (forall file, e <> FileChosen (Some file)) ->
    Running papaParse reading st ->
    Running papaParse reading (snd (handle papaParse e st))
| RunningChosen reading st file :
    Running papaParse reading st ->
    Running papaParse
      (if JsString.endsWith (JsString.toLowerCase (name file)) ".csv"
       then file :: reading else reading)
      (snd (handleFileUploadStart file st))
| RunningRead before file after st :
    Running papaParse (before ++ file :: after) st ->
    Running papaParse (before ++ after)
      (snd (handleFileUploadResume papaParse file st)).

Definition Reachable {host : Host} (papaParse : string -> Papa.ParseResult)
    (st : State) : Prop :=
  exists reading, Running papaParse reading st.

(** ** Values derived on every render (lines 651-658) *)

(** [data.filter (item => typeFilters[item.type])] *)
Definition filteredData (st : State) : list WorkItem :=
  List.filter (fun item => filterOn (typeFilters st) (type item)) (data st).

(** [filteredData.map (item => item.leadTime).sort ((a, b) => a - b)] *)
Definition filteredLeadTimes (st : State) : list Z :=
  sortBy (fun a b => a - b) (map leadTime (filteredData st)).

(** [Math.floor] of a binary64 value; NaN and the infinities, which are
    not integers, give [None]. *)
Definition Math_floor (x : float) : option Z :=
  match Prim2SF x with
  | S754_zero _ => Some 0
  | S754_finite sign m e =>
      let mag := if sign then Z.neg m else Z.pos m in
      Some (if 0 <=? e then mag * 2 ^ e else mag / 2 ^ (- e))
  | S754_infinity _ | S754_nan => None
  end.

(** A natural number, such as an array length, as a Number. *)
Definition numberOfNat (n : nat) : float :=
  PrimFloat.of_uint63 (Uint63.of_Z (Z.of_nat n)).

Definition lengthNumber {A} (l : list A) : float := numberOfNat (length l).

(** [Math.floor (filteredLeadTimes.length * 0.85)] and [... * 0.95] *)
Definition p85Index (st : State) : option Z :=
  Math_floor (lengthNumber (filteredLeadTimes st) * 0.85)%float.

Definition p95Index (st : State) : option Z :=
  Math_floor (lengthNumber (filteredLeadTimes st) * 0.95)%float.

(** [array[index]] for a Number index: the element when the index is an
    integer within bounds, [undefined] ([None]) otherwise. *)
Definition elementAt (l : list Z) (index : option Z) : option Z :=
  match index with
  | Some i => if i <? 0 then None else l !! Z.to_nat i
  | None => None
  end.

(** [filteredLeadTimes.length > 0 ? filteredLeadTimes[p85Index] : 0] *)
Definition p85Value (st : State) : option Z :=
  if (0 <? length (filteredLeadTimes st))%nat
  then elementAt (filteredLeadTimes st) (p85Index st)
  else Some 0.

Definition p95Value (st : State) : option Z :=
  if (0 <? length (filteredLeadTimes st))%nat
  then elementAt (filteredLeadTimes st) (p95Index st)
  else Some 0.

(** ** A reference host

    A host whose local time zone is UTC and whose date parser accepts the
    two formats that ECMA-262 requires of [new Date (string)] and nothing
    else: the date-time string format ([YYYY], [YYYY-MM] or [YYYY-MM-DD],
    with an expanded year [+YYYYYY] or [-YYYYYY] if wanted, optionally
    followed by [THH:mm], [THH:mm:ss] or [THH:mm:ss.sss] and then by [Z] or
    an offset [+HH:mm] or [-HH:mm]) and the output of
    [Date.prototype.toString].  For every other text ECMA-262 leaves the
    result to the implementation, and engines do read some of them as
    dates (V8, for one, skips words it does not know before the first
    number, and lets a day number of up to 31 run past the end of its
    month); this host reads none.  It serves to evaluate the pipeline on
    concrete inputs, whose date cells are either in the first format in
    full, on which all hosts agree up to the time zone, or are texts that
    engines reject as this host does: a complete date followed by a word,
    and a date written day first with slashes.  The theorems hold for
    every host. *)
Module RefHost.

Definition digit (c : ascii) : option Z :=
  let n := nat_of_ascii c in
  if (48 <=? n)%nat && (n <=? 57)%nat then Some (Z.of_nat n - 48) else None.

(** Read exactly [n] decimal digits. *)
Fixpoint digits (n : nat) (acc : Z) (s : string) : option (Z * string) :=
  match n with
  | O => Some (acc, s)
  | S n' =>
      match s with
      | String c s' =>
          match digit c with
          | Some d => digits n' (10 * acc + d) s'
          | None => None
          end
      | EmptyString => None
      end
  end.

(** Read the literal [lit]. *)
Fixpoint expect (lit : string) (s : string) : option string :=
  match lit with
  | EmptyString => Some s
  | String c lit' =>
      match s with
      | String c' s' => if Ascii.eqb c c' then expect lit' s' else None
      | EmptyString => None
      end
  end.

Definition isLeap (y : Z) : bool :=
  ((y mod 4 =? 0) && negb (y mod 100 =? 0)) || (y mod 400 =? 0).

Definition daysInMonth (y m : Z) : Z :=
  if m =? 2 then (if isLeap y then 29 else 28)
  else if (m =? 4) || (m =? 6) || (m =? 9) || (m =? 11) then 30
  else 31.

(** Days from 1970-01-01 to the civil date [y-m-d] (proleptic Gregorian). *)
Definition daysFromCivil (y m d : Z) : Z :=
  let y' := if m <=? 2 then y - 1 else y in
  let era := y' / 400 in
  let yoe := y' - era * 400 in
  let mp := if 2 <? m then m - 3 else m + 9 in
  let doy := (153 * mp + 2) / 5 + d - 1 in
  let doe := yoe * 365 + yoe / 4 - yoe / 100 + doy in
  era * 146097 + doe - 719468.

(** The civil date of a day number. *)
Definition civilFromDays (z : Z) : Z * Z * Z :=
  let z := z + 719468 in
  let era := z / 146097 in
  let doe := z - era * 146097 in
  let yoe := (doe - doe / 1460 + doe / 36524 - doe / 146096) / 365 in
  let doy := doe - (365 * yoe + yoe / 4 - yoe / 100) in
  let mp := (5 * doy + 2) / 153 in
  let d := doy - (153 * mp + 2) / 5 + 1 in
  let m := if mp <? 10 then mp + 3 else mp - 9 in
  let y := yoe + era * 400 in
  (if m <=? 2 then y + 1 else y, m, d).

(** The time value of a civil date and time; 24:00:00 is the end of the
    day.  Out-of-range elements make the text invalid. *)
Definition makeTime (y m d hh mm ss ms : Z) : option Z :=
  if (1 <=? m) && (m <=? 12) && (1 <=? d) && (d <=? daysInMonth y m)
     && ((hh <=? 23) || ((hh =? 24) && (mm =? 0) && (ss =? 0) && (ms =? 0)))
     && (mm <=? 59) && (ss <=? 59)
  then Some (daysFromCivil y m d * msPerDay
             + hh * 3600000 + mm * 60000 + ss * 1000 + ms)
  else None.

(** [TimeClip]: a time value is within 100 000 000 days of the epoch. *)
Definition timeClip (t : Z) : option Z :=
  if (-8640000000000000 <=? t) && (t <=? 8640000000000000) then Some t
  else None.

(** The end of a date-time: nothing (local time, which is UTC here), [Z],
    or an offset [+HH:mm] or [-HH:mm]; the offset in milliseconds. *)
Definition parseOffset (s : string) : option Z :=
  match s with
  | EmptyString => Some 0
  | String c s1 =>
      if String.eqb s "Z" then Some 0
      else
        let sign :=
          if Ascii.eqb c "+" then Some 1
          else if Ascii.eqb c "-" then Some (-1)
          else None in
        match sign, digits 2 0 s1 with
        | Some sign, Some (hh, s2) =>
            match expect ":" s2 with
            | Some s3 =>
                match digits 2 0 s3 with
                | Some (mm, s4) =>
                    if String.eqb s4 "" && (hh <=? 23) && (mm <=? 59)
                    then Some (sign * (hh * 3600000 + mm * 60000))
                    else None
                | None => None
                end
            | None => None
            end
        | _, _ => None
        end
  end.

(** [HH:mm], [HH:mm:ss] or [HH:mm:ss.sss], then the end: hours, minutes,
    seconds, milliseconds and offset. *)
Definition parseTime (s : string) : option (Z * Z * Z * Z * Z) :=
  match digits 2 0 s with
  | Some (hh, s1) =>
      match expect ":" s1 with
      | Some s2 =>
          match digits 2 0 s2 with
          | Some (mm, s3) =>
              match expect ":" s3 with
              | None =>
                  match parseOffset s3 with
                  | Some offset => Some (hh, mm, 0, 0, offset)
                  | None => None
                  end
              | Some s4 =>
                  match digits 2 0 s4 with
                  | Some (ss, s5) =>
                      match expect "." s5 with
                      | None =>
                          match parseOffset s5 with
                          | Some offset => Some (hh, mm, ss, 0, offset)
                          | None => None
                          end
                      | Some s6 =>
                          match digits 3 0 s6 with
                          | Some (ms, s7) =>
                              match parseOffset s7 with
                              | Some offset => Some (hh, mm, ss, ms, offset)
                              | None => None
                              end
                          | None => None
                          end
                      end
                  | None => None
                  end
              end
          | None => None
          end
      | None => None
      end
  | None => None
  end.

(** What may follow the date [y-m-d]: nothing (the date at midnight UTC),
    or [T] and a time. *)
Definition afterDate (y m d : Z) (s : string) : option Z :=
  if String.eqb s "" then makeTime y m d 0 0 0 0
  else
    match expect "T" s with
    | Some s1 =>
        match parseTime s1 with
        | Some (hh, mm, ss, ms, offset) =>
            match makeTime y m d hh mm ss ms with
            | Some t => Some (t - offset)
            | None => None
            end
        | None => None
        end
    | None => None
    end.

(** [YYYY], or a sign and six digits; [-000000] is not a year. *)
Definition parseYear (s : string) : option (Z * string) :=
  match s with
  | String c s1 =>
      if Ascii.eqb c "+" then digits 6 0 s1
      else if Ascii.eqb c "-" then
        match digits 6 0 s1 with
        | Some (y, s2) => if y =? 0 then None else Some (- y, s2)
        | None => None
        end
      else digits 4 0 s
  | EmptyString => None
  end.

(** The date-time string format. *)
Definition parseInterchange (s : string) : option Z :=
  match parseYear s with
  | Some (y, s1) =>
      match expect "-" s1 with
      | None => afterDate y 1 1 s1
      | Some s2 =>
          match digits 2 0 s2 with
          | Some (m, s3) =>
              match expect "-" s3 with
              | None => afterDate y m 1 s3
              | Some s4 =>
                  match digits 2 0 s4 with
                  | Some (d, s5) => afterDate y m d s5
                  | None => None
                  end
              end
          | None => None
          end
      end
  | None => None
  end.

Definition monthNames : list string :=
  ["Jan"; "Feb"; "Mar"; "Apr"; "May"; "Jun";
   "Jul"; "Aug"; "Sep"; "Oct"; "Nov"; "Dec"].

Definition dayNames : list string :=
  ["Sun"; "Mon"; "Tue"; "Wed"; "Thu"; "Fri"; "Sat"].

Definition pad (width : nat) (z : Z) : string :=
  let t := JsString.ofZ z in
  String.concat "" (repeat "0" (width - String.length t)) +:+ t.

(** [Date.prototype.toString] in the UTC zone, for years 0 to 9999. *)
Definition toString (t : Z) : string :=
  let day := t / msPerDay in
  let ms := t mod msPerDay in
  let '(y, m, d) := civilFromDays day in
  nth (Z.to_nat ((day + 4) mod 7)) dayNames "" +:+ " " +:+
  nth (Z.to_nat (m - 1)) monthNames "" +:+ " " +:+
  pad 2 d +:+ " " +:+ pad 4 y +:+ " " +:+
  pad 2 (ms / 3600000) +:+ ":" +:+ pad 2 (ms / 60000 mod 60) +:+ ":" +:+
  pad 2 (ms / 1000 mod 60) +:+
  " GMT+0000 (Coordinated Universal Time)".

Fixpoint monthNumber (names : list string) (k : Z) (s : string)
  : option Z :=
  match names with
  | [] => None
  | n :: names' =>
      if String.eqb n s then Some k else monthNumber names' (k + 1) s
  end.

(** The format of [toString]: the day name is skipped, the zone must
    be [GMT+0000]. *)
Definition parseToString (s : string) : option Z :=
  let month := String.substring 4 3 s in
  match monthNumber monthNames 1 month,
        digits 2 0 (String.substring 8 2 s),
        digits 4 0 (String.substring 11 4 s),
        digits 2 0 (String.substring 16 2 s),
        digits 2 0 (String.substring 19 2 s),
        digits 2 0 (String.substring 22 2 s) with
  | Some m, Some (d, _), Some (y, _), Some (hh, _), Some (mm, _),
    Some (ss, _) =>
      if String.eqb (String.substring 24 9 s) " GMT+0000"
         && String.eqb (String.substring 3 1 s) " "
         && String.eqb (String.substring 7 1 s) " "
         && String.eqb (String.substring 10 1 s) " "
         && String.eqb (String.substring 15 1 s) " "
         && String.eqb (String.substring 18 1 s) ":"
         && String.eqb (String.substring 21 1 s) ":"
      then makeTime y m d hh mm ss 0
      else None
  | _, _, _, _, _, _ => None
  end.

(** [new Date (s).getTime ()] *)
Definition parse (s : string) : option Z :=
  match parseInterchange s with
  | Some t => timeClip t
  | None => parseToString s
  end.

(** [toLocaleDateString ('pt-BR')]: [dd/mm/yyyy]. *)
Definition toLocaleDate (t : Z) : string :=
  let '(y, m, d) := civilFromDays (t / msPerDay) in
  pad 2 d +:+ "/" +:+ pad 2 m +:+ "/" +:+ pad 4 y.

Definition host : Host := {|
  newDate := parse;
  dateToString := toString;
  toLocaleDateString := toLocaleDate
|}.

End RefHost.

(** * What a render derives from the state (lines 444-483 and 650-921) *)

(** ** Colours (lines 444-483)

    Both colour functions first read [table[type]] on an object literal and
    return what they find when it is truthy.  For a type named like a member
    of [Object.prototype] that is the inherited member, not a colour. *)
Inductive Styled (A : Type) : Type :=
| Style (a : A)
| Member (key : string).
Arguments Style {A} a.
Arguments Member {A} key.

Definition predefinedColors : gmap string string :=
  <["User Story" := "#3b82f6"]> (<["Bug" := "#ef4444"]> ∅).

Definition autoColors : list string :=
  ["#10b981"; "#f59e0b"; "#8b5cf6"; "#f97316";
   "#06b6d4"; "#84cc16"; "#ec4899"; "#6366f1"].

(** [getColorForType] (lines 444-457); [index] is an array index. *)
Definition getColorForType (type : string) (index : nat) : Styled string :=
  match predefinedColors !! type with
  | Some color => Style color
  | None =>
      if JsString.includes objectPrototypeKeys type then Member type
      else Style (default "undefined"
                    (autoColors !! (index mod length autoColors)%nat))
  end.

Record ButtonClasses : Type := { active : string; inactive : string }.

Definition predefinedBgs : gmap string ButtonClasses :=
  <["User Story" := {| active := "bg-blue-100 text-blue-800";
                       inactive := "bg-gray-100 text-gray-500" |}]>
    (<["Bug" := {| active := "bg-red-100 text-red-800";
                   inactive := "bg-gray-100 text-gray-500" |}]> ∅).

Definition autoBgs : list ButtonClasses :=
  [ {| active := "bg-green-100 text-green-800";
       inactive := "bg-gray-100 text-gray-500" |};
    {| active := "bg-yellow-100 text-yellow-800";
       inactive := "bg-gray-100 text-gray-500" |};
    {| active := "bg-purple-100 text-purple-800";
       inactive := "bg-gray-100 text-gray-500" |};
    {| active := "bg-orange-100 text-orange-800";
       inactive := "bg-gray-100 text-gray-500" |};
    {| active := "bg-cyan-100 text-cyan-800";
       inactive := "bg-gray-100 text-gray-500" |};
    {| active := "bg-lime-100 text-lime-800";
       inactive := "bg-gray-100 text-gray-500" |};
    {| active := "bg-pink-100 text-pink-800";
       inactive := "bg-gray-100 text-gray-500" |};
    {| active := "bg-indigo-100 text-indigo-800";
       inactive := "bg-gray-100 text-gray-500" |} ].

(** [getBackgroundColorForType] (lines 460-483). *)
Definition getBackgroundColorForType (type : string) (index : nat)
  : Styled ButtonClasses :=
  match predefinedBgs !! type with
  | Some classes => Style classes
  | None =>
      if JsString.includes objectPrototypeKeys type then Member type
      else Style (default {| active := "undefined"; inactive := "undefined" |}
                    (autoBgs !! (index mod length autoBgs)%nat))
  end.

(** ** Series of the scatter chart (lines 660-666) *)

Module Series.
Record t : Type := {
  type : string;
  data : list WorkItem;
  color : Styled string;
  visible : bool
}.
End Series.

(** [dataByType]; [visible] holds the truthiness of [typeFilters[type]],
    the only use made of it. *)
Definition dataByType (st : State) : list Series.t :=
  imap
    (fun index typeName =>
       {| Series.type := typeName;
          Series.data :=
            List.filter (fun item => String.eqb (type item) typeName)
              (filteredData st);
          Series.color := getColorForType typeName index;
          Series.visible := filterOn (typeFilters st) typeName |})
    (itemTypes st).

(** ** Numbers shown on the page *)

(** [Math.min (...l)] and [Math.max (...l)] on integers; [None] stands for
    the infinity they give on the empty list. *)
Definition Math_min (l : list Z) : option Z :=
  match l with
  | [] => None
  | x :: l' => Some (fold_left Z.min l' x)
  end.

Definition Math_max (l : list Z) : option Z :=
  match l with
  | [] => None
  | x :: l' => Some (fold_left Z.max l' x)
  end.


(** [Math.round (sum / n)] for an integer [sum] and a length [n]: the
    quotient rounded to the nearest integer, halves upwards.  [None] stands
    for the NaN (or infinity) that a zero length gives. *)
Definition roundedQuotient (sum : Z) (n : nat) : option Z :=
  if (n =? 0)%nat then None
  else Some ((2 * sum + Z.of_nat n) / (2 * Z.of_nat n)).


(** [data.filter (item => item.type === type)] (lines 768 and 896) *)
Definition typeData (st : State) (typeName : string) : list WorkItem :=
  List.filter (fun item => String.eqb (type item) typeName) (data st).

(** ** Type buttons (lines 767-787) *)

Record Badge : Type := {
  badgeType : string;
  typeCount : nat;
  className : string;
  backgroundColor : Styled string
}.

(** The class read off what [getBackgroundColorForType] returned; an
    inherited member has neither property, and the template literal prints
    [undefined]. *)
Definition classOf (bgColors : Styled ButtonClasses) (on : bool) : string :=
  match bgColors with
  | Style classes => if on then active classes else inactive classes
  | Member _ => "undefined"
  end.

Definition typeBadges (st : State) : list Badge :=
  imap
    (fun index typeName =>
       let typeCount := length (typeData st typeName) in
       let bgColors := getBackgroundColorForType typeName index in
       let color := getColorForType typeName index in
       {| badgeType := typeName;
          typeCount := typeCount;
          className := classOf bgColors (filterOn (typeFilters st) typeName);
          backgroundColor :=
            if filterOn (typeFilters st) typeName then color
            else Style "#9ca3af" |})
    (itemTypes st).

(** ** Summary cards (lines 895-921) *)





(** ** The chart's date range (lines 830-834) *)

(** [Math.min (...filteredData.map (d => d.timestamp))] and the maximum. *)
Definition minDate (st : State) : option Z :=
  Math_min (map timestamp (filteredData st)).
Definition maxDate (st : State) : option Z :=
  Math_max (map timestamp (filteredData st)).

(** ** Which page is shown (line 704) *)


(** ** The series that are drawn *)

(** The series the chart draws (lines 857-867):
    [visible && data.length > 0 && <Scatter ... />]. *)
Definition drawnSeries (st : State) : list Series.t :=
  List.filter
    (fun s => Series.visible s && (0 <? length (Series.data s))%nat)
    (dataByType st).

(** * Vocabulary of the statements *)

(** Order by a numeric key. *)
Definition keyLe {A} (key : A -> Z) (a b : A) : Prop := key a <= key b.

(** [part] occurs verbatim in [message]. *)
Definition mentions (message part : string) : Prop :=
  exists before after, message = before +:+ part +:+ after.

(** A text made of white space only. *)
Inductive Blank : string -> Prop :=
| BlankEmpty : Blank ""
| BlankOne c s :
    JsString.ws1 c = true -> Blank s -> Blank (String c s)
| BlankTwo c1 c2 s :
    JsString.ws2 c1 c2 = true -> Blank s -> Blank (String c1 (String c2 s))
| BlankThree c1 c2 c3 s :
    JsString.ws3 c1 c2 c3 = true -> Blank s ->
    Blank (String c1 (String c2 (String c3 s))).

(** A callback returns, or throws, on an argument. *)
Definition returns {A B} (f : A -> Outcome B) (x : A) : Prop :=
  exists y, f x = Returned y.
Definition throws {A B} (f : A -> Outcome B) (x : A) : Prop :=
  exists m, f x = Thrown m.

(** The state after the three setters of lines 619-621 have run on a
    processed array [d]. *)
Definition loaded (st : State) (d : list WorkItem) : State := {|
  data := d;
  itemTypes := distinct (map type d);
  typeFilters := foldl assignTrue ∅ (distinct (map type d));
  showP85 := showP85 st; showP95 := showP95 st; loading := loading st;
  error := error st; csvUploaded := csvUploaded st; fileName := fileName st
|}.

(** The four ways a run of [processCSV] can end. *)
Inductive Run {host : Host} (parsed : Papa.ParseResult) (st : State)
  : Outcome unit * State -> Prop :=
| RunSchema :
    missingColumnsOf (headersOf parsed) <> [] ->
    Run parsed st
      (Thrown (schemaErrorMessage (missingColumnsOf (headersOf parsed))
                 (headersOf parsed)), st)
| RunNoData :
    missingColumnsOf (headersOf parsed) = [] ->
    validRows parsed = [] ->
    Run parsed st (Thrown noValidDataMessage, st)
| RunRowError m :
    missingColumnsOf (headersOf parsed) = [] ->
    validRows parsed <> [] ->
    mapThrowing processRow (validRows parsed) = Thrown m ->
    Run parsed st (Thrown m, st)
| RunLoaded mapped :
    missingColumnsOf (headersOf parsed) = [] ->
    validRows parsed <> [] ->
    mapThrowing processRow (validRows parsed) = Returned mapped ->
    Run parsed st (Returned tt, loaded st (sortBy byTimestamp mapped)).

(** The header has the four required columns. *)
Definition headerComplete (parsed : Papa.ParseResult) : Prop :=
  forall col, In col requiredColumns -> In col (headersOf parsed).

(** The calendar day (UTC) and the time of day of a time value. *)
Definition dayNumber (t : Z) : Z := t / msPerDay.
Definition timeOfDay (t : Z) : Z := t mod msPerDay.

(** The three texts a date message is filled with, and the two time values
    that [processRow] parses. *)
Definition idText {host : Host} (row : Row) : string :=
  JsString.trim (toStr (prop row "ID")).
Definition commitedText {host : Host} (row : Row) : string :=
  toStr (prop row "Commited Date").
Definition closedText {host : Host} (row : Row) : string :=
  toStr (prop row "Closed Date").

Definition commitedTime {host : Host} (row : Row) : option Z :=
  newDate (JsString.trim (commitedText row)).
Definition closedTime {host : Host} (row : Row) : option Z :=
  newDate (JsString.trim (closedText row)).

(** The two bounds on a record. *)
Definition recordOk (r : WorkItem) : Prop :=
  commitedDate r <= closedDate r /\ 1 <= leadTime r.

(** What a handler can do to the dataset: nothing, empty it, or install
    the result of a run of [processCSV] that returned. *)
Inductive DataAfter {host : Host} (st : State) (d : list WorkItem) : Prop :=
| DataKept : d = data st -> DataAfter st d
| DataCleared : d = [] -> DataAfter st d
| DataLoaded parsed st0 st1 :
    processCSV parsed st0 = (Returned tt, st1) -> d = data st1 ->
    DataAfter st d.

(** The three cells an ingestion is about. *)
Definition dataset (st : State)
  : list WorkItem * list string * gmap string bool :=
  (data st, itemTypes st, typeFilters st).

(** The two index computations give the exact floors of 85 n / 100 and
    95 n / 100. *)
Definition indexExact (n : nat) : bool :=
  match Math_floor (numberOfNat n * 0.85)%float,
        Math_floor (numberOfNat n * 0.95)%float with
  | Some i85, Some i95 =>
      (i85 =? Z.of_nat n * 85 / 100) && (i95 =? Z.of_nat n * 95 / 100)
  | _, _ => false
  end.

(** [Math.floor (timeDiff / (1000 * 60 * 60 * 24))] as the binary64
    computation of the source, for a time difference that is not negative. *)
Definition floorOfQuotient (timeDiff : Z) : option Z :=
  Math_floor (PrimFloat.of_uint63 (Uint63.of_Z timeDiff) / 86400000)%float.

(** On the three time differences around [k] whole days ([k] days less a
    millisecond, [k] days, [k] days and a millisecond), where rounding the
    quotient could matter, the binary64 computation gives the integer
    quotient. *)
Definition quotientExact (k : Z) : bool :=
  forallb
    (fun timeDiff =>
       (timeDiff <? 0)
       || match floorOfQuotient timeDiff with
          | Some q => q =? timeDiff / msPerDay
          | None => false
          end)
    [k * msPerDay - 1; k * msPerDay; k * msPerDay + 1].

(** An integer that is a Number, as a primitive binary64. *)
Definition numberOfZ (z : Z) : float :=
  if z <? 0 then (- PrimFloat.of_uint63 (Uint63.of_Z (- z)))%float
  else PrimFloat.of_uint63 (Uint63.of_Z z).

(** Lines 596-597 on primitive binary64 values. *)
Definition leadTimeBinary64 (closed commited : Z) : option Z :=
  match
    Math_floor ((numberOfZ closed - numberOfZ commited) / 86400000)%float
  with
  | Some q => Some (q + 1)
  | None => None
  end.

(** [leadTimeOf] gives what the primitive computation gives. *)
Definition leadTimeAgrees (times : Z * Z) : bool :=
  match leadTimeBinary64 (fst times) (snd times) with
  | Some l => l =? leadTimeOf (fst times) (snd times)
  | None => false
  end.

(** Pairs of time values, closing time first: the earliest valid time value
    and a closing time [k] days later, less a millisecond, exactly, and
    plus a millisecond. *)
Definition aroundDays (k : Z) : list (Z * Z) :=
  let first := -8640000000000000 in
  [(first + k * msPerDay - 1, first); (first + k * msPerDay, first);
   (first + k * msPerDay + 1, first)].

(** ** The handlers, the state between events, and the rendered page *)

(** [processCSV] up to its setters: what it throws, or the array it hands
    to [setData]. *)
Definition ingest {host : Host} (parsed : Papa.ParseResult)
  : Outcome (list WorkItem) :=
  if (0 <? length (missingColumnsOf (headersOf parsed)))%nat then
    Thrown (schemaErrorMessage (missingColumnsOf (headersOf parsed))
              (headersOf parsed))
  else if (length (validRows parsed) =? 0)%nat then Thrown noValidDataMessage
  else match mapThrowing processRow (validRows parsed) with
       | Thrown m => Thrown m
       | Returned mapped => Returned (sortBy byTimestamp mapped)
       end.

(** The message of line 495. *)
Definition invalidFileMessage : string :=
  "❌ Arquivo inválido! Por favor, selecione apenas arquivos .csv".

(** The test of line 494. *)
Definition hasCsvName (file : File) : bool :=
  JsString.endsWith (JsString.toLowerCase (name file)) ".csv".

(** The three states an upload can end in. *)
Definition afterRejectedName (st : State) : State := {|
  data := data st; itemTypes := itemTypes st; typeFilters := typeFilters st;
  showP85 := showP85 st; showP95 := showP95 st; loading := false;
  error := Some invalidFileMessage; csvUploaded := csvUploaded st;
  fileName := fileName st
|}.

Definition afterFailedUpload (st : State) (file : File) (message : string)
  : State := {|
  data := data st; itemTypes := itemTypes st; typeFilters := typeFilters st;
  showP85 := showP85 st; showP95 := showP95 st; loading := false;
  error := Some ("Erro ao processar o arquivo: " +:+ message);
  csvUploaded := csvUploaded st;
  fileName := name file
|}.

Definition afterUpload (st : State) (file : File) (d : list WorkItem)
  : State := {|
  data := d;
  itemTypes := distinct (map type d);
  typeFilters := foldl assignTrue ∅ (distinct (map type d));
  showP85 := showP85 st; showP95 := showP95 st; loading := false;
  error := None; csvUploaded := true;
  fileName := name file
|}.

(** The two states the load on mount can end in when the file was read. *)
Definition afterFailedAutoLoad (st : State) : State := {|
  data := data st; itemTypes := itemTypes st; typeFilters := typeFilters st;
  showP85 := showP85 st; showP95 := showP95 st; loading := loading st;
  error := error st; csvUploaded := csvUploaded st;
  fileName := "BaseClaude.csv"
|}.

Definition afterAutoLoad (st : State) (d : list WorkItem) : State := {|
  data := d;
  itemTypes := distinct (map type d);
  typeFilters := foldl assignTrue ∅ (distinct (map type d));
  showP85 := showP85 st; showP95 := showP95 st; loading := loading st;
  error := error st; csvUploaded := true;
  fileName := "BaseClaude.csv"
|}.

(** What holds of the state whatever has happened. *)
Record Settled (st : State) : Prop := {
  settled_types : itemTypes st = distinct (map type (data st));
  settled_sorted : StronglySorted (keyLe timestamp) (data st);
  settled_records :
    List.Forall (fun r => recordOk r /\ timestamp r = closedDate r) (data st);
  settled_empty : csvUploaded st = false -> data st = [];
  settled_shown : csvUploaded st = true -> data st <> []
}.

(** Two rows with the same four cells. *)
Definition sameCells (row1 row2 : Row) : Prop :=
  forall col, In col requiredColumns -> prop row1 col = prop row2 col.

(** The first step of [JsString.strip]: does the text start with a white
    space code point? *)
Definition startsBlank (two : ascii -> ascii -> bool)
    (three : ascii -> ascii -> ascii -> bool) (s : string) : bool :=
  match s with
  | String c1 s1 =>
      JsString.ws1 c1
      || match s1 with
         | String c2 s2 =>
             two c1 c2
             || match s2 with
                | String c3 _ => three c1 c2 c3
                | EmptyString => false
                end
         | EmptyString => false
         end
  | EmptyString => false
  end.

(** [Math.round] of a binary64 value: the nearest integer, the upper one of
    two that are equally near; NaN and the infinities give [None]. *)
Definition Math_round (x : float) : option Z :=
  match Prim2SF x with
  | S754_zero _ => Some 0
  | S754_finite sign m e =>
      let mag := if sign then Z.neg m else Z.pos m in
      Some (if 0 <=? e then mag * 2 ^ e
            else (2 * mag + 2 ^ (- e)) / (2 * 2 ^ (- e)))
  | S754_infinity _ | S754_nan => None
  end.

(** [Math.round (sum / n)] as the binary64 computation of the source, for
    a sum that is not negative. *)
Definition roundOfQuotient (sum : Z) (n : nat) : option Z :=
  Math_round (PrimFloat.of_uint63 (Uint63.of_Z sum) / numberOfNat n)%float.

(** For [n] records and every sum from 0 to [2 n + 1], which takes the mean
    through the halves 0.5 and 1.5, the binary64 computation gives the
    rounded quotient that [roundedQuotient] computes on the integers. *)
Definition roundExact (n : nat) : bool :=
  forallb
    (fun sum =>
       match roundOfQuotient sum n, roundedQuotient sum n with
       | Some a, Some b => a =? b
       | _, _ => false
       end)
    (map Z.of_nat (seq 0 (2 * n + 2))).

(** * Concrete inputs (on the reference host) *)

Definition mkRow (i t c d : JsValue) : Row :=
  <["ID" := i]> (<["Tipo de Item" := t]> (<["Commited Date" := c]>
    (<["Closed Date" := d]> ∅))).

Definition textRow (i t c d : string) : Row :=
  mkRow (JString i) (JString t) (JString c) (JString d).

Definition fullHeader : option (list string) :=
  Some ["ID"; "Tipo de Item"; "Commited Date"; "Closed Date"].

Definition run (parsed : Papa.ParseResult) (st : State)
  : Outcome unit * State :=
  processCSV (host := RefHost.host) parsed st.

(** ** An item committed late on one day and closed early on the next *)

Definition lateCommit : Papa.ParseResult := {|
  Papa.data :=
    [textRow "A" "Bug" "2025-01-01T23:00:00" "2025-01-02T01:00:00"];
  Papa.fields := fullHeader
|}.

Definition lateCommitRecord : WorkItem := {|
  id := "A"; type := "Bug";
  commitedDate := 1735772400000; closedDate := 1735779600000;
  leadTime := 1; dateFormatted := "02/01/2025";
  timestamp := 1735779600000
|}.

(** ** A header without the type and commitment columns *)

Definition shortHeader : Papa.ParseResult := {|
  Papa.data :=
    [<["ID" := JString "A"]> (<["Closed Date" := JString "2025-01-02"]> ∅)];
  Papa.fields := Some ["ID"; "Closed Date"]
|}.

(** ** A full header, and rows that all lack a required cell *)

Definition onlyIncomplete : Papa.ParseResult := {|
  Papa.data :=
    [mkRow (JString "A") JNull (JString "2025-01-01") (JString "2025-01-02");
     mkRow JNull (JString "Bug") (JString "2025-01-01") JNull];
  Papa.fields := fullHeader
|}.

(** ** Cells coerced to 0 or false, and a blank identifier *)

Definition zeroId : Row :=
  mkRow (JNumber 0) (JString "Bug") (JString "2025-01-01")
    (JString "2025-01-02").
Definition falseId : Row :=
  mkRow (JBool false) (JString "Bug") (JString "2025-01-01")
    (JString "2025-01-02").
Definition blankId : Row := textRow "   " "Bug" "2025-01-01" "2025-01-02".

Definition coercedCells : Papa.ParseResult := {|
  Papa.data := [zeroId; falseId; blankId];
  Papa.fields := fullHeader
|}.

Definition blankIdRecord : WorkItem := {|
  id := ""; type := "Bug";
  commitedDate := 1735689600000; closedDate := 1735776000000;
  leadTime := 2; dateFormatted := "02/01/2025";
  timestamp := 1735776000000
|}.

(** ** Which date failed is not in the message *)

(** Two one-row inputs.  In the first only the closed date fails to parse,
    in the second only the commitment date: the failing cell holds a
    complete date, a line break (a quoted CSV field may span lines) and
    more text, which no date parser reads past a complete date.  The cells
    are laid out so that the two messages coincide. *)
Definition closedFails : Row :=
  textRow "A" "Bug" "2025-01-01"
    ("2025-01-02" +:+ nl +:+ "Closed Date: 2025-01-03").
Definition commitedFails : Row :=
  textRow "A" "Bug"
    ("2025-01-01" +:+ nl +:+ "Closed Date: 2025-01-02") "2025-01-03".

Definition closedFailsInput : Papa.ParseResult :=
  {| Papa.data := [closedFails]; Papa.fields := fullHeader |}.
Definition commitedFailsInput : Papa.ParseResult :=
  {| Papa.data := [commitedFails]; Papa.fields := fullHeader |}.

(** A closed date in a format the host does not accept. *)
Definition slashDate : Row := textRow "B-7" "Bug" "2025-01-10" "15/01/2025".

Definition slashDateInput : Papa.ParseResult := {|
  Papa.data := [textRow "A" "Bug" "2025-01-01" "2025-01-03"; slashDate];
  Papa.fields := fullHeader
|}.

(** ** A bad file after a good one *)

Definition goodInput : Papa.ParseResult := {|
  Papa.data :=
    [textRow "A" "Bug" "2025-01-01" "2025-01-03";
     textRow "B" "User Story" "2025-01-01" "2025-01-01"];
  Papa.fields := fullHeader
|}.

Definition goodState : State := snd (run goodInput initialState).



(** ** Ties on the closing date *)

Definition tiesInput : Papa.ParseResult := {|
  Papa.data :=
    [textRow "A" "Bug" "2025-01-01" "2025-01-09";
     textRow "B" "Bug" "2025-01-02" "2025-01-05";
     textRow "C" "Task" "2025-01-03" "2025-01-09";
     textRow "D" "Bug" "2025-01-04" "2025-01-05";
     textRow "E" "Task" "2025-01-01" "2025-01-02"];
  Papa.fields := fullHeader
|}.

Definition tiesState : State := snd (run tiesInput goodState).

(** ** An upload, then a click on a type *)

Definition sampleCsv : string :=
  "ID,Tipo de Item,Commited Date,Closed Date" +:+ nl +:+
  "A,Bug,2025-01-01,2025-01-03" +:+ nl +:+
  "B,User Story,2025-01-01,2025-01-01" +:+ nl.

(** A decoder that knows the sample text. *)
Definition sampleDecoder (csvContent : string) : Papa.ParseResult :=
  if String.eqb csvContent sampleCsv then goodInput
  else {| Papa.data := []; Papa.fields := None |}.

Definition sampleFile : File := {| name := "Base.CSV"; text := sampleCsv |}.

Definition uploaded : State :=
  snd (handle (host := RefHost.host) sampleDecoder
         (FileChosen (Some sampleFile)) initialState).

Definition bugsOff : State :=
  snd (handle (host := RefHost.host) sampleDecoder (TypeClicked "Bug")
         uploaded).

(** ** Ten filtered records with lead times 1 to 10 *)

Definition tenInput : Papa.ParseResult := {|
  Papa.data :=
    [textRow "T1" "Bug" "2025-02-08" "2025-02-10";
     textRow "T2" "User Story" "2025-02-11" "2025-02-11";
     textRow "T3" "Bug" "2025-02-11" "2025-02-12";
     textRow "T4" "Bug" "2025-02-04" "2025-02-13";
     textRow "T5" "User Story" "2025-02-06" "2025-02-14";
     textRow "X1" "Task" "2025-01-01" "2025-02-15";
     textRow "T6" "Bug" "2025-02-08" "2025-02-15";
     textRow "T7" "Bug" "2025-02-10" "2025-02-16";
     textRow "T8" "User Story" "2025-02-14" "2025-02-17";
     textRow "T9" "Bug" "2025-02-14" "2025-02-18";
     textRow "T10" "Bug" "2025-02-14" "2025-02-19"];
  Papa.fields := fullHeader
|}.

(** The file is loaded and the type "Task" switched off. *)
Definition tenState : State :=
  snd (toggleTypeFilter "Task" (snd (run tenInput initialState))).

(** ** Files the input turns away, or fails on *)

Definition notesFile : File := {| name := "notes.txt"; text := sampleCsv |}.

Definition emptyFile : File := {| name := "empty.csv"; text := "" |}.

(** ** A reset while the sample is being read

    The sample file is chosen; while its text is being read the dashboard
    is on screen, and "Importar Novo CSV" is clicked; then the text
    arrives. *)




(** ** The two records of the sample *)

Definition storyRecord : WorkItem := {|
  id := "B"; type := "User Story";
  commitedDate := 1735689600000; closedDate := 1735689600000;
  leadTime := 1; dateFormatted := "01/01/2025";
  timestamp := 1735689600000
|}.

Definition bugRecord : WorkItem := {|
  id := "A"; type := "Bug";
  commitedDate := 1735689600000; closedDate := 1735862400000;
  leadTime := 3; dateFormatted := "03/01/2025";
  timestamp := 1735862400000
|}.

(** ** The ten records in the opposite order *)

Definition tenReversed : State := {|
  data := rev (data tenState);
  itemTypes := itemTypes tenState; typeFilters := typeFilters tenState;
  showP85 := showP85 tenState; showP95 := showP95 tenState;
  loading := loading tenState; error := error tenState;
  csvUploaded := csvUploaded tenState; fileName := fileName tenState
|}.

(** ** Cells with white space around the texts *)

Definition paddedInput : Papa.ParseResult := {|
  Papa.data := [textRow "  A " " Bug  " " 2025-01-01" "2025-01-03 "];
  Papa.fields := fullHeader
|}.

Definition paddedState : State := snd (run paddedInput initialState).

(** ** The sample with a fifth column, and with its rows exchanged *)

Definition widerInput : Papa.ParseResult := {|
  Papa.data :=
    [<["Sprint" := JNumber 7]>
       (textRow "A" "Bug" "2025-01-01" "2025-01-03");
     <["Sprint" := JNull]>
       (textRow "B" "User Story" "2025-01-01" "2025-01-01")];
  Papa.fields :=
    Some ["Sprint"; "Closed Date"; "ID"; "Commited Date"; "Tipo de Item"]
|}.

Definition exchangedInput : Papa.ParseResult := {|
  Papa.data :=
    [textRow "B" "User Story" "2025-01-01" "2025-01-01";
     textRow "A" "Bug" "2025-01-01" "2025-01-03"];
  Papa.fields := fullHeader
|}.

(** * Properties *)

(** ** The sort *)

Section Sorting.

Context {A : Type} (key : A -> Z).

(** The comparators of the source subtract two numeric keys. *)
Local Abbreviation cmp := (fun a b : A => key a - key b).

Lemma insertBy_perm (x : A) (l : list A) :
  Permutation (insertBy cmp x l) (x :: l).
Proof.
  induction l as [|y l IH]; simpl; [reflexivity|].
  destruct (cmp x y <=? 0); [reflexivity|].
  rewrite IH. apply perm_swap.
Qed.

Lemma sortBy_perm (l : list A) : Permutation (sortBy cmp l) l.
Proof.
  induction l as [|x l IH]; simpl; [constructor|].
  change (foldr (insertBy cmp) [] l) with (sortBy cmp l).
  rewrite insertBy_perm. now constructor.
Qed.

Lemma insertBy_sorted (x : A) (l : list A) :
  StronglySorted (keyLe key) l -> StronglySorted (keyLe key) (insertBy cmp x l).
Proof.
  induction 1 as [|y l Hl IH Hy]; simpl.
  - repeat constructor.
  - destruct (Z.leb_spec (cmp x y) 0) as [Hle|Hgt].
    + constructor; [now constructor|].
      constructor; [unfold keyLe; lia|].
      eapply List.Forall_impl; [|exact Hy].
      unfold keyLe. intros; lia.
    + constructor; [exact IH|].
      eapply Permutation_Forall; [symmetry; apply insertBy_perm|].
      constructor; [unfold keyLe; lia | exact Hy].
Qed.

Lemma sortBy_sorted (l : list A) : StronglySorted (keyLe key) (sortBy cmp l).
Proof.
  induction l as [|x l IH]; simpl; [constructor|].
  now apply insertBy_sorted.
Qed.

(** Stability: the elements of any one key keep their relative order. *)
Lemma insertBy_same_key (k : Z) (x : A) (l : list A) :
  List.filter (fun a => key a =? k) (insertBy cmp x l)
  = List.filter (fun a => key a =? k) (x :: l).
Proof.
  induction l as [|y l IH]; [reflexivity|].
  cbn [insertBy].
  destruct (Z.leb_spec (cmp x y) 0) as [Hle|Hgt]; [reflexivity|].
  cbn [List.filter] in *. rewrite IH.
  destruct (Z.eqb_spec (key x) k) as [Hx|Hx]; [|reflexivity].
  destruct (Z.eqb_spec (key y) k) as [Hy|Hy]; [lia | reflexivity].
Qed.

Lemma sortBy_stable (k : Z) (l : list A) :
  List.filter (fun a => key a =? k) (sortBy cmp l)
  = List.filter (fun a => key a =? k) l.
Proof.
  induction l as [|x l IH]; [reflexivity|].
  cbn [sortBy foldr].
  change (foldr (insertBy cmp) [] l) with (sortBy cmp l).
  rewrite insertBy_same_key. cbn [List.filter]. now rewrite IH.
Qed.

Lemma sortBy_length (l : list A) : length (sortBy cmp l) = length l.
Proof. apply Permutation_length, sortBy_perm. Qed.

Lemma sortBy_In (x : A) (l : list A) : In x (sortBy cmp l) <-> In x l.
Proof.
  split; apply Permutation_in; [|symmetry]; apply sortBy_perm.
Qed.

End Sorting.

(** ** Strings and messages *)

Lemma append_assoc (a b c : string) : (a +:+ b) +:+ c = a +:+ (b +:+ c).
Proof.
  induction a as [|x a IH]; [reflexivity|].
  change (String x ((a +:+ b) +:+ c) = String x (a +:+ (b +:+ c))).
  now f_equal.
Qed.

Lemma append_empty_r (a : string) : a +:+ "" = a.
Proof.
  induction a as [|x a IH]; [reflexivity|].
  change (String x (a +:+ "") = String x a). now f_equal.
Qed.

Lemma mentions_here (part after : string) : mentions (part +:+ after) part.
Proof. now exists "", after. Qed.

Lemma mentions_end (part : string) : mentions part part.
Proof. exists "", "". simpl. now rewrite append_empty_r. Qed.

Lemma mentions_skip (a message part : string) :
  mentions message part -> mentions (a +:+ message) part.
Proof.
  intros (b & c & ->). exists (a +:+ b), c. now rewrite append_assoc.
Qed.

(** *** Trimming *)

Lemma rev_app_append (s t : string) :
  String.rev_app s t = String.rev s +:+ t.
Proof.
  unfold String.rev. revert t.
  induction s as [|c s IH]; intros t; [reflexivity|].
  cbn [String.rev_app]. rewrite (IH (String c "")), IH.
  now rewrite append_assoc.
Qed.

Lemma rev_cons (c : ascii) (s : string) :
  String.rev (String c s) = String.rev s +:+ String c "".
Proof. unfold String.rev at 1. cbn [String.rev_app]. apply rev_app_append. Qed.

Lemma rev_append (s t : string) :
  String.rev (s +:+ t) = String.rev t +:+ String.rev s.
Proof.
  induction s as [|c s IH].
  - cbn. now rewrite append_empty_r.
  - change (String c s +:+ t) with (String c (s +:+ t)).
    now rewrite !rev_cons, IH, append_assoc.
Qed.

Lemma rev_involutive (s : string) : String.rev (String.rev s) = s.
Proof.
  induction s as [|c s IH]; [reflexivity|].
  now rewrite rev_cons, rev_append, IH.
Qed.

Lemma rev_empty (s : string) : String.rev s = "" -> s = "".
Proof.
  intros H. rewrite <- (rev_involutive s), H. reflexivity.
Qed.

Lemma Blank_append (s t : string) : Blank s -> Blank t -> Blank (s +:+ t).
Proof.
  induction 1; intros Ht; cbn [String.append]; auto;
    [apply BlankOne | apply BlankTwo | apply BlankThree]; auto.
Qed.

(** The lead byte tells the one-, two- and three-byte code points apart. *)
Lemma ws2_not_ws1 (c1 c2 : ascii) :
  JsString.ws2 c1 c2 = true -> JsString.ws1 c1 = false.
Proof.
  unfold JsString.ws2, JsString.ws1.
  destruct (Nat.eqb_spec (nat_of_ascii c1) 194) as [->|]; [|discriminate].
  reflexivity.
Qed.

Lemma ws3_lead (c1 c2 c3 : ascii) :
  JsString.ws3 c1 c2 c3 = true ->
  (nat_of_ascii c1 = 225 \/ nat_of_ascii c1 = 226 \/ nat_of_ascii c1 = 227
   \/ nat_of_ascii c1 = 239)%nat.
Proof.
  unfold JsString.ws3. rewrite !orb_true_iff, !andb_true_iff, !Nat.eqb_eq.
  intuition.
Qed.

Lemma ws3_not_ws1 (c1 c2 c3 : ascii) :
  JsString.ws3 c1 c2 c3 = true -> JsString.ws1 c1 = false.
Proof.
  intros H. apply ws3_lead in H. unfold JsString.ws1.
  destruct H as [-> | [-> | [-> | ->]]]; reflexivity.
Qed.

Lemma ws3_not_ws2 (c1 c2 c3 c : ascii) :
  JsString.ws3 c1 c2 c3 = true -> JsString.ws2 c1 c = false.
Proof.
  intros H. apply ws3_lead in H. unfold JsString.ws2.
  destruct H as [-> | [-> | [-> | ->]]]; reflexivity.
Qed.

Lemma trimStart_blank (s : string) : Blank s -> JsString.trimStart s = "".
Proof.
  unfold JsString.trimStart.
  induction 1 as [|c s Hc _ IH|c1 c2 s Hc _ IH|c1 c2 c3 s Hc _ IH].
  - reflexivity.
  - cbn [JsString.strip]. now rewrite Hc.
  - cbn [JsString.strip]. now rewrite (ws2_not_ws1 _ _ Hc), Hc.
  - cbn [JsString.strip].
    now rewrite (ws3_not_ws1 _ _ _ Hc), (ws3_not_ws2 _ _ _ c2 Hc), Hc.
Qed.

(** What [strip] removes is white space, whichever way the bytes run. *)
Lemma strip_prefix (s : string) :
  exists w, s = w +:+ JsString.trimStart s /\ Blank w.
Proof.
  unfold JsString.trimStart.
  assert (G : forall n s, (String.length s <= n)%nat ->
              exists w, s = w +:+ JsString.strip JsString.ws2 JsString.ws3 s
                        /\ Blank w).
  { clear s. induction n as [|n IH]; intros s Hn.
    - destruct s; [|cbn in Hn; lia]. exists "". split; [reflexivity|constructor].
    - destruct s as [|c1 s1]; [exists ""; split; [reflexivity|constructor]|].
      cbn [String.length] in Hn. cbn [JsString.strip].
      destruct (JsString.ws1 c1) eqn:E1.
      { destruct (IH s1) as (w & Hw & Bw); [lia|].
        exists (String c1 w).
        split; [rewrite Hw at 1; reflexivity|].
        now apply BlankOne. }
      destruct s1 as [|c2 s2];
        [exists ""; split; [reflexivity|constructor]|].
      cbn [String.length] in Hn.
      destruct (JsString.ws2 c1 c2) eqn:E2.
      { destruct (IH s2) as (w & Hw & Bw); [lia|].
        exists (String c1 (String c2 w)).
        split; [rewrite Hw at 1; reflexivity|].
        now apply BlankTwo. }
      destruct s2 as [|c3 s3];
        [exists ""; split; [reflexivity|constructor]|].
      cbn [String.length] in Hn.
      destruct (JsString.ws3 c1 c2 c3) eqn:E3;
        [|exists ""; split; [reflexivity|constructor]].
      destruct (IH s3) as (w & Hw & Bw); [lia|].
      exists (String c1 (String c2 (String c3 w))).
      split; [rewrite Hw at 1; reflexivity|].
      now apply BlankThree. }
  apply (G (String.length s)). lia.
Qed.

Lemma strip_reversed_empty (u : string) :
  JsString.strip (fun c2 c1 => JsString.ws2 c1 c2)
    (fun c3 c2 c1 => JsString.ws3 c1 c2 c3) u = "" ->
  Blank (String.rev u).
Proof.
  assert (G : forall n u, (String.length u <= n)%nat ->
              JsString.strip (fun c2 c1 => JsString.ws2 c1 c2)
                (fun c3 c2 c1 => JsString.ws3 c1 c2 c3) u = "" ->
              Blank (String.rev u)).
  { clear u. induction n as [|n IH]; intros u Hn.
    - destruct u; [constructor | cbn in Hn; lia].
    - destruct u as [|c1 u1]; [constructor|].
      cbn [String.length] in Hn. cbn [JsString.strip].
      destruct (JsString.ws1 c1) eqn:E1.
      { intros H. rewrite rev_cons. apply Blank_append; [apply IH; [lia|exact H]|].
        apply BlankOne; [exact E1 | constructor]. }
      destruct u1 as [|c2 u2]; [discriminate|].
      cbn [String.length] in Hn.
      destruct (JsString.ws2 c2 c1) eqn:E2.
      { intros H. rewrite !rev_cons, append_assoc.
        apply Blank_append; [apply IH; [lia|exact H]|].
        apply BlankTwo; [exact E2 | constructor]. }
      destruct u2 as [|c3 u3]; [discriminate|].
      cbn [String.length] in Hn.
      destruct (JsString.ws3 c3 c2 c1) eqn:E3; [|discriminate].
      intros H. rewrite !rev_cons, !append_assoc.
      apply Blank_append; [apply IH; [lia|exact H]|].
      apply BlankThree; [exact E3 | constructor]. }
  apply (G (String.length u)). lia.
Qed.

(** [trim] leaves nothing exactly of the texts that are all white space. *)
Lemma trim_empty_iff (s : string) : JsString.trim s = "" <-> Blank s.
Proof.
  unfold JsString.trim, JsString.trimEnd. split.
  - intros H. apply rev_empty, strip_reversed_empty in H.
    rewrite rev_involutive in H.
    destruct (strip_prefix s) as (w & Hw & Bw). rewrite Hw.
    now apply Blank_append.
  - intros H. now rewrite (trimStart_blank s H).
Qed.

Ltac find_mention :=
  repeat (first [ apply mentions_here | apply mentions_end
                | apply mentions_skip ]).

Lemma includes_In (l : list string) (x : string) :
  JsString.includes l x = true <-> In x l.
Proof.
  unfold JsString.includes. rewrite existsb_exists. split.
  - intros (y & Hy & E). apply String.eqb_eq in E. now subst.
  - intros H. exists x. split; [exact H | apply String.eqb_refl].
Qed.

Lemma missingColumnsOf_In (headers : list string) (col : string) :
  In col (missingColumnsOf headers)
  <-> In col requiredColumns /\ ~ In col headers.
Proof.
  unfold missingColumnsOf. rewrite filter_In, negb_true_iff.
  rewrite <- (includes_In headers col).
  destruct (JsString.includes headers col); intuition congruence.
Qed.

Lemma requiredColumns_NoDup : List.NoDup requiredColumns.
Proof.
  unfold requiredColumns.
  repeat (constructor; [simpl; intuition discriminate|]). constructor.
Qed.

Lemma missingColumnsOf_NoDup (headers : list string) :
  List.NoDup (missingColumnsOf headers).
Proof. apply List.NoDup_filter, requiredColumns_NoDup. Qed.

Lemma missingColumnsOf_nil (headers : list string) :
  missingColumnsOf headers = []
  <-> forall col, In col requiredColumns -> In col headers.
Proof.
  split.
  - intros E col Hc.
    destruct (in_dec string_dec col headers) as [H|H]; [exact H|].
    assert (In col (missingColumnsOf headers))
      by (apply missingColumnsOf_In; auto).
    rewrite E in *. contradiction.
  - intros H. destruct (missingColumnsOf headers) as [|c cs] eqn:E; auto.
    assert (Hc : In c (missingColumnsOf headers)) by (rewrite E; now left).
    apply missingColumnsOf_In in Hc. destruct Hc as [Hr Hn].
    elim Hn. auto.
Qed.

(** The four messages are pairwise different whatever they are filled
    with: they part after the leading mark. *)
Lemma noValidData_not_schema (missing headers : list string) :
  noValidDataMessage <> schemaErrorMessage missing headers.
Proof. unfold noValidDataMessage, schemaErrorMessage. cbn. discriminate. Qed.

Lemma noValidData_not_invalidDate (i c d : string) :
  noValidDataMessage <> invalidDateMessage i c d.
Proof. unfold noValidDataMessage, invalidDateMessage. cbn. discriminate. Qed.

Lemma noValidData_not_inconsistentDate (i c d : string) :
  noValidDataMessage <> inconsistentDateMessage i c d.
Proof.
  unfold noValidDataMessage, inconsistentDateMessage. cbn. discriminate.
Qed.

Lemma schema_not_invalidDate (missing headers : list string) (i c d : string) :
  schemaErrorMessage missing headers <> invalidDateMessage i c d.
Proof. unfold schemaErrorMessage, invalidDateMessage. cbn. discriminate. Qed.

Lemma schema_not_inconsistentDate (missing headers : list string)
    (i c d : string) :
  schemaErrorMessage missing headers <> inconsistentDateMessage i c d.
Proof.
  unfold schemaErrorMessage, inconsistentDateMessage. cbn. discriminate.
Qed.

Lemma invalidDate_not_inconsistentDate (i c d i' c' d' : string) :
  invalidDateMessage i c d <> inconsistentDateMessage i' c' d'.
Proof.
  unfold invalidDateMessage, inconsistentDateMessage. cbn. discriminate.
Qed.

(** ** Callbacks that may throw *)

Section MapThrowing.

Context {A B : Type} (f : A -> Outcome B).

Lemma returns_or_throws (x : A) : returns f x \/ throws f x.
Proof.
  unfold returns, throws. destruct (f x); eauto.
Qed.

Lemma mapThrowing_returned (l : list A) (ys : list B) :
  mapThrowing f l = Returned ys ->
  Forall2 (fun x y => f x = Returned y) l ys.
Proof.
  revert ys. induction l as [|x l IH]; simpl; intros ys H.
  - injection H as <-. constructor.
  - destruct (f x) as [y|m] eqn:Hx; [|discriminate].
    destruct (mapThrowing f l) as [ys'|m]; [|discriminate].
    injection H as <-. constructor; auto.
Qed.

(** The first element on which the callback throws decides the outcome. *)
Lemma mapThrowing_first_throw (l1 l2 : list A) (x : A) (m : string) :
  List.Forall (returns f) l1 -> f x = Thrown m ->
  mapThrowing f (l1 ++ x :: l2) = Thrown m.
Proof.
  induction 1 as [|y l1 [r Hy] _ IH]; simpl; intros Hx.
  - now rewrite Hx.
  - rewrite Hy, IH; auto.
Qed.

Lemma mapThrowing_thrown (l : list A) (m : string) :
  mapThrowing f l = Thrown m ->
  exists l1 x l2,
    l = l1 ++ x :: l2 /\ List.Forall (returns f) l1 /\ f x = Thrown m.
Proof.
  induction l as [|x l IH]; simpl; [discriminate|].
  destruct (f x) as [y|m'] eqn:Hx.
  - destruct (mapThrowing f l) as [ys|m'']; [discriminate|].
    intros [= ->]. destruct (IH eq_refl) as (l1 & x' & l2 & -> & H1 & H2).
    exists (x :: l1), x', l2. repeat split; auto.
    constructor; [now exists y | exact H1].
  - intros [= ->]. exists [], x, l. repeat split; auto.
Qed.

Lemma mapThrowing_some_throw (l : list A) (x : A) :
  In x l -> throws f x -> exists m, mapThrowing f l = Thrown m.
Proof.
  induction l as [|y l IH]; simpl; [tauto|].
  intros [->|Hin] Hx.
  - destruct Hx as [m ->]. eauto.
  - destruct (f y); [|eauto].
    destruct (IH Hin Hx) as [m ->]. eauto.
Qed.

Lemma mapThrowing_all_return (l : list A) :
  List.Forall (returns f) l -> exists ys, mapThrowing f l = Returned ys.
Proof.
  induction 1 as [|x l [y Hy] _ [ys IH]]; simpl; [eauto|].
  rewrite Hy, IH. eauto.
Qed.

Lemma mapThrowing_length (l : list A) (ys : list B) :
  mapThrowing f l = Returned ys -> length ys = length l.
Proof.
  intros H. apply mapThrowing_returned in H.
  symmetry. eapply Forall2_length, H.
Qed.

End MapThrowing.

(** ** [processCSV] by cases *)

Section Ingestion.

Context {host : Host}.

Lemma length_pos_nonnil {X} (l : list X) :
  (0 <? length l)%nat = true <-> l <> [].
Proof.
  destruct l; simpl; split; intros; try congruence; try discriminate; auto.
Qed.

Lemma processCSV_missing (parsed : Papa.ParseResult) (st : State) :
  missingColumnsOf (headersOf parsed) <> [] ->
  processCSV parsed st
  = (Thrown (schemaErrorMessage (missingColumnsOf (headersOf parsed))
               (headersOf parsed)), st).
Proof.
  intros H. unfold processCSV.
  apply length_pos_nonnil in H. now rewrite H.
Qed.

Lemma processCSV_no_rows (parsed : Papa.ParseResult) (st : State) :
  missingColumnsOf (headersOf parsed) = [] ->
  validRows parsed = [] ->
  processCSV parsed st = (Thrown noValidDataMessage, st).
Proof.
  intros H1 H2. unfold processCSV. now rewrite H1, H2.
Qed.

Lemma processCSV_rows (parsed : Papa.ParseResult) (st : State) :
  missingColumnsOf (headersOf parsed) = [] ->
  validRows parsed <> [] ->
  processCSV parsed st
  = match mapThrowing processRow (validRows parsed) with
    | Thrown m => (Thrown m, st)
    | Returned mapped =>
        (Returned tt, loaded st (sortBy byTimestamp mapped))
    end.
Proof.
  intros H1 H2. unfold processCSV. rewrite H1. cbn [length Nat.ltb Nat.leb].
  destruct (validRows parsed) as [|r rs] eqn:E; [congruence|].
  cbn [length Nat.eqb]. unfold bind, lift.
  destruct (mapThrowing processRow (r :: rs)); reflexivity.
Qed.

(** Every run ends in one of the four ways of [Run]. *)
Lemma processCSV_run (parsed : Papa.ParseResult) (st : State) :
  Run parsed st (processCSV parsed st).
Proof.
  assert (Hm : missingColumnsOf (headersOf parsed) = []
               \/ missingColumnsOf (headersOf parsed) <> [])
    by (destruct (missingColumnsOf _); [left | right]; congruence).
  assert (Hv : validRows parsed = [] \/ validRows parsed <> [])
    by (destruct (validRows _); [left | right]; congruence).
  destruct Hm as [Hm|Hm].
  - destruct Hv as [Hv|Hv].
    + rewrite processCSV_no_rows by assumption. now constructor.
    + rewrite processCSV_rows by assumption.
      destruct (mapThrowing _ (validRows parsed)) as [mapped|m] eqn:E.
      * now apply RunLoaded.
      * now apply RunRowError.
  - rewrite processCSV_missing by assumption. now apply RunSchema.
Qed.

Lemma processCSV_returned (parsed : Papa.ParseResult) (st st' : State) :
  processCSV parsed st = (Returned tt, st') ->
  exists mapped,
    missingColumnsOf (headersOf parsed) = [] /\
    validRows parsed <> [] /\
    mapThrowing processRow (validRows parsed) = Returned mapped /\
    st' = loaded st (sortBy byTimestamp mapped).
Proof.
  intros H. pose proof (processCSV_run parsed st) as R.
  rewrite H in R. inversion R; subst. eauto.
Qed.

(** What a returned record says about its row. *)
Lemma processRow_returned (row : Row) (r : WorkItem) :
  processRow row = Returned r ->
  newDate (JsString.trim (toStr (prop row "Commited Date")))
    = Some (commitedDate r) /\
  newDate (JsString.trim (toStr (prop row "Closed Date")))
    = Some (closedDate r) /\
  commitedDate r <= closedDate r /\
  id r = JsString.trim (toStr (prop row "ID")) /\
  type r = JsString.trim (toStr (prop row "Tipo de Item")) /\
  leadTime r = leadTimeOf (closedDate r) (commitedDate r) /\
  timestamp r = closedDate r /\
  dateFormatted r = toLocaleDateString (closedDate r).
Proof.
  unfold processRow.
  destruct (newDate _) as [c|]; [|discriminate].
  destruct (newDate _) as [d|]; [|discriminate].
  destruct (Z.ltb_spec d c); [discriminate|].
  intros [= <-]. cbn. repeat split; auto.
Qed.

End Ingestion.

(** ** Header validation (lines 528-541) *)

Section SchemaErrors.

Context {host : Host}.

(** C4: when the header lacks a required column, ingestion throws the
    schema message and the state is untouched; the columns named as missing
    are exactly the required columns that the header does not contain, each
    once; and the message carries, verbatim, the list of missing columns, the
    expected header and the header found. *)
Theorem C4_schema_error_names_missing_columns
    (parsed : Papa.ParseResult) (st : State) :
  (exists col, In col requiredColumns /\ ~ In col (headersOf parsed)) ->
  let missing := missingColumnsOf (headersOf parsed) in
  let message := schemaErrorMessage missing (headersOf parsed) in
  processCSV parsed st = (Thrown message, st) /\
  (forall col,
      In col missing
      <-> In col requiredColumns /\ ~ In col (headersOf parsed)) /\
  List.NoDup missing /\
  mentions message (JsString.join ", " missing) /\
  mentions message (JsString.join ", " requiredColumns) /\
  mentions message (JsString.join ", " (headersOf parsed)).
Proof.
  intros (col & Hreq & Hnot) missing message.
  assert (Hne : missing <> []).
  { intros E. apply (proj1 (missingColumnsOf_nil _)) with (col := col) in E;
      auto. }
  split; [now apply processCSV_missing|].
  split; [apply missingColumnsOf_In|].
  split; [apply missingColumnsOf_NoDup|].
  unfold message, schemaErrorMessage.
  repeat split; find_mention.
Qed.

(** C9: a header with all four required columns and no complete row makes
    ingestion throw the no-valid-data message, leaving the state untouched;
    that message differs from every schema message (and from every date
    message). *)
Theorem C9_no_valid_data_is_not_a_schema_error
    (parsed : Papa.ParseResult) (st : State) :
  (forall col, In col requiredColumns -> In col (headersOf parsed)) ->
  validRows parsed = [] ->
  processCSV parsed st = (Thrown noValidDataMessage, st) /\
  (forall missing headers,
      noValidDataMessage <> schemaErrorMessage missing headers) /\
  (forall i c d, noValidDataMessage <> invalidDateMessage i c d) /\
  (forall i c d, noValidDataMessage <> inconsistentDateMessage i c d).
Proof.
  intros Hcols Hrows. split.
  - apply processCSV_no_rows; [now apply missingColumnsOf_nil | exact Hrows].
  - split; [exact noValidData_not_schema|].
    split; [exact noValidData_not_invalidDate
           | exact noValidData_not_inconsistentDate].
Qed.

End SchemaErrors.

(** ** The completeness filter (lines 544-549) *)

Lemma rowComplete_true (row : Row) :
  rowComplete row = true
  <-> truthy (prop row "ID") = true /\
      truthy (prop row "Tipo de Item") = true /\
      truthy (prop row "Commited Date") = true /\
      truthy (prop row "Closed Date") = true.
Proof.
  unfold rowComplete. rewrite !andb_true_iff. tauto.
Qed.

Lemma validRows_In (parsed : Papa.ParseResult) (row : Row) :
  In row (validRows parsed)
  <-> In row (Papa.data parsed) /\ rowComplete row = true.
Proof. unfold validRows. apply filter_In. Qed.

Lemma rowComplete_required (row : Row) (key : string) :
  In key requiredColumns -> rowComplete row = true ->
  truthy (prop row key) = true.
Proof.
  intros Hk Hc. apply rowComplete_true in Hc.
  destruct Hc as (H1 & H2 & H3 & H4).
  destruct Hk as [<-|[<-|[<-|[<-|[]]]]]; assumption.
Qed.

Lemma validRows_filtered (rows : list Row) (fields : option (list string)) :
  validRows {| Papa.data := List.filter rowComplete rows;
               Papa.fields := fields |}
  = validRows {| Papa.data := rows; Papa.fields := fields |}.
Proof.
  unfold validRows. cbn [Papa.data].
  induction rows as [|r rows IH]; [reflexivity|].
  cbn [List.filter]. destruct (rowComplete r) eqn:E; [|exact IH].
  cbn [List.filter]. rewrite E. now f_equal.
Qed.

Lemma ofZ_nonempty (n : Z) : JsString.ofZ n <> "".
Proof.
  unfold JsString.ofZ, NilZero.string_of_int.
  destruct (Z.to_int n) as [d|d]; [|discriminate].
  unfold NilZero.string_of_uint. destruct d; discriminate.
Qed.

Section Rows.

Context {host : Host}.

(** A truthy cell other than a [Date] has a non-empty text. *)
Lemma truthy_toStr_nonempty (v : JsValue) :
  truthy v = true -> (forall t, v <> JDate t) -> toStr v <> "".
Proof.
  destruct v as [| |[|]|n|s|t]; cbn; intros H Hd; try discriminate.
  - apply ofZ_nonempty.
  - intros ->. discriminate.
  - now elim (Hd t).
Qed.

(** Every record of a loaded dataset is what [processRow] returned for a
    complete row. *)
Lemma loaded_record_origin (parsed : Papa.ParseResult) (st st' : State)
    (r : WorkItem) :
  processCSV parsed st = (Returned tt, st') ->
  In r (data st') ->
  exists row, In row (validRows parsed) /\ processRow row = Returned r.
Proof.
  intros H Hr. apply processCSV_returned in H.
  destruct H as (mapped & _ & _ & Hm & ->). cbn [loaded data] in Hr.
  apply (proj1 (sortBy_In timestamp r mapped)) in Hr.
  apply mapThrowing_returned in Hm.
  clear - Hm Hr. induction Hm as [|row r' rows rs Hrow _ IH].
  - now apply in_nil in Hr.
  - apply in_inv in Hr. destruct Hr as [->|Hr].
    + exists row. split; [now left | exact Hrow].
    + destruct (IH Hr) as (row' & Hin & Hp). exists row'.
      split; [now right | exact Hp].
Qed.

(** C10: a row survives the completeness filter exactly when its four
    required cells are truthy after dynamic typing.  A required cell that
    was coerced to the number 0 or to [false] drops the row although its text
    ("0", "false") is not empty, while string cells pass as soon as they are
    non-empty, be they all white space. *)
Theorem C10_survival_follows_truthiness (parsed : Papa.ParseResult) :
  (forall row,
      In row (validRows parsed)
      <-> In row (Papa.data parsed) /\
          truthy (prop row "ID") = true /\
          truthy (prop row "Tipo de Item") = true /\
          truthy (prop row "Commited Date") = true /\
          truthy (prop row "Closed Date") = true) /\
  (forall row key,
      In key requiredColumns ->
      prop row key = JNumber 0 \/ prop row key = JBool false ->
      toStr (prop row key) <> "" /\ ~ In row (validRows parsed)) /\
  (forall row,
      In row (Papa.data parsed) ->
      (forall key, In key requiredColumns ->
                   exists s, prop row key = JString s /\ s <> "") ->
      In row (validRows parsed)) /\
  (forall row white,
      In row (Papa.data parsed) ->
      prop row "ID" = JString white ->
      white <> "" -> JsString.trim white = "" ->
      truthy (prop row "Tipo de Item") = true ->
      truthy (prop row "Commited Date") = true ->
      truthy (prop row "Closed Date") = true ->
      In row (validRows parsed)).
Proof.
  split; [|split; [|split]].
  - intros row. rewrite validRows_In, rowComplete_true. tauto.
  - intros row key Hk Hv. split.
    + destruct Hv as [-> | ->]; cbn [toStr];
        [apply ofZ_nonempty | discriminate].
    + rewrite validRows_In. intros [_ Hc].
      pose proof (rowComplete_required row key Hk Hc) as Ht.
      destruct Hv as [E|E]; rewrite E in Ht; discriminate.
  - intros row Hin Hs. apply validRows_In. split; [exact Hin|].
    apply rowComplete_true.
    assert (T : forall key, In key requiredColumns ->
                            truthy (prop row key) = true).
    { intros key Hk. destruct (Hs key Hk) as (s & -> & Hne). cbn.
      destruct (String.eqb_spec s ""); [contradiction | reflexivity]. }
    repeat split; apply T; cbn; tauto.
  - intros row white Hin Hid Hne _ H2 H3 H4.
    apply validRows_In. split; [exact Hin|]. apply rowComplete_true.
    repeat split; try assumption. rewrite Hid. cbn.
    destruct (String.eqb_spec white ""); [contradiction | reflexivity].
Qed.

End Rows.

(** ** Lead time (lines 595-597) *)

Lemma msPerDay_pos : 0 < msPerDay.
Proof. reflexivity. Qed.

Lemma time_split (t : Z) :
  t = msPerDay * dayNumber t + timeOfDay t /\ 0 <= timeOfDay t < msPerDay.
Proof.
  unfold dayNumber, timeOfDay. split.
  - apply Z.div_mod. pose proof msPerDay_pos. lia.
  - apply Z.mod_pos_bound, msPerDay_pos.
Qed.

(** *** Rounding *)

Lemma nearestInteger_bounds (p q : Z) :
  0 < q ->
  2 * p - q <= 2 * q * Number.nearestInteger p q <= 2 * p + q.
Proof.
  intros Hq. unfold Number.nearestInteger.
  pose proof (Z.div_mod p q ltac:(lia)) as D.
  pose proof (Z.mod_pos_bound p q Hq) as B.
  destruct (Z.compare_spec (2 * (p mod q)) q) as [E|L|G];
    [destruct (Z.even (p / q))| |]; nia.
Qed.

Lemma nearestInteger_nonneg (p q : Z) :
  0 <= p -> 0 < q -> 0 <= Number.nearestInteger p q.
Proof.
  intros Hp Hq. pose proof (nearestInteger_bounds p q Hq). nia.
Qed.

Lemma nearestInteger_one (p : Z) : Number.nearestInteger p 1 = p.
Proof.
  unfold Number.nearestInteger. rewrite Z.mod_1_r, Z.div_1_r. reflexivity.
Qed.

Lemma pow2_pos (e : Z) : 0 <= e -> 0 < 2 ^ e.
Proof. intros H. apply Z.pow_pos_nonneg; lia. Qed.

Lemma nearest_nonneg (p q : Z) :
  0 < p -> 0 < q ->
  0 <= fst (Number.nearest p q) /\ 0 < snd (Number.nearest p q).
Proof.
  intros Hp Hq. unfold Number.nearest, Number.scale.
  destruct (Z.leb_spec 0 (Number.exponent p q - 52)) as [He|He];
    cbn [fst snd].
  - pose proof (pow2_pos _ He).
    pose proof (nearestInteger_nonneg p (q * 2 ^ (Number.exponent p q - 52))
                  ltac:(lia) ltac:(nia)).
    split; [nia | lia].
  - pose proof (pow2_pos (- (Number.exponent p q - 52)) ltac:(lia)).
    split; [apply nearestInteger_nonneg; nia | assumption].
Qed.

Lemma round_nonneg (p q : Z) :
  0 <= p -> 0 < q ->
  0 <= fst (Number.round p q) /\ 0 < snd (Number.round p q).
Proof.
  intros Hp Hq. destruct p as [|p|p]; cbn [Number.round].
  - cbn. lia.
  - apply nearest_nonneg; lia.
  - lia.
Qed.

Lemma round_pos (p q : Z) : 0 < p -> Number.round p q = Number.nearest p q.
Proof. destruct p; try lia; reflexivity. Qed.

Lemma exponent_le (p q : Z) : Number.exponent p q <= Z.log2 p - Z.log2 q.
Proof.
  unfold Number.exponent.
  destruct (Number.scale p q (Z.log2 p - Z.log2 q)) as [a b].
  destruct (a <? b); lia.
Qed.

Lemma exponent_integer (d : Z) : 0 < d -> Number.exponent d 1 = Z.log2 d.
Proof.
  intros Hd. unfold Number.exponent, Number.scale.
  change (Z.log2 1) with 0. rewrite Z.sub_0_r.
  pose proof (Z.log2_nonneg d) as L.
  destruct (Z.leb_spec 0 (Z.log2 d)); [|lia].
  pose proof (proj1 (Z.log2_spec d Hd)) as P.
  destruct (Z.ltb_spec d (1 * 2 ^ Z.log2 d)); lia.
Qed.

(** A positive integer below 2^53 is a Number. *)
Lemma nearest_integer (d : Z) :
  0 < d < 2 ^ 53 ->
  Number.nearest d 1 = (d * 2 ^ (52 - Z.log2 d), 2 ^ (52 - Z.log2 d)).
Proof.
  intros [Hd Hb]. unfold Number.nearest.
  rewrite (exponent_integer d Hd).
  assert (L : Z.log2 d < 53) by (apply Z.log2_lt_pow2; lia).
  unfold Number.scale.
  destruct (Z.leb_spec 0 (Z.log2 d - 52)) as [H|H].
  - assert (E : Z.log2 d = 52) by lia. rewrite E. cbn.
    rewrite nearestInteger_one. f_equal.
  - rewrite nearestInteger_one.
    replace (- (Z.log2 d - 52)) with (52 - Z.log2 d) by lia.
    reflexivity.
Qed.

(** The quotient of a positive integer below 2^53 by the length of a day
    rounds to a Number with the same integer part: the quotient is below
    2^27, where two neighbouring Numbers are 2^-26 apart or less, and it
    falls short of the next integer by 1 / 86400000 at least, which is more
    than half of that. *)
Lemma floor_quotient (d s : Z) :
  0 < d < 2 ^ 53 -> (exists k, 0 <= k /\ s = 2 ^ k) ->
  Number.floor (Number.round (d * s) (s * msPerDay)) = d / msPerDay.
Proof.
  intros [Hd Hb] (k & Hk & ->).
  pose proof (pow2_pos k Hk) as Hs. set (s := 2 ^ k) in *.
  pose proof msPerDay_pos as HN.
  assert (Hp : 0 < d * s) by nia.
  rewrite (round_pos _ _ Hp).
  unfold Number.floor, Number.nearest.
  assert (HE : Number.exponent (d * s) (s * msPerDay) <= 26).
  { etransitivity; [apply exponent_le|].
    unfold s. rewrite Z.log2_mul_pow2 by lia.
    rewrite (Z.mul_comm (2 ^ k) msPerDay), Z.log2_mul_pow2
      by (try lia; exact HN).
    change (Z.log2 msPerDay) with 26.
    assert (Z.log2 d < 53) by (apply Z.log2_lt_pow2; lia). lia. }
  set (E := Number.exponent (d * s) (s * msPerDay)) in *.
  unfold Number.scale.
  destruct (Z.leb_spec 0 (E - 52)) as [H|_]; [lia|].
  replace (- (E - 52)) with (52 - E) by lia.
  set (S := 2 ^ (52 - E)).
  assert (HS : 2 ^ 26 <= S) by (apply Z.pow_le_mono_r; lia).
  change (2 ^ 26) with 67108864 in HS.
  cbn [fst snd].
  pose proof (nearestInteger_bounds (d * s * S) (s * msPerDay) ltac:(nia))
    as [Lo Hi].
  set (m := Number.nearestInteger (d * s * S) (s * msPerDay)) in *.
  assert (Lo' : 2 * d * S - msPerDay <= 2 * msPerDay * m).
  { apply (Z.mul_le_mono_pos_l _ _ s Hs). lia. }
  assert (Hi' : 2 * msPerDay * m <= 2 * d * S + msPerDay).
  { apply (Z.mul_le_mono_pos_l _ _ s Hs). lia. }
  clear Lo Hi.
  pose proof (Z.div_mod d msPerDay ltac:(lia)) as D.
  pose proof (Z.mod_pos_bound d msPerDay HN) as R.
  set (k0 := d / msPerDay) in *. set (r := d mod msPerDay) in *.
  change msPerDay with 86400000 in *.
  symmetry. apply (Z.div_unique _ _ _ (m - k0 * S)); nia.
Qed.

(** Below 2^53 ms the lead time is the integer quotient plus 1. *)
Lemma leadTimeOf_exact (closed commited : Z) :
  0 <= closed - commited < 2 ^ 53 ->
  leadTimeOf closed commited = (closed - commited) / msPerDay + 1.
Proof.
  intros [H0 Hb]. unfold leadTimeOf, Number.sub, Number.div. f_equal.
  set (d := closed - commited) in *.
  destruct (Z.eq_dec d 0) as [->|Hne]; [reflexivity|].
  assert (Hd : 0 < d < 2 ^ 53) by lia.
  rewrite (round_pos d 1) by lia.
  rewrite (nearest_integer d Hd). cbn [fst snd].
  apply floor_quotient; [exact Hd|].
  exists (52 - Z.log2 d). split; [|reflexivity].
  assert (Z.log2 d < 53) by (apply Z.log2_lt_pow2; lia). lia.
Qed.

(** From 2^53 ms on it need not be: between the earliest valid time value
    and a closing time 150 000 000 days later less a millisecond, the
    difference is odd and above 2^53, so it rounds to the even neighbour,
    which is the full 150 000 000 days. *)
Lemma leadTimeOf_beyond :
  leadTimeOf 4319999999999999 (-8640000000000000) = 150000001 /\
  (4319999999999999 - -8640000000000000) / msPerDay + 1 = 150000000 /\
  2 ^ 53 < 4319999999999999 - -8640000000000000.
Proof. vm_compute. repeat split. Qed.

(** [leadTimeOf] against the primitive binary64 operations: around whole
    numbers of days on both sides of 2^53 ms and up to the widest span of
    two valid dates, with the closing time the earlier one, and on dates of
    this century. *)
Lemma leadTimeOf_binary64_sample :
  forallb leadTimeAgrees
    (concat
       (map aroundDays
          [0; 1; 2; 365; 36525; 100000000; 104249991; 104249992;
           104249993; 134217727; 134217728; 150000000; 199999999;
           200000000])
     ++ [(4319999999999999, -8640000000000000);
         (-8640000000000000, 8640000000000000);
         (1735689600000, 1735689600001);
         (1735689600000, 1735776000000);
         (1735779600000, 1735772400000);
         (1735862400000, 1735689600000);
         (4102444800000, 946684800000)])
  = true.
Proof. vm_compute. reflexivity. Qed.

(** The quotient of the raw difference is the difference of the calendar
    days only when the closing time of day is not the earlier one; otherwise
    it is one less. *)
Lemma leadTimeOf_by_days (closed commited : Z) :
  0 <= closed - commited < 2 ^ 53 ->
  leadTimeOf closed commited
  = dayNumber closed - dayNumber commited
    + (if timeOfDay commited <=? timeOfDay closed then 1 else 0).
Proof.
  intros Hb. rewrite (leadTimeOf_exact closed commited Hb).
  destruct (time_split closed) as [Ec Bc].
  destruct (time_split commited) as [Em Bm].
  pose proof msPerDay_pos as Hd.
  destruct (Z.leb_spec (timeOfDay commited) (timeOfDay closed)) as [H|H].
  - rewrite <- (Z.div_unique_pos (closed - commited) msPerDay
                  (dayNumber closed - dayNumber commited)
                  (timeOfDay closed - timeOfDay commited)); lia.
  - rewrite <- (Z.div_unique_pos (closed - commited) msPerDay
                  (dayNumber closed - dayNumber commited - 1)
                  (msPerDay + timeOfDay closed - timeOfDay commited)); lia.
Qed.

(** The integer quotient is what the binary64 division and [Math.floor] of
    the source compute: checked around every whole number of days up to
    two years, and around 10^3, 10^4, 10^5 and 10^6 days. *)
Lemma quotientExact_sample :
  forallb quotientExact
    (map Z.of_nat (seq 0 732) ++ [1000; 10000; 100000; 1000000])
  = true.
Proof. vm_compute. reflexivity. Qed.

Lemma leadTimeOf_pos (closed commited : Z) :
  commited <= closed -> 1 <= leadTimeOf closed commited.
Proof.
  intros H. unfold leadTimeOf, Number.floor, Number.div, Number.sub.
  destruct (round_nonneg (closed - commited) 1 ltac:(lia) ltac:(lia))
    as [N1 D1].
  pose proof msPerDay_pos as Hd.
  destruct (round_nonneg (fst (Number.round (closed - commited) 1))
              (snd (Number.round (closed - commited) 1) * msPerDay)
              N1 ltac:(nia)) as [N2 D2].
  pose proof (Z.div_pos _ _ N2 D2). lia.
Qed.

Lemma same_day_order (closed commited : Z) :
  commited <= closed -> dayNumber closed = dayNumber commited ->
  timeOfDay commited <= timeOfDay closed.
Proof.
  intros H E.
  destruct (time_split closed) as [Ec _].
  destruct (time_split commited) as [Em _]. lia.
Qed.

Section Records.

Context {host : Host}.

(** C1 (as the code has it): the lead time of every record of a loaded
    dataset is computed from the two parsed time values as they are: the
    floor of their difference over one day, in Number arithmetic, plus 1;
    nothing truncates the dates to days first.  For dates less than 2^53 ms
    apart it is the floor of the exact quotient plus 1; this equals the
    difference of the calendar days plus 1 when the closing time of day is
    not earlier than the commitment's (so whenever both dates are at
    midnight), and is that difference itself otherwise.  Dates on one
    calendar day, and any two dates less than a day apart, give 1. *)
Theorem C1_lead_time_from_raw_time_values
    (parsed : Papa.ParseResult) (st st' : State) (r : WorkItem) :
  processCSV parsed st = (Returned tt, st') ->
  In r (data st') ->
  (exists row,
      In row (validRows parsed) /\
      newDate (JsString.trim (toStr (prop row "Commited Date")))
        = Some (commitedDate r) /\
      newDate (JsString.trim (toStr (prop row "Closed Date")))
        = Some (closedDate r)) /\
  leadTime r
  = Number.floor
      (Number.div (Number.sub (closedDate r) (commitedDate r)) msPerDay)
    + 1 /\
  (closedDate r - commitedDate r < 2 ^ 53 ->
   leadTime r = (closedDate r - commitedDate r) / msPerDay + 1 /\
   (timeOfDay (commitedDate r) <= timeOfDay (closedDate r) ->
    leadTime r
    = dayNumber (closedDate r) - dayNumber (commitedDate r) + 1) /\
   (timeOfDay (closedDate r) < timeOfDay (commitedDate r) ->
    leadTime r = dayNumber (closedDate r) - dayNumber (commitedDate r))) /\
  (dayNumber (closedDate r) = dayNumber (commitedDate r) -> leadTime r = 1) /\
  (closedDate r - commitedDate r < msPerDay -> leadTime r = 1).
Proof.
  intros H Hr.
  destruct (loaded_record_origin parsed st st' r H Hr) as (row & Hin & Hp).
  apply processRow_returned in Hp.
  destruct Hp as (Hc & Hd & Hle & _ & _ & Hl & _).
  split; [exists row; auto|].
  split; [exact Hl|].
  assert (Hshort : closedDate r - commitedDate r < msPerDay ->
                   leadTime r = 1).
  { intros Hs. rewrite Hl, leadTimeOf_exact.
    - rewrite Z.div_small by lia. reflexivity.
    - change msPerDay with 86400000 in Hs.
      change (2 ^ 53) with 9007199254740992. lia. }
  split; [|split; [|exact Hshort]].
  - intros Hb.
    assert (B : 0 <= closedDate r - commitedDate r < 2 ^ 53) by lia.
    split; [rewrite Hl; now apply leadTimeOf_exact|].
    rewrite Hl, (leadTimeOf_by_days _ _ B).
    split; intros T;
      destruct (Z.leb_spec (timeOfDay (commitedDate r))
                  (timeOfDay (closedDate r))); lia.
  - intros E. apply Hshort.
    destruct (time_split (closedDate r)) as [Ec Bc].
    destruct (time_split (commitedDate r)) as [Em Bm]. lia.
Qed.

(** C5 (as the code has it): the rows handed to normalisation are exactly
    the decoded rows whose four required cells are truthy; the other rows
    have no effect on the outcome, so they never abort an ingestion, which
    returns as soon as the header is complete, some row is complete and
    every complete row normalises; and each record's [id] and [type] are the
    trimmed texts of truthy cells of a surviving row, texts that are
    non-empty before trimming unless the cell is a [Date]; they are empty
    exactly when the text is white space only. *)
Theorem C5_complete_rows_are_the_truthy_rows
    (parsed : Papa.ParseResult) (st : State) :
  (forall row,
      In row (validRows parsed)
      <-> In row (Papa.data parsed) /\
          truthy (prop row "ID") = true /\
          truthy (prop row "Tipo de Item") = true /\
          truthy (prop row "Commited Date") = true /\
          truthy (prop row "Closed Date") = true) /\
  processCSV parsed st
  = processCSV {| Papa.data := List.filter rowComplete (Papa.data parsed);
                  Papa.fields := Papa.fields parsed |} st /\
  (headerComplete parsed ->
   validRows parsed <> [] ->
   List.Forall (returns processRow) (validRows parsed) ->
   exists st', processCSV parsed st = (Returned tt, st')) /\
  (forall st' r,
      processCSV parsed st = (Returned tt, st') ->
      length (data st') = length (validRows parsed) /\
      (In r (data st') ->
       exists row,
         In row (validRows parsed) /\
         id r = JsString.trim (toStr (prop row "ID")) /\
         type r = JsString.trim (toStr (prop row "Tipo de Item")) /\
         truthy (prop row "ID") = true /\
         truthy (prop row "Tipo de Item") = true /\
         ((forall t, prop row "ID" <> JDate t) ->
          toStr (prop row "ID") <> "") /\
         ((forall t, prop row "Tipo de Item" <> JDate t) ->
          toStr (prop row "Tipo de Item") <> "") /\
         (id r = "" <-> Blank (toStr (prop row "ID"))) /\
         (type r = "" <-> Blank (toStr (prop row "Tipo de Item"))))).
Proof.
  split; [|split; [|split]].
  - intros row. rewrite validRows_In, rowComplete_true. tauto.
  - unfold processCSV, headersOf. cbn [Papa.fields].
    rewrite validRows_filtered. now destruct parsed.
  - intros Hh Hv Hall.
    destruct (mapThrowing_all_return processRow _ Hall) as [mapped Hm].
    rewrite processCSV_rows; [| now apply missingColumnsOf_nil | exact Hv].
    rewrite Hm. eauto.
  - intros st' r H. split.
    + apply processCSV_returned in H.
      destruct H as (mapped & _ & _ & Hm & ->). cbn [loaded data].
      rewrite (sortBy_length timestamp).
      eapply mapThrowing_length, Hm.
    + intros Hr.
      destruct (loaded_record_origin parsed st st' r H Hr)
        as (row & Hin & Hp).
      apply processRow_returned in Hp.
      destruct Hp as (_ & _ & _ & Hid & Hty & _).
      pose proof (proj1 (validRows_In _ _) Hin) as [_ Hc].
      apply rowComplete_true in Hc. destruct Hc as (T1 & T2 & _).
      exists row.
      split; [exact Hin|]. split; [exact Hid|]. split; [exact Hty|].
      split; [exact T1|]. split; [exact T2|].
      split; [now apply truthy_toStr_nonempty|].
      split; [now apply truthy_toStr_nonempty|].
      rewrite Hid, Hty. split; apply trim_empty_iff.
Qed.

End Records.

(** ** Failing rows (lines 575-593) and atomicity (lines 619-621) *)

Section Failures.

Context {host : Host}.

Lemma processRow_invalid (row : Row) :
  commitedTime row = None \/ closedTime row = None ->
  processRow row
  = Thrown (invalidDateMessage (idText row) (commitedText row)
              (closedText row)).
Proof.
  unfold commitedTime, closedTime, commitedText, closedText, processRow.
  intros [E|E]; rewrite E; [reflexivity|].
  destruct (newDate (JsString.trim (toStr (prop row "Commited Date"))));
    reflexivity.
Qed.




Lemma validRows_nonempty (parsed : Papa.ParseResult) (row : Row) :
  In row (validRows parsed) -> validRows parsed <> [].
Proof. intros H E. rewrite E in H. exact H. Qed.

(** A surviving row on which the callback throws aborts the run: the first
    such row supplies the message, and no setter has run. *)
Lemma failing_row_aborts (parsed : Papa.ParseResult) (st : State)
    (row : Row) :
  headerComplete parsed ->
  In row (validRows parsed) ->
  throws processRow row ->
  exists m first,
    processCSV parsed st = (Thrown m, st) /\
    In first (validRows parsed) /\ processRow first = Thrown m.
Proof.
  intros Hh Hin Ht.
  destruct (mapThrowing_some_throw processRow _ _ Hin Ht) as [m Hm].
  rewrite processCSV_rows;
    [| now apply missingColumnsOf_nil | eapply validRows_nonempty, Hin].
  rewrite Hm. destruct (mapThrowing_thrown _ _ _ Hm)
    as (l1 & first & l2 & E & _ & Hf).
  exists m, first. repeat split; auto.
  rewrite E. apply in_elt.
Qed.

Lemma first_failing_row_decides (parsed : Papa.ParseResult) (st : State)
    (before after : list Row) (row : Row) (m : string) :
  headerComplete parsed ->
  validRows parsed = before ++ row :: after ->
  List.Forall (returns processRow) before ->
  processRow row = Thrown m ->
  processCSV parsed st = (Thrown m, st).
Proof.
  intros Hh E Hb Hm.
  rewrite processCSV_rows;
    [| now apply missingColumnsOf_nil
     | rewrite E; now destruct before].
  rewrite E. now rewrite (mapThrowing_first_throw processRow before after
                            row m Hb Hm).
Qed.


(** C6 (as the code has it): a surviving row with a date that does not
    parse makes the run throw and leaves the state as it was; when it is the
    first failing row the message is the invalid-date message, which carries
    the row's id, both date cells as read and the expected format
    [YYYY-MM-DD].  The message is the same function of these three texts
    whichever of the two dates failed: it does not say which. *)
Theorem C6_invalid_date_message_echoes_both_cells
    (parsed : Papa.ParseResult) (st : State) :
  headerComplete parsed ->
  (forall row,
      In row (validRows parsed) ->
      commitedTime row = None \/ closedTime row = None ->
      exists m, processCSV parsed st = (Thrown m, st)) /\
  (forall before row after,
      validRows parsed = before ++ row :: after ->
      List.Forall (returns processRow) before ->
      commitedTime row = None \/ closedTime row = None ->
      let message :=
        invalidDateMessage (idText row) (commitedText row) (closedText row)
      in
      processCSV parsed st = (Thrown message, st) /\
      mentions message (idText row) /\
      mentions message (commitedText row) /\
      mentions message (closedText row) /\
      mentions message "YYYY-MM-DD").
Proof.
  intros Hh. split.
  - intros row Hin Hbad.
    assert (Ht : throws processRow row)
      by (eexists; now apply processRow_invalid).
    destruct (failing_row_aborts parsed st row Hh Hin Ht)
      as (m & first & Hrun & _). eauto.
  - intros before row after E Hb Hbad message.
    pose proof (processRow_invalid row Hbad) as Hm.
    split; [eapply first_failing_row_decides; eauto|].
    unfold message, invalidDateMessage.
    repeat split; find_mention.
    change "Use o formato: YYYY-MM-DD (ex: 2025-01-15)"
      with ("Use o formato: " +:+ "YYYY-MM-DD" +:+ " (ex: 2025-01-15)").
    find_mention.
Qed.

(** C7: the loaded dataset is ordered by closing time, holds exactly the
    records of the surviving rows, keeps records with equal closing times
    in the order of their rows, and is the same whatever the state before
    the run; running again on the same input changes nothing. *)
Theorem C7_dataset_sorted_stable_deterministic
    (parsed : Papa.ParseResult) (st st' : State) :
  processCSV parsed st = (Returned tt, st') ->
  StronglySorted (fun a b => closedDate a <= closedDate b) (data st') /\
  (exists mapped,
      Forall2 (fun row r => processRow row = Returned r)
        (validRows parsed) mapped /\
      Permutation (data st') mapped /\
      forall t,
        List.filter (fun r => closedDate r =? t) (data st')
        = List.filter (fun r => closedDate r =? t) mapped) /\
  (forall st2,
      exists st2',
        processCSV parsed st2 = (Returned tt, st2') /\
        data st2' = data st') /\
  processCSV parsed st' = (Returned tt, st').
Proof.
  intros H. apply processCSV_returned in H.
  destruct H as (mapped & Hh & Hv & Hm & ->).
  pose proof (mapThrowing_returned _ _ _ Hm) as F.
  assert (T : List.Forall (fun r => timestamp r = closedDate r) mapped).
  { clear - F. induction F as [|row r rows rs Hr _ IH]; constructor; auto.
    apply processRow_returned in Hr. tauto. }
  cbn [loaded data]. split; [|split; [|split]].
  - pose proof (sortBy_sorted timestamp mapped) as S.
    assert (T' : List.Forall (fun r => timestamp r = closedDate r)
                   (sortBy byTimestamp mapped)).
    { eapply Permutation_Forall; [symmetry; apply (sortBy_perm timestamp)|].
      exact T. }
    change (sortBy byTimestamp mapped)
      with (sortBy (fun a b => timestamp a - timestamp b) mapped) in T'.
    change (sortBy byTimestamp mapped)
      with (sortBy (fun a b => timestamp a - timestamp b) mapped).
    revert S T'. generalize (sortBy (fun a b => timestamp a - timestamp b)
                               mapped).
    intros l S. induction S as [|x l S IH Hx]; intros T'; constructor.
    + apply IH. now inversion T'.
    + inversion T' as [|? ? Ex Tl]; subst.
      rewrite List.Forall_forall in *. intros y Hy.
      specialize (Hx y Hy). specialize (Tl y Hy). unfold keyLe in Hx. lia.
  - exists mapped. split; [exact F|].
    split; [apply (sortBy_perm timestamp)|].
    intros t.
    assert (K : forall l, List.Forall (fun r => timestamp r = closedDate r) l ->
                List.filter (fun r => closedDate r =? t) l
                = List.filter (fun r => timestamp r =? t) l).
    { induction 1 as [|x l Ex _ IH]; [reflexivity|].
      cbn [List.filter]. now rewrite Ex, IH. }
    rewrite (K mapped T).
    rewrite K
      by (eapply Permutation_Forall;
          [symmetry; apply (sortBy_perm timestamp) | exact T]).
    apply (sortBy_stable timestamp).
  - intros st2. exists (loaded st2 (sortBy byTimestamp mapped)).
    split; [|reflexivity].
    rewrite processCSV_rows by assumption. now rewrite Hm.
  - rewrite processCSV_rows by assumption. now rewrite Hm.
Qed.

End Failures.

(** ** Records over the life of the component *)

Section Lifetime.

Context {host : Host} (papaParse : string -> Papa.ParseResult).

Lemma loaded_records_ok (parsed : Papa.ParseResult) (st st' : State) :
  processCSV parsed st = (Returned tt, st') ->
  List.Forall recordOk (data st').
Proof.
  intros H. apply List.Forall_forall. intros r Hr.
  destruct (loaded_record_origin parsed st st' r H Hr) as (row & _ & Hp).
  apply processRow_returned in Hp.
  destruct Hp as (_ & _ & Hle & _ & _ & Hl & _).
  split; [exact Hle|]. rewrite Hl. now apply leadTimeOf_pos.
Qed.

(** The body shared by the two ingestion paths. *)
Lemma ingest_then (parsed : Papa.ParseResult) (k : Eff unit) (st : State) :
  (forall s, data (snd (k s)) = data s) ->
  let out := (processCSV parsed ;; k) st in
  (exists m, fst out = Thrown m /\ snd out = st) \/
  (exists st1,
      processCSV parsed st = (Returned tt, st1) /\
      data (snd out) = data st1).
Proof.
  intros Hk out. subst out. unfold bind.
  destruct (processCSV_run parsed st) as [| | |mapped Hm Hv E].
  - left. eauto.
  - left. eauto.
  - left. eauto.
  - right. eexists. split; [reflexivity|]. apply Hk.
Qed.

Lemma handleFileUpload_data (file : option File) (st : State) :
  DataAfter st (data (snd (handleFileUpload papaParse file st))).
Proof.
  destruct file as [f|]; [|now apply DataKept].
  unfold handleFileUpload, tryCatchFinally.
  destruct (negb _).
  - now apply DataKept.
  - unfold bind at 1 2 3. cbn [setLoading setError setFileName].
    match goal with
    | |- context [ (processCSV ?p ;; ?k) ?s ] =>
        destruct (ingest_then p k s) as [(m & Hf & Hs) | (st1 & Hrun & Hd)];
          [ intros ?; reflexivity | | ]
    end.
    + destruct (bind _ _ _) as [[u|m'] s']; cbn in Hf, Hs;
        [discriminate|]. subst s'. now apply DataKept.
    + destruct (bind _ _ _) as [[u|m'] s']; cbn in Hd.
      * eapply DataLoaded; [exact Hrun | exact Hd].
      * eapply DataLoaded; [exact Hrun | exact Hd].
Qed.

Lemma tryAutoLoad_data (content : option string) (st : State) :
  DataAfter st (data (snd (tryAutoLoad papaParse content st))).
Proof.
  destruct content as [csv|]; [|now apply DataKept].
  unfold tryAutoLoad, tryCatchFinally.
  unfold bind at 1. cbn [setFileName].
  match goal with
  | |- context [ (processCSV ?p ;; ?k) ?s ] =>
      destruct (ingest_then p k s) as [(m & Hf & Hs) | (st1 & Hrun & Hd)];
        [ intros ?; reflexivity | | ]
  end.
  - destruct (bind _ _ _) as [[u|m'] s']; cbn in Hf, Hs;
      [discriminate|]. subst s'. now apply DataKept.
  - destruct (bind _ _ _) as [[u|m'] s']; cbn in Hd.
    + eapply DataLoaded; [exact Hrun | exact Hd].
    + eapply DataLoaded; [exact Hrun | exact Hd].
Qed.

Lemma handle_data (e : Event) (st : State) :
  DataAfter st (data (snd (handle papaParse e st))).
Proof.
  destruct e; cbn [handle].
  - apply tryAutoLoad_data.
  - apply handleFileUpload_data.
  - now apply DataKept.
  - now apply DataKept.
  - now apply DataKept.
  - now apply DataCleared.
Qed.

(** The two parts of [handleFileUpload], one after the other, are the
    handler. *)
Lemma handleFileUpload_halves (file : File) (st : State) :
  handleFileUpload papaParse (Some file) st
  = if JsString.endsWith (JsString.toLowerCase (name file)) ".csv"
    then handleFileUploadResume papaParse file
           (snd (handleFileUploadStart file st))
    else handleFileUploadStart file st.
Proof.
  unfold handleFileUpload, handleFileUploadStart, handleFileUploadResume,
    tryCatchFinally.
  destruct (JsString.endsWith _ _); cbn [negb]; [|reflexivity].
  unfold bind. cbn [setLoading setError setFileName snd].
  match goal with
  | |- context [ processCSV ?p ?s ] =>
      destruct (processCSV p s) as [[u|m] s1]
  end; reflexivity.
Qed.

Lemma handleFileUploadStart_data (file : File) (st : State) :
  data (snd (handleFileUploadStart file st)) = data st.
Proof.
  unfold handleFileUploadStart.
  destruct (JsString.endsWith _ _); reflexivity.
Qed.

Lemma handleFileUploadResume_data (file : File) (st : State) :
  DataAfter st (data (snd (handleFileUploadResume papaParse file st))).
Proof.
  unfold handleFileUploadResume, tryCatchFinally.
  match goal with
  | |- context [ (processCSV ?p ;; ?k) ?s ] =>
      destruct (ingest_then p k s) as [(m & Hf & Hs) | (st1 & Hrun & Hd)];
        [ intros ?; reflexivity | | ]
  end.
  - destruct (bind _ _ _) as [[u|m'] s']; cbn in Hf, Hs;
      [discriminate|]. subst s'. now apply DataKept.
  - destruct (bind _ _ _) as [[u|m'] s']; cbn in Hd.
    + eapply DataLoaded; [exact Hrun | exact Hd].
    + eapply DataLoaded; [exact Hrun | exact Hd].
Qed.

(** A handler that runs in one piece is a step, and so is the upload
    handler when nothing happens while the file is read. *)
Lemma running_handle (reading : list File) (st : State) (e : Event) :
  Running papaParse reading st ->
  Running papaParse reading (snd (handle papaParse e st)).
Proof.
  intros R.
  assert (Q : (forall file, e <> FileChosen (Some file))
              \/ exists file, e = FileChosen (Some file)).
  { destruct e as [c|[f|]|t| | |]; try (left; discriminate).
    right. now exists f. }
  destruct Q as [Q|[file ->]]; [now apply RunningHandled|].
  cbn [handle]. rewrite handleFileUpload_halves.
  pose proof (RunningChosen papaParse reading st file R) as C.
  destruct (JsString.endsWith _ _); [|exact C].
  exact (RunningRead papaParse [] file reading _ C).
Qed.

Lemma reachable_initial : Reachable papaParse initialState.
Proof. exists []. constructor. Qed.

Lemma reachable_handle (st : State) (e : Event) :
  Reachable papaParse st ->
  Reachable papaParse (snd (handle papaParse e st)).
Proof. intros [reading R]. exists reading. now apply running_handle. Qed.

(** C8: every record of a dataset that [processCSV] installed closes no
    earlier than it was committed and has a lead time of at least 1; no
    handler of the component alters a record: each leaves the dataset as it
    is, empties it, or installs the result of a fresh run; so the two bounds
    hold of every record in every reachable state. *)
Theorem C8_records_stay_valid :
  (forall parsed st st',
      processCSV parsed st = (Returned tt, st') ->
      List.Forall recordOk (data st')) /\
  (forall e st, DataAfter st (data (snd (handle papaParse e st)))) /\
  (forall st, Reachable papaParse st -> List.Forall recordOk (data st)).
Proof.
  split; [exact loaded_records_ok|]. split; [exact handle_data|].
  intros st [reading R].
  induction R as [|reading st e _ _ IH|reading st file _ IH
                  |before file after st _ IH].
  - constructor.
  - destruct (handle_data e st) as [E|E|parsed st0 st1 Hrun E]; rewrite E.
    + exact IH.
    + constructor.
    + eapply loaded_records_ok, Hrun.
  - now rewrite handleFileUploadStart_data.
  - destruct (handleFileUploadResume_data file st)
      as [E|E|parsed st0 st1 Hrun E]; rewrite E.
    + exact IH.
    + constructor.
    + eapply loaded_records_ok, Hrun.
Qed.

(** Atomicity seen from the upload handler: after it has run, the three
    cells are those of before, or all three are those a returning run of
    [processCSV] installed. *)
Lemma handleFileUpload_atomic (file : option File) (st : State) :
  let st' := snd (handleFileUpload papaParse file st) in
  (dataset st' = dataset st) \/
  (exists parsed st0 st1,
      processCSV parsed st0 = (Returned tt, st1) /\
      dataset st' = dataset st1 /\ error st' = None).
Proof.
  cbv zeta. destruct file as [f|]; [|left; reflexivity].
  unfold handleFileUpload, tryCatchFinally.
  destruct (negb _); [left; reflexivity|].
  unfold bind. cbn [setLoading setError setFileName].
  match goal with
  | |- context [ processCSV ?p ?s ] =>
      pose proof (processCSV_run p s) as R;
        destruct (processCSV p s) as [[u|m] s1] eqn:E
  end.
  - right. inversion R; subst. do 3 eexists.
    split; [exact E|]. split; reflexivity.
  - left. inversion R; subst; reflexivity.
Qed.

End Lifetime.

(** ** Percentiles (lines 651-658) *)

(** The two indices are the exact floors for every length up to 4096
    (by evaluation). *)
Lemma indexExact_upto : forallb indexExact (seq 0 4097) = true.
Proof. vm_compute. reflexivity. Qed.

Lemma floor_index_exact (n : nat) :
  (n <= 4096)%nat ->
  Math_floor (numberOfNat n * 0.85)%float = Some (Z.of_nat n * 85 / 100) /\
  Math_floor (numberOfNat n * 0.95)%float = Some (Z.of_nat n * 95 / 100).
Proof.
  intros H. pose proof indexExact_upto as E.
  rewrite forallb_forall in E.
  assert (Hn : In n (seq 0 4097)) by (apply in_seq; lia).
  specialize (E n Hn). unfold indexExact in E.
  destruct (Math_floor (numberOfNat n * 0.85)%float) as [a|]; [|discriminate].
  destruct (Math_floor (numberOfNat n * 0.95)%float) as [b|]; [|discriminate].
  apply andb_true_iff in E. destruct E as [Ea Eb].
  apply Z.eqb_eq in Ea, Eb. now subst.
Qed.

Lemma filteredLeadTimes_perm (st : State) :
  Permutation (filteredLeadTimes st) (map leadTime (filteredData st)).
Proof. apply (sortBy_perm (fun a : Z => a)). Qed.

Lemma filteredLeadTimes_sorted (st : State) :
  StronglySorted Z.le (filteredLeadTimes st).
Proof. apply (sortBy_sorted (fun a : Z => a)). Qed.

Lemma filteredLeadTimes_length (st : State) :
  length (filteredLeadTimes st) = length (filteredData st).
Proof.
  unfold filteredLeadTimes.
  rewrite (sortBy_length (fun a : Z => a)). apply length_map.
Qed.

Lemma elementAt_in_range (l : list Z) (i : Z) :
  0 <= i < Z.of_nat (length l) ->
  exists v, l !! Z.to_nat i = Some v /\ elementAt l (Some i) = Some v.
Proof.
  intros H. unfold elementAt.
  destruct (Z.ltb_spec i 0); [lia|].
  destruct (lookup_lt_is_Some_2 l (Z.to_nat i)) as [v Hv]; [lia|].
  exists v. now rewrite Hv.
Qed.

(** C2: the filtered lead times are sorted ascending (and are a
    rearrangement of the lead times of the records whose type filter is on);
    P85 and P95 are the elements of that sorted array at the indices
    [Math.floor (n * 0.85)] and [Math.floor (n * 0.95)], read directly, and
    both are 0 when no record passes the filter.  Up to 4096 records the
    indices are the exact floors of 85 n / 100 and 95 n / 100 and always
    fall inside the array.  On the sorted lead times 1..10 the indices are
    8 and 9 and the values 9 and 10. *)
Theorem C2_percentiles_by_rank_index (st : State) :
  let sorted := filteredLeadTimes st in
  let n := length (filteredData st) in
  Permutation sorted (map leadTime (filteredData st)) /\
  StronglySorted Z.le sorted /\
  length sorted = n /\
  p85Value st
  = (if (0 <? n)%nat
     then elementAt sorted (Math_floor (numberOfNat n * 0.85)%float)
     else Some 0) /\
  p95Value st
  = (if (0 <? n)%nat
     then elementAt sorted (Math_floor (numberOfNat n * 0.95)%float)
     else Some 0) /\
  ((0 < n <= 4096)%nat ->
   exists v85 v95,
     sorted !! Z.to_nat (Z.of_nat n * 85 / 100) = Some v85 /\
     sorted !! Z.to_nat (Z.of_nat n * 95 / 100) = Some v95 /\
     p85Value st = Some v85 /\ p95Value st = Some v95) /\
  (sorted = [1; 2; 3; 4; 5; 6; 7; 8; 9; 10] ->
   p85Index st = Some 8 /\ p85Value st = Some 9 /\
   p95Index st = Some 9 /\ p95Value st = Some 10).
Proof.
  intros sorted n.
  pose proof (filteredLeadTimes_length st) as L. fold sorted n in L.
  split; [apply filteredLeadTimes_perm|].
  split; [apply filteredLeadTimes_sorted|].
  split; [exact L|].
  unfold p85Value, p95Value, p85Index, p95Index, lengthNumber.
  fold sorted. rewrite L.
  split; [reflexivity|]. split; [reflexivity|]. split.
  - intros [Hpos Hmax].
    destruct (floor_index_exact n Hmax) as [E85 E95]. rewrite E85, E95.
    destruct (Nat.ltb_spec 0 n) as [_|]; [|lia].
    destruct (elementAt_in_range sorted (Z.of_nat n * 85 / 100))
      as (v85 & H85 & V85).
    { rewrite L. split; [apply Z.div_pos; lia|].
      apply Z.div_lt_upper_bound; lia. }
    destruct (elementAt_in_range sorted (Z.of_nat n * 95 / 100))
      as (v95 & H95 & V95).
    { rewrite L. split; [apply Z.div_pos; lia|].
      apply Z.div_lt_upper_bound; lia. }
    exists v85, v95. auto.
  - intros E. rewrite E in L. cbn in L. subst n. rewrite <- L, E.
    vm_compute. auto.
Qed.

(** ** The type list and the initial filters (lines 610-617) *)

Lemma distinctFrom_In (seen l : list string) (x : string) :
  In x (distinctFrom seen l) <-> In x l /\ ~ In x seen.
Proof.
  revert seen. induction l as [|y l IH]; intros seen; cbn [distinctFrom].
  - cbn. tauto.
  - destruct (JsString.includes seen y) eqn:E.
    + apply includes_In in E. rewrite IH. cbn. intuition congruence.
    + assert (Hy : ~ In y seen)
        by (intros H; apply includes_In in H; congruence).
      cbn [In]. rewrite IH. cbn [In].
      destruct (string_dec y x) as [->|Hne]; intuition congruence.
Qed.

Lemma distinctFrom_NoDup (seen l : list string) :
  List.NoDup (distinctFrom seen l).
Proof.
  revert seen. induction l as [|y l IH]; intros seen; cbn [distinctFrom].
  - constructor.
  - destruct (JsString.includes seen y); [apply IH|].
    constructor; [|apply IH].
    rewrite distinctFrom_In. cbn. tauto.
Qed.

Lemma includes_ext (s1 s2 : list string) (x : string) :
  (forall y, In y s1 <-> In y s2) ->
  JsString.includes s1 x = JsString.includes s2 x.
Proof.
  intros H. destruct (JsString.includes s1 x) eqn:E1;
    destruct (JsString.includes s2 x) eqn:E2; auto.
  - apply includes_In, H, includes_In in E1. congruence.
  - apply includes_In, H, includes_In in E2. congruence.
Qed.

Lemma distinctFrom_ext (s1 s2 l : list string) :
  (forall y, In y s1 <-> In y s2) ->
  distinctFrom s1 l = distinctFrom s2 l.
Proof.
  revert s1 s2. induction l as [|x l IH]; intros s1 s2 H; [reflexivity|].
  cbn [distinctFrom]. rewrite (includes_ext s1 s2 x H).
  destruct (JsString.includes s2 x); [now apply IH|].
  f_equal. apply IH. intros y. cbn. rewrite H. tauto.
Qed.

Lemma distinctFrom_app (seen a b : list string) :
  distinctFrom seen (a ++ b)
  = distinctFrom seen a ++ distinctFrom (a ++ seen) b.
Proof.
  revert seen. induction a as [|x a IH]; intros seen; [reflexivity|].
  cbn [app distinctFrom].
  destruct (JsString.includes seen x) eqn:E.
  - rewrite IH. f_equal. apply distinctFrom_ext.
    apply includes_In in E. intros y. cbn. rewrite !in_app_iff.
    intuition congruence.
  - cbn [app]. f_equal. rewrite IH. f_equal. apply distinctFrom_ext.
    intros y. cbn. rewrite !in_app_iff. cbn. tauto.
Qed.

(** A value takes, in the list of distinct values, the place that counts
    the distinct values met before its first occurrence. *)
Lemma distinct_first_occurrence (before after : list string) (x : string) :
  ~ In x before ->
  distinct (before ++ x :: after) !! length (distinct before) = Some x.
Proof.
  intros H. unfold distinct. rewrite distinctFrom_app.
  rewrite lookup_app_r by lia. rewrite Nat.sub_diag.
  cbn [distinctFrom].
  replace (JsString.includes (before ++ []) x) with false; [reflexivity|].
  symmetry. destruct (JsString.includes (before ++ []) x) eqn:E; auto.
  apply includes_In in E. rewrite app_nil_r in E. contradiction.
Qed.

Lemma foldl_assignTrue_other (l : list string) (m : gmap string bool)
    (k : string) :
  ~ In k l \/ k = "__proto__" -> foldl assignTrue m l !! k = m !! k.
Proof.
  revert m. induction l as [|x l IH]; intros m H; cbn [foldl]; [reflexivity|].
  rewrite IH by (cbn in H; tauto). unfold assignTrue.
  destruct (String.eqb_spec x "__proto__") as [->|Hx]; [reflexivity|].
  apply lookup_insert_ne. cbn in H. intuition congruence.
Qed.

Lemma foldl_assignTrue_assigned (l : list string) (m : gmap string bool)
    (k : string) :
  In k l -> k <> "__proto__" -> foldl assignTrue m l !! k = Some true.
Proof.
  revert m. induction l as [|x l IH]; intros m H Hk; [destruct H|].
  cbn [foldl]. destruct (in_dec string_dec k l) as [Hin|Hnot].
  - now apply IH.
  - destruct H as [->|H]; [|contradiction].
    rewrite foldl_assignTrue_other by tauto. unfold assignTrue.
    destruct (String.eqb_spec k "__proto__"); [contradiction|].
    apply lookup_insert_eq.
Qed.

(** Every key the loop assigned reads as on, ["__proto__"] included: the
    assignment is lost, but the inherited member is truthy. *)
Lemma filterOn_initialFilters (l : list string) (k : string) :
  In k l -> filterOn (foldl assignTrue ∅ l) k = true.
Proof.
  intros H. unfold filterOn.
  destruct (string_dec k "__proto__") as [->|Hne].
  - rewrite foldl_assignTrue_other by tauto. reflexivity.
  - now rewrite foldl_assignTrue_assigned.
Qed.

Lemma initialFilters_own (l : list string) (k : string) (b : bool) :
  foldl assignTrue ∅ l !! k = Some b -> b = true /\ In k l.
Proof.
  intros H. destruct (in_dec string_dec k l) as [Hin|Hnot].
  - destruct (string_dec k "__proto__") as [->|Hne].
    + rewrite foldl_assignTrue_other in H by tauto. discriminate.
    + rewrite foldl_assignTrue_assigned in H by assumption.
      split; [congruence | exact Hin].
  - rewrite foldl_assignTrue_other in H by tauto. discriminate.
Qed.

(** *** After a run that returned *)

Lemma filter_all_true {X} (f : X -> bool) (l : list X) :
  (forall x, In x l -> f x = true) -> List.filter f l = l.
Proof.
  induction l as [|x l IH]; intros H; [reflexivity|].
  cbn [List.filter]. rewrite (H x) by now left.
  f_equal. apply IH. intros y Hy. apply H. now right.
Qed.

Section TypeList.

Context {host : Host}.

(** X1: after a run of [processCSV] that returned, the type list holds
    each type of the dataset once and no other; the place of a type in it
    is the number of distinct types that occur in the dataset before the
    first record of that type. *)
Theorem X1_type_list_in_first_seen_order
    (parsed : Papa.ParseResult) (st st' : State) :
  processCSV parsed st = (Returned tt, st') ->
  List.NoDup (itemTypes st') /\
  (forall t, In t (itemTypes st') <-> exists r, In r (data st') /\ type r = t)
  /\
  (forall before r after,
      data st' = before ++ r :: after ->
      (forall r', In r' before -> type r' <> type r) ->
      itemTypes st' !! length (distinct (map type before)) = Some (type r)).
Proof.
  intros H. apply processCSV_returned in H.
  destruct H as (mapped & _ & _ & _ & ->). cbn [loaded itemTypes data].
  split; [apply distinctFrom_NoDup|]. split.
  - intros t. unfold distinct. rewrite distinctFrom_In, in_map_iff.
    cbn. split.
    + intros [(r & E & Hr) _]. eauto.
    + intros (r & Hr & E). split; [eauto | tauto].
  - intros before r after E Hfresh. rewrite E, map_app. cbn [map].
    apply distinct_first_occurrence.
    rewrite in_map_iff. intros (r' & E' & Hr'). now apply (Hfresh r').
Qed.

(** X2: after a run that returned every filter is on: each record of the
    dataset passes its type's filter (a type named ["__proto__"] too), so
    the filtered data is the whole dataset; and the filter object owns no
    key but types of the new dataset, each with the value true. *)
Theorem X2_all_filters_on_after_load
    (parsed : Papa.ParseResult) (st st' : State) :
  processCSV parsed st = (Returned tt, st') ->
  (forall r, In r (data st') -> filterOn (typeFilters st') (type r) = true) /\
  filteredData st' = data st' /\
  (forall k b,
      typeFilters st' !! k = Some b -> b = true /\ In k (itemTypes st')).
Proof.
  intros H. apply processCSV_returned in H.
  destruct H as (mapped & _ & _ & _ & ->).
  assert (A : forall r, In r (data (loaded st (sortBy byTimestamp mapped))) ->
              filterOn (typeFilters (loaded st (sortBy byTimestamp mapped)))
                (type r) = true).
  { intros r Hr. cbn [loaded typeFilters data] in *.
    apply filterOn_initialFilters. unfold distinct.
    rewrite distinctFrom_In. split; [|cbn; tauto].
    apply in_map_iff. eauto. }
  split; [exact A|]. split.
  - unfold filteredData. now apply filter_all_true.
  - intros k b. cbn [loaded typeFilters itemTypes]. apply initialFilters_own.
Qed.

End TypeList.

(** ** Switching a type (lines 669-674) *)

Lemma filterOn_insert (tf : gmap string bool) (key k : string) (b : bool) :
  filterOn (<[key := b]> tf) k
  = if String.eqb k key then b else filterOn tf k.
Proof.
  unfold filterOn. destruct (String.eqb_spec k key) as [->|Hne].
  - now rewrite lookup_insert_eq.
  - now rewrite lookup_insert_ne by congruence.
Qed.

Lemma filter_ext_in {X} (f g : X -> bool) (l : list X) :
  (forall x, In x l -> f x = g x) -> List.filter f l = List.filter g l.
Proof.
  induction l as [|x l IH]; intros H; [reflexivity|].
  cbn [List.filter]. rewrite (H x) by now left.
  rewrite IH; [reflexivity|]. intros y Hy. apply H. now right.
Qed.

Lemma filter_filter {X} (f g : X -> bool) (l : list X) :
  List.filter f (List.filter g l) = List.filter (fun x => g x && f x) l.
Proof.
  induction l as [|x l IH]; [reflexivity|].
  cbn [List.filter]. destruct (g x); cbn [List.filter andb]; rewrite IH;
    reflexivity.
Qed.

Lemma filteredData_toggled (typeName : string) (st : State) :
  filteredData (snd (toggleTypeFilter typeName st))
  = List.filter
      (fun item =>
         if String.eqb (type item) typeName
         then negb (filterOn (typeFilters st) typeName)
         else filterOn (typeFilters st) (type item))
      (data st).
Proof.
  unfold filteredData. cbn. apply filter_ext_in. intros x _.
  apply filterOn_insert.
Qed.

(** X3: a click on a type inverts that type's filter and no other, and
    leaves the dataset and the type list alone; a second click on the same
    type brings back every filter reading, hence the same filtered data and
    the same percentiles. *)
Theorem X3_type_click_inverts_one_filter (typeName : string) (st : State) :
  let st1 := snd (toggleTypeFilter typeName st) in
  let st2 := snd (toggleTypeFilter typeName st1) in
  filterOn (typeFilters st1) typeName
  = negb (filterOn (typeFilters st) typeName) /\
  (forall k, k <> typeName ->
             filterOn (typeFilters st1) k = filterOn (typeFilters st) k) /\
  data st1 = data st /\ itemTypes st1 = itemTypes st /\
  (forall k, filterOn (typeFilters st2) k = filterOn (typeFilters st) k) /\
  filteredData st2 = filteredData st /\
  p85Value st2 = p85Value st /\ p95Value st2 = p95Value st.
Proof.
  intros st1 st2.
  assert (R : forall k, filterOn (typeFilters st2) k
                        = filterOn (typeFilters st) k).
  { intros k. subst st2 st1. cbn. rewrite !filterOn_insert.
    rewrite String.eqb_refl, negb_involutive.
    destruct (String.eqb_spec k typeName) as [->|]; reflexivity. }
  assert (F : filteredData st2 = filteredData st).
  { unfold filteredData. replace (data st2) with (data st) by reflexivity.
    apply filter_ext_in. intros x _. apply R. }
  split; [subst st1; cbn; rewrite filterOn_insert;
          now rewrite String.eqb_refl|].
  split.
  { intros k Hk. subst st1. cbn. rewrite filterOn_insert.
    destruct (String.eqb_spec k typeName); [contradiction | reflexivity]. }
  split; [reflexivity|]. split; [reflexivity|]. split; [exact R|].
  split; [exact F|].
  unfold p85Value, p95Value, p85Index, p95Index, filteredLeadTimes.
  rewrite F. split; reflexivity.
Qed.

(** X4: switching off a type that is on removes from the filtered data
    the records of that type and nothing else, keeping the order; switching
    on a type that is off puts exactly its records back.  The records of
    the type in the dataset, which the button counts, stay as they are. *)
Theorem X4_type_click_moves_only_that_type (typeName : string) (st : State) :
  let st1 := snd (toggleTypeFilter typeName st) in
  typeData st1 typeName = typeData st typeName /\
  (filterOn (typeFilters st) typeName = true ->
   filteredData st1
   = List.filter (fun item => negb (String.eqb (type item) typeName))
       (filteredData st)) /\
  (filterOn (typeFilters st) typeName = false ->
   List.filter (fun item => negb (String.eqb (type item) typeName))
     (filteredData st1) = filteredData st /\
   List.filter (fun item => String.eqb (type item) typeName)
     (filteredData st1) = typeData st typeName).
Proof.
  intros st1. split; [reflexivity|]. subst st1.
  rewrite filteredData_toggled. unfold filteredData, typeData. split.
  - intros On. rewrite On, filter_filter. apply filter_ext_in.
    intros x _. destruct (String.eqb_spec (type x) typeName) as [E|E].
    + now rewrite E, On.
    + cbn. now rewrite andb_true_r.
  - intros Off. rewrite Off, !filter_filter. split.
    + apply filter_ext_in. intros x _.
      destruct (String.eqb_spec (type x) typeName) as [E|E].
      * now rewrite E, Off.
      * cbn. now rewrite andb_true_r.
    + apply filter_ext_in. intros x _.
      destruct (String.eqb_spec (type x) typeName) as [E|E];
        [reflexivity | apply andb_false_r].
Qed.

(** ** The handlers that ingest (lines 485-512 and 624-639) *)

Section Uploads.

Context {host : Host} (papaParse : string -> Papa.ParseResult).

(** A run of [processCSV] throws what [ingest] throws and changes nothing,
    or installs what [ingest] returns. *)
Lemma processCSV_ingest (parsed : Papa.ParseResult) (st : State) :
  processCSV parsed st
  = match ingest parsed with
    | Thrown m => (Thrown m, st)
    | Returned d => (Returned tt, loaded st d)
    end.
Proof.
  unfold processCSV, ingest.
  destruct (0 <? length (missingColumnsOf (headersOf parsed)))%nat;
    [reflexivity|].
  destruct (length (validRows parsed) =? 0)%nat; [reflexivity|].
  unfold bind, lift.
  destruct (mapThrowing processRow (validRows parsed)); reflexivity.
Qed.

Lemma ingest_returned (parsed : Papa.ParseResult) (d : list WorkItem)
    (st : State) :
  ingest parsed = Returned d ->
  processCSV parsed st = (Returned tt, loaded st d).
Proof. intros H. now rewrite processCSV_ingest, H. Qed.

(** The handler of the file input, by cases on the file name and on the
    outcome of the pipeline. *)
Lemma handleFileUpload_run (file : File) (st : State) :
  handleFileUpload papaParse (Some file) st
  = (Returned tt,
     if hasCsvName file then
       match ingest (papaParse (text file)) with
       | Thrown message => afterFailedUpload st file message
       | Returned d => afterUpload st file d
       end
     else afterRejectedName st).
Proof.
  unfold hasCsvName, handleFileUpload, tryCatchFinally.
  destruct (JsString.endsWith _ _); cbn [negb]; [|reflexivity].
  unfold bind. cbn [setLoading setError setFileName].
  rewrite processCSV_ingest.
  destruct (ingest (papaParse (text file))); reflexivity.
Qed.

Lemma tryAutoLoad_run (csvContent : string) (st : State) :
  tryAutoLoad papaParse (Some csvContent) st
  = (Returned tt,
     match ingest (papaParse csvContent) with
     | Thrown _ => afterFailedAutoLoad st
     | Returned d => afterAutoLoad st d
     end).
Proof.
  unfold tryAutoLoad, tryCatchFinally, bind. cbn [setFileName].
  rewrite processCSV_ingest.
  destruct (ingest (papaParse csvContent)); reflexivity.
Qed.

(** What the pipeline returns: a sorted, non-empty list of records within
    the two bounds, each drawn at its closing time. *)
Lemma ingest_ok (parsed : Papa.ParseResult) (d : list WorkItem) :
  ingest parsed = Returned d ->
  d <> [] /\
  StronglySorted (keyLe timestamp) d /\
  List.Forall (fun r => recordOk r /\ timestamp r = closedDate r) d.
Proof.
  intros Hi.
  pose proof (ingest_returned parsed d initialState Hi) as H.
  pose proof (loaded_records_ok parsed _ _ H) as Ok.
  pose proof (fun r => loaded_record_origin parsed _ _ r H) as Or.
  apply processCSV_returned in H.
  destruct H as (mapped & _ & Hv & Hm & E).
  apply (f_equal data) in E. cbn [loaded data] in E, Ok, Or. subst d.
  split; [|split].
  - intros E. apply (f_equal (@length _)) in E.
    rewrite (sortBy_length timestamp) in E.
    rewrite (mapThrowing_length _ _ _ Hm) in E.
    destruct (validRows parsed); [now apply Hv|discriminate].
  - apply (sortBy_sorted timestamp).
  - apply List.Forall_forall. intros r Hr. split.
    + revert r Hr. now apply List.Forall_forall.
    + destruct (Or r Hr) as (row & _ & Hp).
      apply processRow_returned in Hp. tauto.
Qed.

(** X5: a file whose name does not end in [.csv], whatever the case of
    the letters, is turned away before it is read: the handler returns with
    the invalid-file message in [error] and [loading] off, every other cell
    as it was; neither the file's text nor the decoder plays any part.
    Without a file the handler does nothing. *)
Theorem X5_upload_rejects_other_file_names (file : File) (st : State) :
  hasCsvName file = false ->
  handleFileUpload papaParse (Some file) st
  = (Returned tt, afterRejectedName st) /\
  (forall otherDecoder otherText,
      handleFileUpload otherDecoder
        (Some {| name := name file; text := otherText |}) st
      = handleFileUpload papaParse (Some file) st) /\
  handleFileUpload papaParse None st = (Returned tt, st).
Proof.
  intros H. unfold hasCsvName in H.
  assert (R : forall decoder txt,
             handleFileUpload decoder
               (Some {| name := name file; text := txt |}) st
             = (Returned tt, afterRejectedName st)).
  { intros decoder txt. unfold handleFileUpload, tryCatchFinally.
    cbn [name]. rewrite H. reflexivity. }
  split; [destruct file as [n t]; apply R|].
  split; [|reflexivity].
  intros d t. rewrite R. destruct file as [n t']. symmetry. apply R.
Qed.

(** X6: when a file with a [.csv] name makes [processCSV] throw, the
    handler itself returns; the dataset, the type list, the filters and
    [csvUploaded] are as before, [error] holds the thrown message after the
    prefix "Erro ao processar o arquivo: ", [loading] is off, and
    [fileName] is already the name of the file that failed. *)
Theorem X6_failed_upload_keeps_the_dataset
    (file : File) (st : State) (message : string) :
  hasCsvName file = true ->
  ingest (papaParse (text file)) = Thrown message ->
  handleFileUpload papaParse (Some file) st
  = (Returned tt, afterFailedUpload st file message).
Proof.
  intros Hn Hi. unfold hasCsvName in Hn.
  unfold handleFileUpload, tryCatchFinally. rewrite Hn. cbn [negb].
  unfold bind. cbn [setLoading setError setFileName].
  rewrite processCSV_ingest, Hi. reflexivity.
Qed.

(** X7: when a file with a [.csv] name passes [processCSV], the handler
    returns with the new dataset, its type list and filters, the file's
    name, [csvUploaded] on, [error] cleared and [loading] off; the two
    percentile switches keep their positions. *)
Theorem X7_successful_upload_installs_the_file
    (file : File) (st : State) (d : list WorkItem) :
  hasCsvName file = true ->
  ingest (papaParse (text file)) = Returned d ->
  handleFileUpload papaParse (Some file) st
  = (Returned tt, afterUpload st file d).
Proof.
  intros Hn Hi. unfold hasCsvName in Hn.
  unfold handleFileUpload, tryCatchFinally. rewrite Hn. cbn [negb].
  unfold bind. cbn [setLoading setError setFileName].
  rewrite processCSV_ingest, Hi. reflexivity.
Qed.

(** X8: the load on mount never reports: [error] and [loading] are never
    written.  If the file cannot be read nothing changes; if [processCSV]
    throws, only [fileName] has changed, to "BaseClaude.csv"; if it
    returns, the dataset is installed with [csvUploaded] on. *)
Theorem X8_load_on_mount_is_silent (st : State) :
  tryAutoLoad papaParse None st = (Returned tt, st) /\
  (forall csvContent message,
      ingest (papaParse csvContent) = Thrown message ->
      tryAutoLoad papaParse (Some csvContent) st
      = (Returned tt, afterFailedAutoLoad st)) /\
  (forall csvContent d,
      ingest (papaParse csvContent) = Returned d ->
      tryAutoLoad papaParse (Some csvContent) st
      = (Returned tt, afterAutoLoad st d)) /\
  (forall content,
      error (snd (tryAutoLoad papaParse content st)) = error st /\
      loading (snd (tryAutoLoad papaParse content st)) = loading st).
Proof.
  assert (F : forall csvContent message,
             ingest (papaParse csvContent) = Thrown message ->
             tryAutoLoad papaParse (Some csvContent) st
             = (Returned tt, afterFailedAutoLoad st)).
  { intros c m Hi. unfold tryAutoLoad, tryCatchFinally, bind.
    cbn [setFileName]. rewrite processCSV_ingest, Hi. reflexivity. }
  assert (S : forall csvContent d,
             ingest (papaParse csvContent) = Returned d ->
             tryAutoLoad papaParse (Some csvContent) st
             = (Returned tt, afterAutoLoad st d)).
  { intros c d Hi. unfold tryAutoLoad, tryCatchFinally, bind.
    cbn [setFileName]. rewrite processCSV_ingest, Hi. reflexivity. }
  split; [reflexivity|]. split; [exact F|]. split; [exact S|].
  intros [c|]; [|split; reflexivity].
  destruct (ingest (papaParse c)) as [d|m] eqn:Hi.
  - rewrite (S c d Hi). split; reflexivity.
  - rewrite (F c m Hi). split; reflexivity.
Qed.

End Uploads.

(** ** What holds whatever has happened *)

Section Settling.

Context {host : Host} (papaParse : string -> Papa.ParseResult).

Lemma settled_initial : Settled initialState.
Proof.
  split; cbn; try discriminate; try reflexivity; constructor.
Qed.

(** A state that holds a dataset the pipeline returned, its type list and
    [csvUploaded] on. *)
Lemma settled_installed (parsed : Papa.ParseResult) (d : list WorkItem)
    (st' : State) :
  ingest parsed = Returned d ->
  data st' = d -> itemTypes st' = distinct (map type d) ->
  csvUploaded st' = true -> Settled st'.
Proof.
  intros Hi Hd Ht Hc.
  destruct (ingest_ok parsed d Hi) as (Hne & Hs & Hr).
  split; rewrite ?Hd; auto; congruence.
Qed.

(** A state with the dataset, the type list and [csvUploaded] of a settled
    one. *)
Lemma settled_kept (st st' : State) :
  Settled st ->
  data st' = data st -> itemTypes st' = itemTypes st ->
  csvUploaded st' = csvUploaded st -> Settled st'.
Proof.
  intros [St Ss Sr Se Sh] Hd Ht Hc.
  split; rewrite ?Hd, ?Ht, ?Hc; assumption.
Qed.

Lemma handle_settled (e : Event) (st : State) :
  Settled st -> Settled (snd (handle papaParse e st)).
Proof.
  intros S.
  destruct e as [[c|]|[file|]|typeName| | |]; cbn [handle].
  - rewrite tryAutoLoad_run.
    destruct (ingest (papaParse c)) as [d|m] eqn:Hi; cbn [snd].
    + now apply (settled_installed _ d _ Hi).
    + now apply (settled_kept st).
  - exact S.
  - rewrite handleFileUpload_run. cbn [snd].
    destruct (hasCsvName file).
    + destruct (ingest (papaParse (text file))) as [d|m] eqn:Hi.
      * now apply (settled_installed _ d _ Hi).
      * now apply (settled_kept st).
    + now apply (settled_kept st).
  - exact S.
  - now apply (settled_kept st).
  - now apply (settled_kept st).
  - now apply (settled_kept st).
  - split; cbn; try discriminate; try reflexivity; constructor.
Qed.

Lemma handleFileUploadStart_settled (file : File) (st : State) :
  Settled st -> Settled (snd (handleFileUploadStart file st)).
Proof.
  intros S. unfold handleFileUploadStart.
  destruct (JsString.endsWith _ _); cbn [negb]; now apply (settled_kept st).
Qed.

Lemma handleFileUploadResume_settled (file : File) (st : State) :
  Settled st -> Settled (snd (handleFileUploadResume papaParse file st)).
Proof.
  intros S. unfold handleFileUploadResume, tryCatchFinally, bind.
  rewrite processCSV_ingest.
  destruct (ingest (papaParse (text file))) as [d|m] eqn:Hi; cbn [snd].
  - now apply (settled_installed _ d _ Hi).
  - now apply (settled_kept st).
Qed.

(** [loading] is on only while a file is being read. *)
Lemma running_settled (reading : list File) (st : State) :
  Running papaParse reading st ->
  Settled st /\ (loading st = true -> reading <> []).
Proof.
  induction 1 as [|reading st e Q _ [S L]|reading st file _ [S L]
                  |before file after st _ [S L]].
  - split; [apply settled_initial | discriminate].
  - split; [now apply handle_settled|].
    destruct e as [[c|]|[file|]|typeName| | |]; cbn [handle]; try exact L.
    + rewrite tryAutoLoad_run.
      destruct (ingest (papaParse c)); exact L.
    + now destruct (Q file).
  - split; [now apply handleFileUploadStart_settled|].
    unfold handleFileUploadStart.
    destruct (JsString.endsWith _ _); cbn [negb]; discriminate.
  - split; [now apply handleFileUploadResume_settled|].
    unfold handleFileUploadResume, tryCatchFinally, bind.
    rewrite processCSV_ingest.
    destruct (ingest (papaParse (text file))); discriminate.
Qed.

Lemma reachable_settled (st : State) :
  Reachable papaParse st -> Settled st.
Proof. intros [reading R]. now apply (running_settled reading). Qed.


End Settling.

(** ** Series, buttons and cards (lines 660-666, 767-787, 857-867, 895-921) *)

Lemma map_imap {X Y W} (g : nat -> X -> Y) (h : Y -> W) (k : X -> W)
    (l : list X) :
  (forall i x, h (g i x) = k x) -> map h (imap g l) = map k l.
Proof.
  revert g. induction l as [|x l IH]; intros g H; cbn; [reflexivity|].
  rewrite H. f_equal. apply IH. intros i y. apply H.
Qed.

Lemma In_imap {X Y} (g : nat -> X -> Y) (l : list X) (y : Y) :
  In y (imap g l) -> exists i x, l !! i = Some x /\ y = g i x.
Proof.
  revert g. induction l as [|x l IH]; intros g H; cbn in H; [easy|].
  destruct H as [<-|H]; [now exists 0%nat, x|].
  destruct (IH _ H) as (i & z & Hl & ->). now exists (S i), z.
Qed.

(** The records of a list, grouped by the types of a duplicate-free list,
    are the records whose type is in that list. *)
Lemma group_by_types (ts : list string) (l : list WorkItem) :
  List.NoDup ts ->
  Permutation
    (concat (map (fun t => List.filter (fun x => String.eqb (type x) t) l) ts))
    (List.filter (fun x => JsString.includes ts (type x)) l).
Proof.
  induction 1 as [|t ts Ht _ IH]; cbn [map concat].
  - rewrite (filter_ext_in _ (fun _ => false)) by reflexivity.
    induction l; cbn; auto.
  - rewrite IH. clear IH.
    induction l as [|x l IHl]; cbn [List.filter JsString.includes existsb];
      [constructor|].
    change (existsb (String.eqb (type x)) ts)
      with (JsString.includes ts (type x)).
    destruct (String.eqb_spec (type x) t) as [E|E]; cbn [orb app].
    + assert (F : JsString.includes ts (type x) = false).
      { destruct (JsString.includes ts (type x)) eqn:I; [|reflexivity].
        apply includes_In in I. now rewrite E in I. }
      rewrite F. now constructor.
    + destruct (JsString.includes ts (type x)); [|exact IHl].
      rewrite <- IHl. symmetry. apply Permutation_middle.
Qed.

Lemma in_distinct (l : list string) (x : string) :
  In x (distinct l) <-> In x l.
Proof. unfold distinct. rewrite distinctFrom_In. cbn. tauto. Qed.

Lemma length_concat_map {X} (f : X -> list WorkItem) (ts : list X) :
  length (concat (map f ts)) = list_sum (map (fun t => length (f t)) ts).
Proof.
  induction ts as [|t ts IH]; cbn; [reflexivity|].
  now rewrite length_app, IH.
Qed.

Lemma filter_nonempty {X} (f : X -> bool) (l : list X) (x : X) :
  In x l -> f x = true -> List.filter f l <> [].
Proof.
  intros Hx Hf E.
  assert (H : In x (List.filter f l)) by (apply filter_In; auto).
  rewrite E in H. exact H.
Qed.

(** *** Minimum, maximum and rounded mean *)

Lemma fold_min_spec (l : list Z) (a : Z) :
  In (fold_left Z.min l a) (a :: l) /\
  forall x, In x (a :: l) -> fold_left Z.min l a <= x.
Proof.
  revert a. induction l as [|y l IH]; intros a; cbn [fold_left].
  - split; [now left|]. intros x [<-|[]]. lia.
  - destruct (IH (Z.min a y)) as [Hin Hle]. split.
    + destruct Hin as [E|Hin]; [|now right; right].
      rewrite <- E. destruct (Z.min_spec a y) as [[_ ->]|[_ ->]];
        [now left | now right; left].
    + intros x Hx.
      assert (M : fold_left Z.min l (Z.min a y) <= Z.min a y)
        by (apply Hle; now left).
      destruct Hx as [<-|[<-|Hx]]; [lia|lia|].
      apply Hle. now right.
Qed.

Lemma fold_max_spec (l : list Z) (a : Z) :
  In (fold_left Z.max l a) (a :: l) /\
  forall x, In x (a :: l) -> x <= fold_left Z.max l a.
Proof.
  revert a. induction l as [|y l IH]; intros a; cbn [fold_left].
  - split; [now left|]. intros x [<-|[]]. lia.
  - destruct (IH (Z.max a y)) as [Hin Hle]. split.
    + destruct Hin as [E|Hin]; [|now right; right].
      rewrite <- E. destruct (Z.max_spec a y) as [[_ ->]|[_ ->]];
        [now right; left | now left].
    + intros x Hx.
      assert (M : Z.max a y <= fold_left Z.max l (Z.max a y))
        by (apply Hle; now left).
      destruct Hx as [<-|[<-|Hx]]; [lia|lia|].
      apply Hle. now right.
Qed.

Lemma Math_min_spec (l : list Z) :
  l <> [] ->
  exists lo, Math_min l = Some lo /\ In lo l /\ forall x, In x l -> lo <= x.
Proof.
  destruct l as [|a l]; [easy|]. intros _.
  exists (fold_left Z.min l a). split; [reflexivity|]. apply fold_min_spec.
Qed.

Lemma Math_max_spec (l : list Z) :
  l <> [] ->
  exists hi, Math_max l = Some hi /\ In hi l /\ forall x, In x l -> x <= hi.
Proof.
  destruct l as [|a l]; [easy|]. intros _.
  exists (fold_left Z.max l a). split; [reflexivity|]. apply fold_max_spec.
Qed.


(** The rounded quotient on the integers is what the binary64 division
    and [Math.round] of the source compute: checked for 1 to 16 records and
    the sums that lead the mean through 0.5 and 1.5, and on a few larger
    sums. *)
Lemma roundedQuotient_sample :
  forallb roundExact (seq 1 16) = true /\
  roundOfQuotient 1000001 2 = roundedQuotient 1000001 2 /\
  roundOfQuotient 123456789 1000 = roundedQuotient 123456789 1000 /\
  roundOfQuotient 7499 5000 = roundedQuotient 7499 5000.
Proof. vm_compute. repeat split. Qed.



(** *** Sorted lists *)

Lemma sorted_filter {X} (R : X -> X -> Prop) (f : X -> bool) (l : list X) :
  StronglySorted R l -> StronglySorted R (List.filter f l).
Proof.
  induction 1 as [|x l _ IH F]; cbn [List.filter]; [constructor|].
  destruct (f x); [|exact IH]. constructor; [exact IH|].
  rewrite List.Forall_forall in *. intros y Hy.
  apply F. apply filter_In in Hy. tauto.
Qed.

Lemma perm_filter {X} (f : X -> bool) (l l' : list X) :
  Permutation l l' -> Permutation (List.filter f l) (List.filter f l').
Proof.
  induction 1 as [|x l l' _ IH|x y l|l l' l'' _ IH1 _ IH2];
    cbn [List.filter].
  - constructor.
  - destruct (f x); [now constructor | exact IH].
  - destruct (f x), (f y); try reflexivity. constructor.
  - now transitivity (List.filter f l').
Qed.

Lemma filter_map_length {X Y} (g : X -> Y) (f : Y -> bool) (l : list X) :
  length (List.filter f (map g l))
  = length (List.filter (fun x => f (g x)) l).
Proof.
  induction l as [|x l IH]; cbn [map List.filter]; [reflexivity|].
  destruct (f (g x)); cbn [length]; now rewrite IH.
Qed.

Lemma sorted_lookup_le (l : list Z) (i j : nat) (a b : Z) :
  StronglySorted Z.le l ->
  l !! i = Some a -> l !! j = Some b -> (i <= j)%nat -> a <= b.
Proof.
  intros S. revert i j. induction S as [|x l _ IH F]; intros i j Hi Hj Hij;
    [discriminate|].
  destruct i as [|i], j as [|j]; cbn in Hi, Hj; try lia.
  - injection Hi as <-. injection Hj as <-. lia.
  - injection Hi as <-. rewrite List.Forall_forall in F. apply F.
    apply list_elem_of_In. eapply list_elem_of_lookup_2, Hj.
  - apply (IH i j); auto. lia.
Qed.

(** A sorted list is determined by its elements. *)
Lemma sorted_perm_eq (l1 l2 : list Z) :
  StronglySorted Z.le l1 -> StronglySorted Z.le l2 ->
  Permutation l1 l2 -> l1 = l2.
Proof.
  intros S1. revert l2. induction S1 as [|x l1 _ IH F1]; intros l2 S2 P.
  - apply Permutation_nil in P. now subst.
  - destruct S2 as [|y l2 S2 F2];
      [apply Permutation_sym, Permutation_nil in P; discriminate|].
    rewrite List.Forall_forall in F1, F2.
    assert (E : x = y).
    { assert (Hx : In x (y :: l2))
        by (apply (Permutation_in _ P); now left).
      assert (Hy : In y (x :: l1))
        by (apply (Permutation_in _ (Permutation_sym P)); now left).
      destruct Hx as [->|Hx]; [reflexivity|].
      destruct Hy as [->|Hy]; [reflexivity|].
      apply F2 in Hx. apply F1 in Hy. lia. }
    subst y. f_equal. apply IH; [exact S2|].
    eapply Permutation_cons_inv, P.
Qed.

Lemma sorted_head_least {X} (key : X -> Z) (x : X) (l : list X) :
  StronglySorted (keyLe key) (x :: l) ->
  Math_min (map key (x :: l)) = Some (key x).
Proof.
  intros S. apply StronglySorted_inv in S. destruct S as [_ F].
  rewrite List.Forall_forall in F.
  cbn [map Math_min]. f_equal.
  destruct (fold_min_spec (map key l) (key x)) as [Hin Hle].
  apply Z.le_antisymm; [apply Hle; now left|].
  destruct Hin as [<-|Hin]; [lia|].
  apply in_map_iff in Hin. destruct Hin as (y & <- & Hy). now apply F.
Qed.

Lemma last_cons_default {X} (z x : X) (l : list X) :
  List.last (z :: l) x = List.last l z.
Proof.
  revert z x. induction l as [|w l IH]; intros z x; [reflexivity|].
  change (List.last (z :: w :: l) x) with (List.last (w :: l) x).
  now rewrite !IH.
Qed.

Lemma last_In {X} (x : X) (l : list X) : In (List.last l x) (x :: l).
Proof.
  revert x. induction l as [|z l IH]; intros x; [now left|].
  rewrite last_cons_default. right. apply IH.
Qed.

Lemma sorted_last_greatest {X} (key : X -> Z) (x : X) (l : list X) :
  StronglySorted (keyLe key) (x :: l) ->
  Math_max (map key (x :: l)) = Some (key (List.last l x)).
Proof.
  intros S.
  assert (G : forall y, In y (x :: l) -> key y <= key (List.last l x)).
  { clear - S. revert x S. induction l as [|z l IH]; intros x S y Hy.
    - destruct Hy as [<-|[]]. cbn. lia.
    - apply StronglySorted_inv in S. destruct S as [S F].
      rewrite last_cons_default.
      destruct Hy as [<-|Hy]; [|now apply IH].
      transitivity (key z); [|apply IH; [exact S | now left]].
      rewrite List.Forall_forall in F. apply F. now left. }
  cbn [map Math_max]. f_equal.
  destruct (fold_max_spec (map key l) (key x)) as [Hin Hle].
  apply Z.le_antisymm.
  - change (In (fold_left Z.max (map key l) (key x)) (map key (x :: l)))
      in Hin.
    apply in_map_iff in Hin. destruct Hin as (y & <- & Hy). now apply G.
  - apply Hle. change (In (key (List.last l x)) (map key (x :: l))).
    apply in_map, last_In.
Qed.

(** In a sorted list, more than [i] elements are at most the one at index
    [i], and at most [i] are below it. *)
Lemma rank_counts (l : list Z) (i : nat) (v : Z) :
  StronglySorted Z.le l -> l !! i = Some v ->
  (i < length (List.filter (fun x => (x <=? v)%Z) l))%nat /\
  (length (List.filter (fun x => (x <? v)%Z) l) <= i)%nat.
Proof.
  intros S. revert i. induction S as [|x l _ IH F]; intros i H;
    [discriminate|].
  rewrite List.Forall_forall in F. cbn [List.filter].
  destruct i as [|i]; cbn in H.
  - injection H as <-. rewrite Z.leb_refl, Z.ltb_irrefl. cbn [length].
    split; [lia|].
    rewrite (filter_ext_in _ (fun _ => false)).
    + clear. induction l; cbn; auto.
    + intros y Hy. apply F in Hy. apply Z.ltb_ge. exact Hy.
  - destruct (IH i H) as [A B].
    assert (Hx : x <= v).
    { apply F, list_elem_of_In. eapply list_elem_of_lookup_2, H. }
    destruct (Z.leb_spec x v); [|lia].
    destruct (x <? v); cbn [length]; lia.
Qed.

(** Dropping the series that are hidden or empty drops no point, as long
    as the hidden ones are empty. *)
Lemma drawn_points (l : list Series.t) :
  (forall s, In s l -> Series.visible s = false -> Series.data s = []) ->
  concat
    (map Series.data
       (List.filter
          (fun s => Series.visible s && (0 <? length (Series.data s))%nat) l))
  = concat (map Series.data l).
Proof.
  induction l as [|s l IH]; intros H; cbn [List.filter map concat];
    [reflexivity|].
  assert (IH' := IH (fun s' Hs' => H s' (or_intror Hs'))).
  destruct (Series.visible s) eqn:V; cbn [andb].
  - destruct (0 <? length (Series.data s))%nat eqn:L; cbn [map concat].
    + now rewrite IH'.
    + destruct (Series.data s); [exact IH' | discriminate L].
  - rewrite (H s (or_introl eq_refl) V). exact IH'.
Qed.

(** Off the names of [Object.prototype], every button has classes, and
    the inactive ones are grey. *)
Lemma inactive_grey (typeName : string) (index : nat) :
  JsString.includes objectPrototypeKeys typeName = false ->
  exists classes,
    getBackgroundColorForType typeName index = Style classes /\
    inactive classes = "bg-gray-100 text-gray-500".
Proof.
  intros P. unfold getBackgroundColorForType, predefinedBgs.
  destruct (string_dec typeName "User Story") as [->|H1];
    [rewrite lookup_insert_eq; eexists; split; reflexivity|].
  rewrite lookup_insert_ne by congruence.
  destruct (string_dec typeName "Bug") as [->|H2];
    [rewrite lookup_insert_eq; eexists; split; reflexivity|].
  rewrite lookup_insert_ne by congruence. rewrite lookup_empty, P.
  change (length autoBgs) with 8%nat.
  assert (B : (index mod 8 < 8)%nat) by (apply Nat.mod_upper_bound; lia).
  revert B. generalize (index mod 8)%nat as k. intros k B.
  do 8 (destruct k as [|k]; [eexists; split; reflexivity|]).
  lia.
Qed.


Section Rendering.

Context {host : Host} (papaParse : string -> Papa.ParseResult).

Lemma typeData_filtered (st : State) (typeName : string) :
  List.filter (fun item => String.eqb (type item) typeName) (filteredData st)
  = if filterOn (typeFilters st) typeName then typeData st typeName else [].
Proof.
  unfold filteredData, typeData. rewrite filter_filter.
  destruct (filterOn (typeFilters st) typeName) eqn:F.
  - apply filter_ext_in. intros x _.
    destruct (String.eqb_spec (type x) typeName) as [->|];
      [now rewrite F | apply andb_false_r].
  - rewrite (filter_ext_in _ (fun _ => false)).
    + induction (data st); cbn; auto.
    + intros x _.
      destruct (String.eqb_spec (type x) typeName) as [->|];
        [now rewrite F | apply andb_false_r].
Qed.

Lemma typeData_nonempty (st : State) (typeName : string) :
  Settled st -> In typeName (itemTypes st) -> typeData st typeName <> [].
Proof.
  intros S H. rewrite (settled_types st S), in_distinct, in_map_iff in H.
  destruct H as (r & E & Hr).
  apply (filter_nonempty _ _ r Hr). now apply String.eqb_eq.
Qed.

Lemma grouped_all (st : State) (l : list WorkItem) :
  Settled st -> (forall x, In x l -> In x (data st)) ->
  Permutation
    (concat (map (fun t => List.filter (fun x => String.eqb (type x) t) l)
               (itemTypes st)))
    l.
Proof.
  intros S Hl. rewrite group_by_types.
  - rewrite filter_all_true; [reflexivity|].
    intros x Hx. apply includes_In.
    rewrite (settled_types st S), in_distinct. apply in_map. auto.
  - rewrite (settled_types st S). apply distinctFrom_NoDup.
Qed.

(** X10: in a reachable state the chart has one series per type of the type
    list, in its order; a series is drawn exactly when its type's filter is
    on, and then holds all the records of that type, at least one; the
    series that are not drawn are empty.  Every record that passes the
    filter is a point of exactly one drawn series. *)
Theorem X10_drawn_series_partition_the_filtered_records (st : State) :
  Reachable papaParse st ->
  map Series.type (dataByType st) = itemTypes st /\
  (forall s, In s (dataByType st) ->
     In (Series.type s) (itemTypes st) /\
     Series.visible s = filterOn (typeFilters st) (Series.type s) /\
     (Series.visible s = true ->
      In s (drawnSeries st) /\
      Series.data s = typeData st (Series.type s) /\ Series.data s <> []) /\
     (Series.visible s = false ->
      ~ In s (drawnSeries st) /\ Series.data s = [])) /\
  Permutation (concat (map Series.data (drawnSeries st))) (filteredData st).
Proof.
  intros R. pose proof (reachable_settled papaParse st R) as S.
  split; [|split].
  - unfold dataByType.
    rewrite (map_imap _ Series.type (fun t => t)) by reflexivity.
    apply map_id.
  - intros s Hs. pose proof (In_imap _ _ _ Hs) as (i & t & Hi & Es).
    assert (Et : Series.type s = t) by now subst s.
    assert (Ev : Series.visible s = filterOn (typeFilters st) t)
      by now subst s.
    assert (Ed : Series.data s
                 = if filterOn (typeFilters st) t then typeData st t else [])
      by (subst s; apply typeData_filtered).
    clear Es. rewrite Et.
    assert (Ht : In t (itemTypes st)).
    { apply list_elem_of_In. eapply list_elem_of_lookup_2, Hi. }
    pose proof (typeData_nonempty st t S Ht) as Hne.
    split; [exact Ht|]. split; [exact Ev|]. split.
    + intros V. rewrite V in Ev. rewrite <- Ev in Ed.
      split; [|split; [exact Ed | now rewrite Ed]].
      apply filter_In. split; [exact Hs|]. rewrite V, Ed.
      destruct (typeData st t); [now destruct Hne | reflexivity].
    + intros V. rewrite V in Ev. rewrite <- Ev in Ed.
      split; [|exact Ed].
      intros Hd. apply filter_In in Hd. destruct Hd as [_ Hd].
      now rewrite V in Hd.
  - unfold drawnSeries. rewrite drawn_points.
    + unfold dataByType.
      rewrite (map_imap _ Series.data
                 (fun t => List.filter (fun x => String.eqb (type x) t)
                             (filteredData st))) by reflexivity.
      apply (grouped_all st _ S). intros x Hx.
      apply filter_In in Hx. tauto.
    + intros s Hs V.
      pose proof (In_imap _ _ _ Hs) as (i & t & _ & ->).
      cbn [Series.visible Series.data] in *.
      now rewrite typeData_filtered, V.
Qed.

(** X11: in a reachable state there is one button per type, in the order
    of the type list; each shows how many records of the whole dataset have
    its type, at least one, whatever the filters; the counts add up to the
    number of records.  A button whose filter is off has the grey dot and,
    unless its type is named like a member of [Object.prototype], the grey
    class. *)
Theorem X11_type_buttons_count_every_record (st : State) :
  Reachable papaParse st ->
  map badgeType (typeBadges st) = itemTypes st /\
  list_sum (map typeCount (typeBadges st)) = length (data st) /\
  (forall b, In b (typeBadges st) ->
     typeCount b = length (typeData st (badgeType b)) /\
     (1 <= typeCount b)%nat /\
     (filterOn (typeFilters st) (badgeType b) = false ->
      backgroundColor b = Style "#9ca3af" /\
      (JsString.includes objectPrototypeKeys (badgeType b) = false ->
       className b = "bg-gray-100 text-gray-500"))).
Proof.
  intros R. pose proof (reachable_settled papaParse st R) as S.
  split; [|split].
  - unfold typeBadges.
    rewrite (map_imap _ badgeType (fun t => t)) by reflexivity.
    apply map_id.
  - unfold typeBadges.
    rewrite (map_imap _ typeCount (fun t => length (typeData st t)))
      by reflexivity.
    rewrite <- (length_concat_map (typeData st)).
    apply Permutation_length, (grouped_all st (data st) S). auto.
  - intros b Hb. apply In_imap in Hb. destruct Hb as (i & t & Hi & ->).
    cbn [typeCount badgeType backgroundColor className].
    assert (Ht : In t (itemTypes st)).
    { apply list_elem_of_In. eapply list_elem_of_lookup_2, Hi. }
    pose proof (typeData_nonempty st t S Ht) as Hne.
    split; [reflexivity|]. split.
    + destruct (typeData st t); [easy | cbn; lia].
    + intros F. rewrite F. split; [reflexivity|]. intros P.
      destruct (inactive_grey t i P) as (classes & -> & G). exact G.
Qed.



(** X14: in a reachable state the date range the chart computes for its
    ticks starts at the closing time of the first record that passes the
    filter and ends at the closing time of the last one: the filtered
    records are in closing order, so the minimum and the maximum are at the
    two ends. *)
Theorem X14_chart_range_is_first_to_last (st : State)
    (first : WorkItem) (rest : list WorkItem) :
  Reachable papaParse st ->
  filteredData st = first :: rest ->
  StronglySorted (keyLe closedDate) (filteredData st) /\
  minDate st = Some (closedDate first) /\
  maxDate st = Some (closedDate (List.last rest first)) /\
  closedDate first <= closedDate (List.last rest first).
Proof.
  intros R E. pose proof (reachable_settled papaParse st R) as S.
  assert (Ss : StronglySorted (keyLe timestamp) (filteredData st))
    by (apply sorted_filter, (settled_sorted st S)).
  assert (T : forall r, In r (filteredData st) -> timestamp r = closedDate r).
  { intros r Hr. apply filter_In in Hr. destruct Hr as [Hr _].
    pose proof (settled_records st S) as F.
    rewrite List.Forall_forall in F. apply (F r Hr). }
  assert (Sc : StronglySorted (keyLe closedDate) (filteredData st)).
  { clear E. induction Ss as [|x l _ IH F]; [constructor|].
    constructor; [apply IH; intros r Hr; apply T; now right|].
    rewrite List.Forall_forall in *. intros y Hy. unfold keyLe.
    rewrite <- (T x), <- (T y) by (cbn; auto). now apply F. }
  split; [exact Sc|].
  unfold minDate, maxDate. rewrite E in *.
  rewrite (sorted_head_least timestamp first rest Ss).
  rewrite (sorted_last_greatest timestamp first rest Ss).
  rewrite !T by (try apply last_In; now left).
  split; [reflexivity|]. split; [reflexivity|].
  pose proof (sorted_head_least closedDate first rest Sc) as Hmin.
  destruct (Math_min_spec (map closedDate (first :: rest)))
    as (lo & Elo & _ & Hlo); [discriminate|].
  rewrite Hmin in Elo. injection Elo as <-.
  apply Hlo, in_map, last_In.
Qed.

(** X15: with 1 to 4096 records passing the filter, P85 and P95 are lead
    times of such records, P85 is at most P95, more than 85 % (95 %) of the
    records have a lead time of at most P85 (P95) and at most 85 % (95 %)
    have a smaller one.  With at most 6 records P85 is the largest lead
    time, and with at most 20 records P95 is.  In a reachable state both
    are at least 1. *)
Theorem X15_percentiles_are_order_statistics (st : State) :
  let items := filteredData st in
  let n := Z.of_nat (length items) in
  let upTo v := Z.of_nat (length (List.filter (fun r => leadTime r <=? v) items)) in
  let below v := Z.of_nat (length (List.filter (fun r => leadTime r <? v) items)) in
  (0 < length items <= 4096)%nat ->
  exists v85 v95,
    p85Value st = Some v85 /\ p95Value st = Some v95 /\
    In v85 (map leadTime items) /\ In v95 (map leadTime items) /\
    v85 <= v95 /\
    100 * below v85 <= 85 * n < 100 * upTo v85 /\
    100 * below v95 <= 95 * n < 100 * upTo v95 /\
    (n <= 6 -> Math_max (map leadTime items) = Some v85) /\
    (n <= 20 -> Math_max (map leadTime items) = Some v95) /\
    (Reachable papaParse st -> 1 <= v85).
Proof.
  intros items n upTo below [Hpos Hmax].
  pose proof (filteredLeadTimes_perm st) as P.
  pose proof (filteredLeadTimes_sorted st) as S.
  pose proof (filteredLeadTimes_length st) as L.
  fold items in P, L.
  destruct (floor_index_exact (length items) Hmax) as [E85 E95].
  fold n in E85, E95.
  assert (V : forall k, 0 <= k < n ->
            exists v, filteredLeadTimes st !! Z.to_nat k = Some v /\
                      elementAt (filteredLeadTimes st) (Some k) = Some v).
  { intros k Hk. apply elementAt_in_range. rewrite L. exact Hk. }
  assert (I85 : 0 <= n * 85 / 100 < n)
    by (split; [apply Z.div_pos | apply Z.div_lt_upper_bound]; lia).
  assert (I95 : 0 <= n * 95 / 100 < n)
    by (split; [apply Z.div_pos | apply Z.div_lt_upper_bound]; lia).
  assert (I : n * 85 / 100 <= n * 95 / 100) by (apply Z.div_le_mono; lia).
  destruct (V _ I85) as (v85 & H85 & A85).
  destruct (V _ I95) as (v95 & H95 & A95).
  assert (C : forall f, length (List.filter f (filteredLeadTimes st))
                        = length (List.filter (fun r => f (leadTime r)) items)).
  { intros f. rewrite <- (filter_map_length leadTime f items).
    apply Permutation_length, perm_filter, P. }
  assert (M : forall v, In v (filteredLeadTimes st) <-> In v (map leadTime items)).
  { intros v. split; apply Permutation_in; [|symmetry]; exact P. }
  assert (In85 : In v85 (filteredLeadTimes st)).
  { apply list_elem_of_In. eapply list_elem_of_lookup_2, H85. }
  assert (In95 : In v95 (filteredLeadTimes st)).
  { apply list_elem_of_In. eapply list_elem_of_lookup_2, H95. }
  assert (Top : forall k v, k = n - 1 ->
            filteredLeadTimes st !! Z.to_nat k = Some v ->
            Math_max (map leadTime items) = Some v).
  { intros k v -> Hv.
    destruct (Math_max_spec (map leadTime items)) as (hi & Ehi & Ihi & Bhi).
    { destruct items; [cbn in Hpos; lia | discriminate]. }
    rewrite Ehi. f_equal. apply Z.le_antisymm.
    - apply M in Ihi. apply list_elem_of_In, list_elem_of_lookup_1 in Ihi.
      destruct Ihi as (j & Hj).
      apply (sorted_lookup_le _ j (Z.to_nat (n - 1)) _ _ S Hj Hv).
      apply lookup_lt_Some in Hj. rewrite L in Hj. lia.
    - apply Bhi, M. apply list_elem_of_In. eapply list_elem_of_lookup_2, Hv. }
  exists v85, v95.
  unfold p85Value, p95Value, p85Index, p95Index, lengthNumber.
  rewrite L, E85, E95.
  destruct (Nat.ltb_spec 0 (length items)) as [_|]; [|lia].
  split; [exact A85|]. split; [exact A95|].
  split; [now apply M|]. split; [now apply M|].
  split; [apply (sorted_lookup_le _ _ _ _ _ S H85 H95); lia|].
  destruct (rank_counts _ _ _ S H85) as [U85 B85].
  destruct (rank_counts _ _ _ S H95) as [U95 B95].
  rewrite C in U85, B85, U95, B95.
  fold items in U85, B85, U95, B95.
  pose proof (Z.div_mod (n * 85) 100) as D85.
  pose proof (Z.mod_pos_bound (n * 85) 100) as R85.
  pose proof (Z.div_mod (n * 95) 100) as D95.
  pose proof (Z.mod_pos_bound (n * 95) 100) as R95.
  split; [unfold upTo, below; lia|]. split; [unfold upTo, below; lia|].
  split; [|split].
  - intros Hn. apply (Top (n * 85 / 100)); [|exact H85].
    symmetry. apply (Z.div_unique _ _ _ (100 - 15 * n)); lia.
  - intros Hn. apply (Top (n * 95 / 100)); [|exact H95].
    symmetry. apply (Z.div_unique _ _ _ (100 - 5 * n)); lia.
  - intros R. pose proof (reachable_settled papaParse st R) as St.
    apply M, in_map_iff in In85. destruct In85 as (r & <- & Hr).
    apply filter_In in Hr. destruct Hr as [Hr _].
    pose proof (settled_records st St) as F.
    rewrite List.Forall_forall in F. apply (F r Hr).
Qed.

End Rendering.

(** X16: the percentiles depend on which records pass the filter, not on
    their order: two states whose datasets are rearrangements of each other
    and whose filters agree have the same sorted lead times, the same P85
    and the same P95. *)
Theorem X16_percentiles_ignore_record_order (st1 st2 : State) :
  Permutation (data st1) (data st2) ->
  typeFilters st1 = typeFilters st2 ->
  filteredLeadTimes st1 = filteredLeadTimes st2 /\
  p85Value st1 = p85Value st2 /\ p95Value st1 = p95Value st2.
Proof.
  intros P F.
  assert (E : filteredLeadTimes st1 = filteredLeadTimes st2).
  { apply sorted_perm_eq; try apply filteredLeadTimes_sorted.
    rewrite !filteredLeadTimes_perm. apply Permutation_map.
    unfold filteredData. rewrite F. now apply perm_filter. }
  unfold p85Value, p95Value, p85Index, p95Index. now rewrite E.
Qed.

(** ** Colours (lines 444-457) *)

Lemma autoColors_NoDup : List.NoDup autoColors.
Proof.
  unfold autoColors.
  repeat (constructor; [cbn; intuition discriminate|]). constructor.
Qed.

(** The four ways [getColorForType] answers. *)
Lemma getColorForType_cases (typeName : string) (index : nat) :
  (typeName = "User Story" /\
   getColorForType typeName index = Style "#3b82f6") \/
  (typeName = "Bug" /\ getColorForType typeName index = Style "#ef4444") \/
  (typeName <> "User Story" /\ typeName <> "Bug" /\
   JsString.includes objectPrototypeKeys typeName = true /\
   getColorForType typeName index = Member typeName) \/
  (typeName <> "User Story" /\ typeName <> "Bug" /\
   JsString.includes objectPrototypeKeys typeName = false /\
   exists color,
     autoColors !! (index mod 8)%nat = Some color /\
     getColorForType typeName index = Style color).
Proof.
  unfold getColorForType, predefinedColors.
  destruct (string_dec typeName "User Story") as [->|H1];
    [left; now rewrite lookup_insert_eq|].
  rewrite lookup_insert_ne by congruence.
  destruct (string_dec typeName "Bug") as [->|H2];
    [right; left; now rewrite lookup_insert_eq|].
  rewrite lookup_insert_ne by congruence. rewrite lookup_empty.
  right; right.
  destruct (JsString.includes objectPrototypeKeys typeName);
    [left; auto|right].
  split; [exact H1|]. split; [exact H2|]. split; [reflexivity|].
  change (length autoColors) with 8%nat.
  destruct (lookup_lt_is_Some_2 autoColors (index mod 8)) as [c Hc].
  { change (length autoColors) with 8%nat. apply Nat.mod_upper_bound. lia. }
  exists c. now rewrite Hc.
Qed.

Lemma autoColors_not_reserved (k : nat) (color : string) :
  autoColors !! k = Some color -> color <> "#3b82f6" /\ color <> "#ef4444".
Proof.
  intros H. assert (I : In color autoColors).
  { apply list_elem_of_In. eapply list_elem_of_lookup_2, H. }
  cbn in I. intuition (subst; discriminate).
Qed.

(** X17: a type other than "User Story" and "Bug" never gets their blue
    and red.  The colour of a type repeats with its position every eight
    places, so two types that are not reserved (nor named like a member of
    [Object.prototype]) share a colour when their positions differ by
    eight; a type list of at most eight distinct types gives pairwise
    distinct colours. *)
Theorem X17_colours_by_type_and_position :
  (forall typeName index color,
     getColorForType typeName index = Style color ->
     color = "#3b82f6" \/ color = "#ef4444" ->
     typeName = "User Story" \/ typeName = "Bug") /\
  (forall typeName index,
     getColorForType typeName (index + 8) = getColorForType typeName index) /\
  (forall type1 type2 index,
     predefinedColors !! type1 = None -> predefinedColors !! type2 = None ->
     JsString.includes objectPrototypeKeys type1 = false ->
     JsString.includes objectPrototypeKeys type2 = false ->
     getColorForType type1 index = getColorForType type2 (index + 8)) /\
  (forall types,
     List.NoDup types -> (length types <= 8)%nat ->
     List.NoDup (imap (fun index typeName => getColorForType typeName index)
                   types)).
Proof.
  assert (P : forall typeName index,
             getColorForType typeName (index + 8)
             = getColorForType typeName index).
  { intros t i. unfold getColorForType.
    change (length autoColors) with 8%nat.
    replace ((i + 8) mod 8)%nat with (i mod 8)%nat; [reflexivity|].
    rewrite <- (Nat.Div0.add_mod_idemp_r i 8 8). cbn [Nat.modulo].
    change (8 mod 8)%nat with 0%nat. now rewrite Nat.add_0_r. }
  split; [|split; [exact P|split]].
  - intros t i c H Hc.
    destruct (getColorForType_cases t i)
      as [[-> _]|[[-> _]|[(_ & _ & _ & E)|(_ & _ & _ & c' & Hc' & E)]]];
      auto; rewrite E in H; [discriminate|].
    injection H as ->.
    apply autoColors_not_reserved in Hc'. tauto.
  - intros t1 t2 i N1 N2 P1 P2. rewrite P.
    unfold getColorForType. now rewrite N1, N2, P1, P2.
  - intros ts ND Hlen. apply NoDup_ListNoDup, NoDup_alt.
    intros i j c Hi Hj.
    rewrite list_lookup_imap in Hi, Hj.
    destruct (ts !! i) as [t1|] eqn:T1; [|discriminate].
    destruct (ts !! j) as [t2|] eqn:T2; [|discriminate].
    cbn in Hi, Hj. injection Hi as Hi. injection Hj as Hj.
    assert (Li : (i < 8)%nat) by (apply lookup_lt_Some in T1; lia).
    assert (Lj : (j < 8)%nat) by (apply lookup_lt_Some in T2; lia).
    assert (Same : t1 = t2 -> i = j).
    { intros ->. apply NoDup_ListNoDup in ND.
      exact (NoDup_lookup _ _ _ _ ND T1 T2). }
    destruct (getColorForType_cases t1 i)
      as [[E1 C1]|[[E1 C1]|[(_ & _ & _ & C1)|(_ & _ & _ & c1 & A1 & C1)]]];
    destruct (getColorForType_cases t2 j)
      as [[E2 C2]|[[E2 C2]|[(_ & _ & _ & C2)|(_ & _ & _ & c2 & A2 & C2)]]];
    rewrite C1 in Hi; rewrite C2 in Hj; subst c;
      try discriminate Hj; try (apply Same; congruence).
    + injection Hj as ->. apply autoColors_not_reserved in A2. tauto.
    + injection Hj as ->. apply autoColors_not_reserved in A2. tauto.
    + injection Hj as <-. apply autoColors_not_reserved in A1. tauto.
    + injection Hj as <-. apply autoColors_not_reserved in A1. tauto.
    + injection Hj as ->.
      rewrite Nat.mod_small in A1, A2 by assumption.
      pose proof autoColors_NoDup as N. apply NoDup_ListNoDup in N.
      exact (NoDup_lookup _ _ _ _ N A1 A2).
Qed.

(** ** What an ingestion depends on *)

Lemma mapThrowing_perm {X Y} (f : X -> Outcome Y) (l l' : list X)
    (ys : list Y) :
  Permutation l l' -> mapThrowing f l = Returned ys ->
  exists ys', mapThrowing f l' = Returned ys' /\ Permutation ys ys'.
Proof.
  intros P. revert ys.
  induction P as [|x l l' _ IH|x y l|l l' l'' _ IH1 _ IH2]; intros ys H.
  - exists ys. now split.
  - cbn [mapThrowing] in *.
    destruct (f x) as [b|]; [|discriminate].
    destruct (mapThrowing f l) as [ys0|]; [|discriminate].
    injection H as <-. destruct (IH ys0 eq_refl) as (ys' & -> & P').
    exists (b :: ys'). split; [reflexivity | now constructor].
  - cbn [mapThrowing] in *.
    destruct (f y) as [b|]; [|discriminate].
    destruct (f x) as [a|]; [|discriminate].
    destruct (mapThrowing f l) as [ys0|]; [|discriminate].
    injection H as <-. exists (a :: b :: ys0).
    split; [reflexivity | constructor].
  - destruct (IH1 ys H) as (ys1 & H1 & P1).
    destruct (IH2 ys1 H1) as (ys2 & H2 & P2).
    exists ys2. split; [exact H2 | now transitivity ys1].
Qed.

Lemma key_injective {X} (key : X -> Z) (l : list X) (a b : X) :
  List.NoDup (map key l) -> In a l -> In b l -> key a = key b -> a = b.
Proof.
  induction l as [|x l IH]; cbn [map]; intros N Ha Hb E; [easy|].
  apply List.NoDup_cons_iff in N. destruct N as [Nx N].
  destruct Ha as [<-|Ha], Hb as [<-|Hb]; auto.
  - destruct Nx. rewrite E. now apply in_map.
  - destruct Nx. rewrite <- E. now apply in_map.
Qed.

(** A list sorted on a key that no two elements share is determined by its
    elements. *)
Lemma sorted_perm_eq_keys {X} (key : X -> Z) (l1 l2 : list X) :
  StronglySorted (keyLe key) l1 -> StronglySorted (keyLe key) l2 ->
  Permutation l1 l2 -> List.NoDup (map key l1) -> l1 = l2.
Proof.
  intros S1. revert l2.
  induction S1 as [|x l1 _ IH F1]; intros l2 S2 P N.
  - apply Permutation_nil in P. now subst.
  - destruct S2 as [|y l2 S2 F2];
      [apply Permutation_sym, Permutation_nil in P; discriminate|].
    rewrite List.Forall_forall in F1, F2.
    assert (Hx : In x (y :: l2)) by (apply (Permutation_in _ P); now left).
    assert (Hy : In y (x :: l1))
      by (apply (Permutation_in _ (Permutation_sym P)); now left).
    assert (E : x = y).
    { apply (key_injective key (x :: l1)); [exact N | now left | exact Hy|].
      destruct Hx as [->|Hx]; [reflexivity|].
      destruct Hy as [->|Hy]; [reflexivity|].
      apply F2 in Hx. apply F1 in Hy. unfold keyLe in *. lia. }
    subst y. f_equal. apply IH; [exact S2| |].
    + eapply Permutation_cons_inv, P.
    + cbn [map] in N. now apply List.NoDup_cons_iff in N.
Qed.

Section Inputs.

Context {host : Host}.

Lemma sameCells_complete (row1 row2 : Row) :
  sameCells row1 row2 -> rowComplete row1 = rowComplete row2.
Proof.
  intros H. unfold rowComplete.
  now rewrite !H by (cbn; tauto).
Qed.

Lemma sameCells_processRow (row1 row2 : Row) :
  sameCells row1 row2 -> processRow row1 = processRow row2.
Proof.
  intros H. unfold processRow.
  now rewrite !H by (cbn; tauto).
Qed.

Lemma sameCells_validRows (rows1 rows2 : list Row) :
  Forall2 sameCells rows1 rows2 ->
  Forall2 sameCells (List.filter rowComplete rows1)
    (List.filter rowComplete rows2).
Proof.
  induction 1 as [|r1 r2 l1 l2 H _ IH]; cbn [List.filter]; [constructor|].
  rewrite (sameCells_complete r1 r2 H).
  destruct (rowComplete r2); [now constructor | exact IH].
Qed.

Lemma sameCells_mapped (rows1 rows2 : list Row) :
  Forall2 sameCells rows1 rows2 ->
  mapThrowing processRow rows1 = mapThrowing processRow rows2.
Proof.
  induction 1 as [|r1 r2 l1 l2 H _ IH]; cbn [mapThrowing]; [reflexivity|].
  now rewrite (sameCells_processRow r1 r2 H), IH.
Qed.

(** X18: once the header names the four required columns, an ingestion
    depends on the rows only through their four required cells: other
    columns, the order of the columns and the other names in the header
    change neither the outcome nor the message. *)
Theorem X18_only_the_four_cells_matter (parsed1 parsed2 : Papa.ParseResult) :
  missingColumnsOf (headersOf parsed1) = [] ->
  missingColumnsOf (headersOf parsed2) = [] ->
  Forall2 sameCells (Papa.data parsed1) (Papa.data parsed2) ->
  ingest parsed1 = ingest parsed2 /\
  forall st, processCSV parsed1 st = processCSV parsed2 st.
Proof.
  intros H1 H2 F.
  assert (E : ingest parsed1 = ingest parsed2).
  { unfold ingest. rewrite H1, H2. cbn [length Nat.ltb Nat.leb].
    pose proof (sameCells_validRows _ _ F) as V.
    fold (validRows parsed1) (validRows parsed2) in V.
    rewrite (Forall2_length _ _ _ V).
    now rewrite (sameCells_mapped _ _ V). }
  split; [exact E|]. intros st. now rewrite !processCSV_ingest, E.
Qed.

(** X19: when an ingestion returns and no two of its records close at
    the same time, the order of the rows in the file is immaterial: the
    same rows in any other order give the same dataset. *)
Theorem X19_row_order_is_immaterial_without_ties
    (parsed1 parsed2 : Papa.ParseResult) (d : list WorkItem) :
  Papa.fields parsed1 = Papa.fields parsed2 ->
  Permutation (Papa.data parsed1) (Papa.data parsed2) ->
  ingest parsed1 = Returned d ->
  List.NoDup (map closedDate d) ->
  ingest parsed2 = Returned d.
Proof.
  intros Hf P H N.
  destruct (ingest_ok parsed1 d H) as (_ & _ & T).
  assert (N' : List.NoDup (map timestamp d)).
  { erewrite map_ext_in; [exact N|].
    rewrite List.Forall_forall in T. intros r Hr. now apply T. }
  clear N T. revert H. unfold ingest, headersOf. rewrite <- Hf.
  fold (headersOf parsed1).
  destruct (0 <? length (missingColumnsOf (headersOf parsed1)))%nat;
    [discriminate|].
  assert (V : Permutation (validRows parsed1) (validRows parsed2))
    by now apply perm_filter.
  rewrite <- (Permutation_length V).
  destruct (length (validRows parsed1) =? 0)%nat; [discriminate|].
  destruct (mapThrowing processRow (validRows parsed1)) as [mapped1|] eqn:M;
    [|discriminate].
  intros [= <-].
  destruct (mapThrowing_perm _ _ _ _ V M) as (mapped2 & -> & Pm).
  f_equal. symmetry.
  apply (sorted_perm_eq_keys timestamp);
    [apply (sortBy_sorted timestamp) | apply (sortBy_sorted timestamp)
    | | exact N'].
  change byTimestamp with (fun a b : WorkItem => timestamp a - timestamp b).
  now rewrite !(sortBy_perm timestamp).
Qed.

End Inputs.

(** ** Trimmed texts and file names *)

Section Strip.

Context (two : ascii -> ascii -> bool)
  (three : ascii -> ascii -> ascii -> bool).

Lemma strip_fixed (s : string) :
  startsBlank two three s = false -> JsString.strip two three s = s.
Proof.
  destruct s as [|c1 s1]; [reflexivity|].
  cbn [startsBlank JsString.strip].
  destruct (JsString.ws1 c1); cbn [orb]; [discriminate|].
  destruct s1 as [|c2 s2]; [reflexivity|].
  destruct (two c1 c2); cbn [orb]; [discriminate|].
  destruct s2 as [|c3 s3]; [reflexivity|].
  destruct (three c1 c2 c3); [discriminate | reflexivity].
Qed.

Lemma strip_result (s : string) :
  exists w,
    s = w +:+ JsString.strip two three s /\
    startsBlank two three (JsString.strip two three s) = false.
Proof.
  assert (G : forall n s, (String.length s <= n)%nat ->
              exists w,
                s = w +:+ JsString.strip two three s /\
                startsBlank two three (JsString.strip two three s) = false).
  { clear s. induction n as [|n IH]; intros s Hs.
    - destruct s; [|cbn in Hs; lia]. now exists "".
    - destruct s as [|c1 s1]; [now exists ""|].
      cbn [String.length] in Hs. cbn [JsString.strip].
      destruct (JsString.ws1 c1) eqn:W1.
      { destruct (IH s1) as (w & E & B); [lia|].
        exists (String c1 w). split; [rewrite E at 1; reflexivity | exact B]. }
      destruct s1 as [|c2 s2].
      { exists "". split; [reflexivity|]. cbn. now rewrite W1. }
      cbn [String.length] in Hs.
      destruct (two c1 c2) eqn:W2.
      { destruct (IH s2) as (w & E & B); [lia|].
        exists (String c1 (String c2 w)).
        split; [rewrite E at 1; reflexivity | exact B]. }
      destruct s2 as [|c3 s3].
      { exists "". split; [reflexivity|]. cbn. now rewrite W1, W2. }
      cbn [String.length] in Hs.
      destruct (three c1 c2 c3) eqn:W3.
      { destruct (IH s3) as (w & E & B); [lia|].
        exists (String c1 (String c2 (String c3 w))).
        split; [rewrite E at 1; reflexivity | exact B]. }
      exists "". split; [reflexivity|]. cbn. now rewrite W1, W2, W3. }
  apply (G (String.length s)). lia.
Qed.

Lemma startsBlank_prefix (t w : string) :
  startsBlank two three (t +:+ w) = false -> startsBlank two three t = false.
Proof.
  destruct t as [|c1 [|c2 [|c3 t]]]; simpl; auto.
  - destruct (JsString.ws1 c1); simpl; auto.
  - destruct (JsString.ws1 c1); simpl; auto.
    destruct (two c1 c2); simpl; auto.
Qed.

End Strip.

Lemma trimEnd_fixed (a : string) :
  exists w,
    a = JsString.trimEnd a +:+ w /\
    JsString.trimEnd (JsString.trimEnd a) = JsString.trimEnd a.
Proof.
  unfold JsString.trimEnd.
  set (two := fun c2 c1 => JsString.ws2 c1 c2).
  set (three := fun c3 c2 c1 => JsString.ws3 c1 c2 c3).
  destruct (strip_result two three (String.rev a)) as (w & E & B).
  exists (String.rev w). split.
  - rewrite <- rev_append, <- E. symmetry. apply rev_involutive.
  - rewrite rev_involutive. now rewrite (strip_fixed two three _ B).
Qed.

Lemma trim_trim (s : string) :
  JsString.trim (JsString.trim s) = JsString.trim s.
Proof.
  unfold JsString.trim.
  destruct (strip_result JsString.ws2 JsString.ws3 s) as (_ & _ & B).
  fold (JsString.trimStart s) in B.
  destruct (trimEnd_fixed (JsString.trimStart s)) as (w & E & F).
  rewrite E in B. apply startsBlank_prefix in B.
  unfold JsString.trimStart at 1.
  rewrite (strip_fixed _ _ _ B). exact F.
Qed.

Section Trimmed.

Context {host : Host}.

(** X20: the identifiers and types of a loaded dataset carry no white
    space at either end: trimming them again changes nothing (so trimming
    is idempotent), and neither starts with a white-space code point.  The
    same holds of every entry of the type list. *)
Theorem X20_ids_and_types_are_trimmed
    (parsed : Papa.ParseResult) (st st' : State) :
  processCSV parsed st = (Returned tt, st') ->
  (forall s, JsString.trim (JsString.trim s) = JsString.trim s) /\
  (forall r, In r (data st') ->
     JsString.trim (id r) = id r /\ JsString.trim (type r) = type r /\
     startsBlank JsString.ws2 JsString.ws3 (id r) = false /\
     startsBlank JsString.ws2 JsString.ws3 (type r) = false) /\
  (forall t, In t (itemTypes st') -> JsString.trim t = t).
Proof.
  intros H.
  assert (B : forall s,
             startsBlank JsString.ws2 JsString.ws3 (JsString.trim s) = false).
  { intros s. unfold JsString.trim.
    destruct (strip_result JsString.ws2 JsString.ws3 s) as (_ & _ & B).
    fold (JsString.trimStart s) in B.
    destruct (trimEnd_fixed (JsString.trimStart s)) as (w & E & _).
    rewrite E in B. now apply startsBlank_prefix in B. }
  assert (R : forall r, In r (data st') ->
            exists a b, id r = JsString.trim a /\ type r = JsString.trim b).
  { intros r Hr.
    destruct (loaded_record_origin parsed st st' r H Hr) as (row & _ & Hp).
    apply processRow_returned in Hp.
    destruct Hp as (_ & _ & _ & Hi & Ht & _). eauto. }
  split; [exact trim_trim|]. split.
  - intros r Hr. destruct (R r Hr) as (a & b & -> & ->).
    rewrite !trim_trim. auto.
  - intros t Ht. apply processCSV_returned in H.
    destruct H as (mapped & _ & _ & _ & E).
    assert (Et : itemTypes st' = distinct (map type (data st')))
      by now rewrite E.
    rewrite Et, in_distinct, in_map_iff in Ht.
    destruct Ht as (r & <- & Hr).
    destruct (R r Hr) as (_ & b & _ & ->). apply trim_trim.
Qed.

End Trimmed.

Lemma prefix_append (p s : string) :
  String.prefix p s = true <-> exists t, s = p +:+ t.
Proof.
  revert s. induction p as [|c p IH]; intros s.
  - split; [intros _; now exists s|]. now destruct s.
  - destruct s as [|c' s]; cbn [String.prefix].
    + split; [discriminate | intros (t & E); discriminate].
    + destruct (ascii_dec c c') as [<-|N].
      * rewrite IH. split; intros (t & E); exists t.
        -- change (String c p +:+ t) with (String c (p +:+ t)).
           now rewrite E.
        -- change (String c p +:+ t) with (String c (p +:+ t)) in E.
           now injection E.
      * split; [discriminate|]. intros (t & E).
        change (String c p +:+ t) with (String c (p +:+ t)) in E.
        congruence.
Qed.

Lemma endsWith_append (s suffix : string) :
  JsString.endsWith s suffix = true <-> exists stem, s = stem +:+ suffix.
Proof.
  unfold JsString.endsWith. rewrite prefix_append. split.
  - intros (t & E). exists (String.rev t).
    rewrite <- (rev_involutive s), E, rev_append.
    now rewrite rev_involutive.
  - intros (stem & ->). exists (String.rev stem). apply rev_append.
Qed.

Lemma toLowerCase_append (a b : string) :
  JsString.toLowerCase (a +:+ b)
  = JsString.toLowerCase a +:+ JsString.toLowerCase b.
Proof.
  induction a as [|c a IH]; [reflexivity|].
  change (String c a +:+ b) with (String c (a +:+ b)).
  cbn [JsString.toLowerCase]. now rewrite IH.
Qed.

Lemma toLowerCase_split (s x y : string) :
  JsString.toLowerCase s = x +:+ y ->
  exists a b,
    s = a +:+ b /\ JsString.toLowerCase a = x /\ JsString.toLowerCase b = y.
Proof.
  revert s. induction x as [|c x IH]; intros s H.
  - now exists "", s.
  - destruct s as [|c' s]; [discriminate|].
    change (String c x +:+ y) with (String c (x +:+ y)) in H.
    cbn [JsString.toLowerCase] in H. injection H as Hc H.
    destruct (IH s H) as (a & b & -> & Ha & Hb).
    exists (String c' a), b. cbn [JsString.toLowerCase].
    now rewrite Hc, Ha.
Qed.

(** X21: the file input accepts exactly the names that end in [.csv]
    written in any mix of upper and lower case: nothing need precede the
    extension, and nothing may follow it. *)
Theorem X21_accepted_file_names (file : File) :
  hasCsvName file = true <->
  exists stem c s v,
    name file
    = stem +:+ String "." (String c (String s (String v ""))) /\
    (c = "c" \/ c = "C")%char /\ (s = "s" \/ s = "S")%char /\
    (v = "v" \/ v = "V")%char.
Proof.
  unfold hasCsvName. rewrite endsWith_append. split.
  - intros (stem & E). apply toLowerCase_split in E.
    destruct E as (a & b & E & _ & Hb). exists a.
    destruct b as [|d [|c [|s' [|v [|? ?]]]]]; try discriminate.
    cbn in Hb. injection Hb as Hd Hc Hs Hv.
    exists c, s', v. split; [|split; [|split]].
    + rewrite E. f_equal. f_equal.
      revert Hd. clear. destruct d as [[] [] [] [] [] [] [] []];
        cbv; try discriminate; reflexivity.
    + revert Hc. clear. destruct c as [[] [] [] [] [] [] [] []];
        cbv; intros H; try discriminate; auto.
    + revert Hs. clear. destruct s' as [[] [] [] [] [] [] [] []];
        cbv; intros H; try discriminate; auto.
    + revert Hv. clear. destruct v as [[] [] [] [] [] [] [] []];
        cbv; intros H; try discriminate; auto.
  - intros (stem & c & s' & v & E & Hc & Hs & Hv).
    exists (JsString.toLowerCase stem). rewrite E, toLowerCase_append.
    f_equal. destruct Hc as [->| ->], Hs as [->| ->], Hv as [->| ->];
      reflexivity.
Qed.

(** * The pipeline on the concrete inputs *)

(** ** C1: an item committed late on one day and closed early on the next *)

(** The dates fall on consecutive calendar days (day numbers 20089 and
    20090), so the difference of the truncated dates plus 1 is 2; the
    record's lead time is 1. *)
Lemma C1_counterexample_time_of_day_is_not_truncated :
  run lateCommit initialState
  = (Returned tt, loaded initialState [lateCommitRecord]) /\
  dayNumber (commitedDate lateCommitRecord) = 20089 /\
  dayNumber (closedDate lateCommitRecord) = 20090 /\
  leadTime lateCommitRecord = 1 /\
  leadTime lateCommitRecord
  <> dayNumber (closedDate lateCommitRecord)
     - dayNumber (commitedDate lateCommitRecord) + 1.
Proof.
  split; [vm_compute; reflexivity|].
  repeat split; vm_compute; congruence.
Qed.

Lemma C1_witness :
  run lateCommit initialState
  = (Returned tt, loaded initialState [lateCommitRecord]) /\
  In lateCommitRecord (data (loaded initialState [lateCommitRecord])) /\
  closedDate lateCommitRecord - commitedDate lateCommitRecord < 2 ^ 53 /\
  leadTime lateCommitRecord
  = (closedDate lateCommitRecord - commitedDate lateCommitRecord)
    / msPerDay + 1 /\
  leadTime lateCommitRecord
  = dayNumber (closedDate lateCommitRecord)
    - dayNumber (commitedDate lateCommitRecord).
Proof.
  assert (H1 : run lateCommit initialState
               = (Returned tt, loaded initialState [lateCommitRecord]))
    by (vm_compute; reflexivity).
  assert (H2 : In lateCommitRecord
                 (data (loaded initialState [lateCommitRecord])))
    by (left; reflexivity).
  assert (H3 : closedDate lateCommitRecord - commitedDate lateCommitRecord
               < 2 ^ 53) by (vm_compute; reflexivity).
  destruct (C1_lead_time_from_raw_time_values (host := RefHost.host)
              lateCommit initialState _ lateCommitRecord H1 H2)
    as (_ & _ & B & _).
  destruct (B H3) as (L & _ & D).
  split; [exact H1|]. split; [exact H2|]. split; [exact H3|].
  split; [exact L|].
  apply D. vm_compute. reflexivity.
Defined.

(** ** C4: a header without the type and commitment columns *)

Lemma C4_witness :
  (exists col,
      In col requiredColumns /\ ~ In col (headersOf shortHeader)) /\
  run shortHeader initialState
  = (Thrown (schemaErrorMessage ["Tipo de Item"; "Commited Date"]
               ["ID"; "Closed Date"]), initialState) /\
  mentions (schemaErrorMessage ["Tipo de Item"; "Commited Date"]
              ["ID"; "Closed Date"]) "Tipo de Item, Commited Date" /\
  mentions (schemaErrorMessage ["Tipo de Item"; "Commited Date"]
              ["ID"; "Closed Date"])
    "ID, Tipo de Item, Commited Date, Closed Date" /\
  mentions (schemaErrorMessage ["Tipo de Item"; "Commited Date"]
              ["ID"; "Closed Date"]) "ID, Closed Date".
Proof.
  assert (H : exists col,
             In col requiredColumns /\ ~ In col (headersOf shortHeader)).
  { exists "Tipo de Item". split; [right; left; reflexivity|].
    cbn. intros [E|[E|[]]]; discriminate. }
  destruct (C4_schema_error_names_missing_columns (host := RefHost.host)
              shortHeader initialState H) as (R & _ & _ & M1 & M2 & M3).
  split; [exact H|]. split; [exact R|].
  split; [exact M1|]. split; [exact M2 | exact M3].
Defined.

(** ** C9: a full header, and rows that all lack a required cell *)

Lemma C9_witness :
  (forall col, In col requiredColumns -> In col (headersOf onlyIncomplete))
  /\ validRows onlyIncomplete = [] /\
  run onlyIncomplete initialState = (Thrown noValidDataMessage, initialState).
Proof.
  assert (H1 : forall col,
             In col requiredColumns -> In col (headersOf onlyIncomplete))
    by (intros col H; exact H).
  assert (H2 : validRows onlyIncomplete = []) by reflexivity.
  split; [exact H1|]. split; [exact H2|].
  exact (proj1 (C9_no_valid_data_is_not_a_schema_error
                  (host := RefHost.host) onlyIncomplete initialState H1 H2)).
Defined.

(** ** C10 and C5: cells coerced to 0 or false, and a blank identifier *)

Lemma C10_witness :
  toStr (host := RefHost.host) (prop zeroId "ID") = "0" /\
  ~ In zeroId (validRows coercedCells) /\
  toStr (host := RefHost.host) (prop falseId "ID") = "false" /\
  ~ In falseId (validRows coercedCells) /\
  JsString.trim "   " = "" /\
  In blankId (validRows coercedCells).
Proof.
  destruct (C10_survival_follows_truthiness (host := RefHost.host)
              coercedCells) as (_ & D & _ & W).
  split; [reflexivity|].
  split; [apply (D zeroId "ID"); [left; reflexivity | left; reflexivity]|].
  split; [reflexivity|].
  split; [apply (D falseId "ID"); [left; reflexivity | right; reflexivity]|].
  split; [reflexivity|].
  apply (W blankId "   ").
  - right; right; left; reflexivity.
  - reflexivity.
  - discriminate.
  - reflexivity.
  - reflexivity.
  - reflexivity.
  - reflexivity.
Defined.

(** The row whose identifier is three spaces passes the filter, is the only
    row to do so, and yields a record with an empty [id]. *)
Lemma C5_counterexample_blank_id_is_kept :
  JsString.trim (toStr (host := RefHost.host) (prop blankId "ID")) = "" /\
  validRows coercedCells = [blankId] /\
  run coercedCells initialState
  = (Returned tt, loaded initialState [blankIdRecord]) /\
  id blankIdRecord = "".
Proof.
  split; [reflexivity|]. split; [reflexivity|].
  split; [vm_compute; reflexivity | reflexivity].
Qed.

Lemma C5_witness :
  run coercedCells initialState
  = (Returned tt, loaded initialState [blankIdRecord]) /\
  run coercedCells initialState
  = run {| Papa.data := [blankId]; Papa.fields := fullHeader |}
      initialState /\
  length (data (loaded initialState [blankIdRecord]))
  = length (validRows coercedCells) /\
  exists row,
    In row (validRows coercedCells) /\
    id blankIdRecord
    = JsString.trim (toStr (host := RefHost.host) (prop row "ID")) /\
    truthy (prop row "ID") = true /\
    Blank (toStr (host := RefHost.host) (prop row "ID")) /\
    ~ Blank (toStr (host := RefHost.host) (prop row "Tipo de Item")).
Proof.
  assert (H1 : run coercedCells initialState
               = (Returned tt, loaded initialState [blankIdRecord]))
    by (vm_compute; reflexivity).
  destruct (C5_complete_rows_are_the_truthy_rows (host := RefHost.host)
              coercedCells initialState) as (_ & F & _ & K).
  destruct (K _ blankIdRecord H1) as (L & O).
  destruct (O (or_introl eq_refl))
    as (row & Hin & Hid & _ & T & _ & _ & _ & Bi & Bt).
  split; [exact H1|]. split; [exact F|]. split; [exact L|].
  exists row. split; [exact Hin|]. split; [exact Hid|]. split; [exact T|].
  split; [apply Bi; reflexivity|].
  intros B. apply Bt in B. discriminate B.
Defined.

(** ** C6: which date failed is not in the message *)

(** In [closedFails] the commitment date is valid and the closed date is
    not; in [commitedFails] it is the other way round; the two runs throw
    the same message. *)
Lemma C6_counterexample_message_does_not_tell_the_field :
  commitedTime (host := RefHost.host) closedFails = Some 1735689600000 /\
  closedTime (host := RefHost.host) closedFails = None /\
  commitedTime (host := RefHost.host) commitedFails = None /\
  closedTime (host := RefHost.host) commitedFails = Some 1735862400000 /\
  run closedFailsInput initialState
  = (Thrown
       (invalidDateMessage "A" "2025-01-01"
          ("2025-01-02" +:+ nl +:+ "Closed Date: 2025-01-03")),
     initialState) /\
  run commitedFailsInput initialState = run closedFailsInput initialState.
Proof.
  repeat (split; [vm_compute; reflexivity|]).
  vm_compute; reflexivity.
Qed.

Lemma C6_witness :
  headerComplete slashDateInput /\
  validRows slashDateInput
  = [textRow "A" "Bug" "2025-01-01" "2025-01-03"] ++ slashDate :: [] /\
  closedTime (host := RefHost.host) slashDate = None /\
  run slashDateInput initialState
  = (Thrown (invalidDateMessage "B-7" "2025-01-10" "15/01/2025"),
     initialState) /\
  mentions (invalidDateMessage "B-7" "2025-01-10" "15/01/2025") "B-7" /\
  mentions (invalidDateMessage "B-7" "2025-01-10" "15/01/2025")
    "YYYY-MM-DD".
Proof.
  assert (H0 : headerComplete slashDateInput) by (intros col H; exact H).
  assert (H1 : validRows slashDateInput
               = [textRow "A" "Bug" "2025-01-01" "2025-01-03"]
                 ++ slashDate :: []) by reflexivity.
  assert (H2 : List.Forall (returns (processRow (host := RefHost.host)))
                 [textRow "A" "Bug" "2025-01-01" "2025-01-03"]).
  { constructor; [|constructor]. eexists. vm_compute. reflexivity. }
  assert (H3 : closedTime (host := RefHost.host) slashDate = None)
    by (vm_compute; reflexivity).
  destruct (proj2 (C6_invalid_date_message_echoes_both_cells
                     (host := RefHost.host) slashDateInput initialState H0)
              _ _ _ H1 H2 (or_intror H3)) as (R & M1 & _ & _ & M4).
  split; [exact H0|]. split; [exact H1|]. split; [exact H3|].
  split; [exact R|]. split; [exact M1 | exact M4].
Defined.

(** ** C3: a bad file after a good one *)


(** ** C7: ties on the closing date *)

Lemma C7_witness :
  run tiesInput goodState = (Returned tt, tiesState) /\
  map id (data tiesState) = ["E"; "B"; "D"; "A"; "C"] /\
  StronglySorted (fun a b => closedDate a <= closedDate b) (data tiesState) /\
  run tiesInput tiesState = (Returned tt, tiesState) /\
  exists st2',
    run tiesInput initialState = (Returned tt, st2') /\
    data st2' = data tiesState.
Proof.
  assert (H : run tiesInput goodState = (Returned tt, tiesState))
    by (vm_compute; reflexivity).
  destruct (C7_dataset_sorted_stable_deterministic (host := RefHost.host)
              tiesInput goodState tiesState H) as (S & _ & D & I).
  split; [exact H|]. split; [vm_compute; reflexivity|].
  split; [exact S|]. split; [exact I | exact (D initialState)].
Defined.

(** ** C8: an upload, then a click on a type *)

Lemma C8_witness :
  Reachable (host := RefHost.host) sampleDecoder bugsOff /\
  map id (data uploaded) = ["B"; "A"] /\
  map leadTime (data uploaded) = [1; 3] /\
  data bugsOff = data uploaded /\
  List.Forall recordOk (data bugsOff).
Proof.
  assert (R : Reachable (host := RefHost.host) sampleDecoder bugsOff)
    by (do 2 apply reachable_handle; apply reachable_initial).
  split; [exact R|].
  split; [vm_compute; reflexivity|]. split; [vm_compute; reflexivity|].
  split; [reflexivity|].
  exact (proj2 (proj2 (C8_records_stay_valid (host := RefHost.host)
                         sampleDecoder)) bugsOff R).
Defined.

(** ** C2: ten filtered records with lead times 1 to 10 *)

Lemma C2_witness :
  map leadTime (data tenState) = [3; 1; 2; 10; 9; 46; 8; 7; 4; 5; 6] /\
  map leadTime (filteredData tenState) = [3; 1; 2; 10; 9; 8; 7; 4; 5; 6] /\
  filteredLeadTimes tenState = [1; 2; 3; 4; 5; 6; 7; 8; 9; 10] /\
  p85Index tenState = Some 8 /\ p85Value tenState = Some 9 /\
  p95Index tenState = Some 9 /\ p95Value tenState = Some 10 /\
  p85Value initialState = Some 0 /\ p95Value initialState = Some 0.
Proof.
  assert (H : filteredLeadTimes tenState = [1; 2; 3; 4; 5; 6; 7; 8; 9; 10])
    by (vm_compute; reflexivity).
  destruct (C2_percentiles_by_rank_index tenState)
    as (_ & _ & _ & _ & _ & _ & T).
  destruct (T H) as (I85 & V85 & I95 & V95).
  destruct (C2_percentiles_by_rank_index initialState)
    as (_ & _ & _ & Z85 & Z95 & _).
  split; [vm_compute; reflexivity|]. split; [vm_compute; reflexivity|].
  split; [exact H|].
  split; [exact I85|]. split; [exact V85|].
  split; [exact I95|]. split; [exact V95|].
  split; [exact Z85 | exact Z95].
Defined.

(** ** X1: the types of the five records with ties *)

Lemma X1_witness :
  run tiesInput goodState = (Returned tt, tiesState) /\
  map type (data tiesState) = ["Task"; "Bug"; "Bug"; "Bug"; "Task"] /\
  itemTypes tiesState = ["Task"; "Bug"] /\
  List.NoDup (itemTypes tiesState).
Proof.
  assert (H : run tiesInput goodState = (Returned tt, tiesState))
    by (vm_compute; reflexivity).
  split; [exact H|]. split; [vm_compute; reflexivity|].
  split; [vm_compute; reflexivity|].
  exact (proj1 (X1_type_list_in_first_seen_order (host := RefHost.host)
                  tiesInput goodState tiesState H)).
Defined.

(** ** X2: the filters after the sample is loaded *)

Lemma X2_witness :
  run goodInput initialState = (Returned tt, goodState) /\
  filteredData goodState = data goodState.
Proof.
  assert (H : run goodInput initialState = (Returned tt, goodState))
    by (vm_compute; reflexivity).
  split; [exact H|].
  exact (proj1 (proj2 (X2_all_filters_on_after_load (host := RefHost.host)
                         goodInput initialState goodState H))).
Defined.

(** ** X5: a text file *)

Lemma X5_witness :
  hasCsvName notesFile = false /\
  handleFileUpload (host := RefHost.host) sampleDecoder (Some notesFile)
    initialState
  = (Returned tt, afterRejectedName initialState).
Proof.
  assert (H : hasCsvName notesFile = false) by reflexivity.
  split; [exact H|].
  exact (proj1 (X5_upload_rejects_other_file_names (host := RefHost.host)
                  sampleDecoder notesFile initialState H)).
Defined.

(** ** X6: an empty file chosen while the sample is shown *)

Lemma X6_witness :
  hasCsvName emptyFile = true /\
  ingest (host := RefHost.host) (sampleDecoder (text emptyFile))
  = Thrown (schemaErrorMessage requiredColumns []) /\
  handleFileUpload (host := RefHost.host) sampleDecoder (Some emptyFile)
    uploaded
  = (Returned tt,
     afterFailedUpload uploaded emptyFile
       (schemaErrorMessage requiredColumns [])).
Proof.
  assert (N : hasCsvName emptyFile = true) by reflexivity.
  assert (H : ingest (host := RefHost.host) (sampleDecoder (text emptyFile))
              = Thrown (schemaErrorMessage requiredColumns []))
    by reflexivity.
  split; [exact N|]. split; [exact H|].
  exact (X6_failed_upload_keeps_the_dataset (host := RefHost.host)
           sampleDecoder emptyFile uploaded _ N H).
Defined.

(** ** X7: the sample file *)

Lemma X7_witness :
  hasCsvName sampleFile = true /\
  ingest (host := RefHost.host) (sampleDecoder (text sampleFile))
  = Returned [storyRecord; bugRecord] /\
  handleFileUpload (host := RefHost.host) sampleDecoder (Some sampleFile)
    initialState
  = (Returned tt, afterUpload initialState sampleFile [storyRecord; bugRecord]).
Proof.
  assert (N : hasCsvName sampleFile = true) by reflexivity.
  assert (H : ingest (host := RefHost.host) (sampleDecoder (text sampleFile))
              = Returned [storyRecord; bugRecord])
    by (vm_compute; reflexivity).
  split; [exact N|]. split; [exact H|].
  exact (X7_successful_upload_installs_the_file (host := RefHost.host)
           sampleDecoder sampleFile initialState _ N H).
Defined.

(** ** X9 to X13: the sample with the bugs switched off, and a reset while
    it is read *)


Lemma X10_witness :
  Reachable (host := RefHost.host) sampleDecoder bugsOff /\
  map Series.type (dataByType bugsOff) = itemTypes bugsOff /\
  itemTypes bugsOff = ["User Story"; "Bug"] /\
  map Series.type (drawnSeries bugsOff) = ["User Story"] /\
  Permutation (concat (map Series.data (drawnSeries bugsOff)))
    (filteredData bugsOff).
Proof.
  assert (R : Reachable (host := RefHost.host) sampleDecoder bugsOff)
    by (do 2 apply reachable_handle; apply reachable_initial).
  destruct (X10_drawn_series_partition_the_filtered_records
              (host := RefHost.host) sampleDecoder bugsOff R) as (T & _ & P).
  split; [exact R|]. split; [exact T|]. split; [reflexivity|].
  split; [vm_compute; reflexivity | exact P].
Defined.

Lemma X11_witness :
  Reachable (host := RefHost.host) sampleDecoder bugsOff /\
  map typeCount (typeBadges bugsOff) = [1; 1]%nat /\
  list_sum (map typeCount (typeBadges bugsOff)) = length (data bugsOff).
Proof.
  assert (R : Reachable (host := RefHost.host) sampleDecoder bugsOff)
    by (do 2 apply reachable_handle; apply reachable_initial).
  split; [exact R|]. split; [vm_compute; reflexivity|].
  exact (proj1 (proj2 (X11_type_buttons_count_every_record
                         (host := RefHost.host) sampleDecoder bugsOff R))).
Defined.



(** ** X14: the range of the sample *)

Lemma X14_witness :
  Reachable (host := RefHost.host) sampleDecoder uploaded /\
  filteredData uploaded = [storyRecord; bugRecord] /\
  minDate uploaded = Some 1735689600000 /\
  maxDate uploaded = Some 1735862400000.
Proof.
  assert (R : Reachable (host := RefHost.host) sampleDecoder uploaded)
    by (apply reachable_handle; apply reachable_initial).
  assert (E : filteredData uploaded = [storyRecord; bugRecord])
    by (vm_compute; reflexivity).
  destruct (X14_chart_range_is_first_to_last (host := RefHost.host)
              sampleDecoder uploaded storyRecord [bugRecord] R E)
    as (_ & Lo & Hi & _).
  split; [exact R|]. split; [exact E|]. split; [exact Lo | exact Hi].
Defined.

(** ** X15 and X16: the ten filtered records *)

Lemma X15_witness :
  (0 < length (filteredData tenState) <= 4096)%nat /\
  exists v85 v95,
    p85Value tenState = Some v85 /\ p95Value tenState = Some v95 /\
    v85 <= v95.
Proof.
  assert (H : (0 < length (filteredData tenState) <= 4096)%nat)
    by (vm_compute; lia).
  split; [exact H|].
  destruct (X15_percentiles_are_order_statistics (host := RefHost.host)
              sampleDecoder tenState H)
    as (v85 & v95 & A & B & _ & _ & C & _).
  exists v85, v95. split; [exact A|]. split; [exact B | exact C].
Defined.

Lemma X16_witness :
  Permutation (data tenState) (data tenReversed) /\
  map leadTime (data tenReversed) = [6; 5; 4; 7; 8; 46; 9; 10; 2; 1; 3] /\
  p85Value tenState = p85Value tenReversed /\
  p95Value tenState = p95Value tenReversed.
Proof.
  assert (P : Permutation (data tenState) (data tenReversed))
    by apply Permutation_rev.
  split; [exact P|]. split; [vm_compute; reflexivity|].
  exact (proj2 (X16_percentiles_ignore_record_order tenState tenReversed
                  P eq_refl)).
Defined.

(** ** X18: the sample with a fifth column *)

Lemma X18_witness :
  Forall2 sameCells (Papa.data goodInput) (Papa.data widerInput) /\
  ingest (host := RefHost.host) goodInput
  = ingest (host := RefHost.host) widerInput.
Proof.
  assert (F : Forall2 sameCells (Papa.data goodInput) (Papa.data widerInput)).
  { repeat constructor;
      intros col [<-|[<-|[<-|[<-|[]]]]]; reflexivity. }
  split; [exact F|].
  exact (proj1 (X18_only_the_four_cells_matter (host := RefHost.host)
                  goodInput widerInput eq_refl eq_refl F)).
Defined.

(** ** X19: the sample with its rows exchanged *)

Lemma X19_witness :
  Permutation (Papa.data goodInput) (Papa.data exchangedInput) /\
  ingest (host := RefHost.host) goodInput
  = Returned [storyRecord; bugRecord] /\
  ingest (host := RefHost.host) exchangedInput
  = Returned [storyRecord; bugRecord].
Proof.
  assert (P : Permutation (Papa.data goodInput) (Papa.data exchangedInput))
    by apply perm_swap.
  assert (H : ingest (host := RefHost.host) goodInput
              = Returned [storyRecord; bugRecord])
    by (vm_compute; reflexivity).
  assert (N : List.NoDup (map closedDate [storyRecord; bugRecord])).
  { repeat constructor; cbn; intuition discriminate. }
  split; [exact P|]. split; [exact H|].
  exact (X19_row_order_is_immaterial_without_ties (host := RefHost.host)
           goodInput exchangedInput _ eq_refl P H N).
Defined.

(** ** X20: cells with white space around the texts *)

Lemma X20_witness :
  run paddedInput initialState = (Returned tt, paddedState) /\
  map id (data paddedState) = ["A"] /\
  itemTypes paddedState = ["Bug"] /\
  forall t, In t (itemTypes paddedState) -> JsString.trim t = t.
Proof.
  assert (H : run paddedInput initialState = (Returned tt, paddedState))
    by (vm_compute; reflexivity).
  split; [exact H|]. split; [vm_compute; reflexivity|].
  split; [vm_compute; reflexivity|].
  exact (proj2 (proj2 (X20_ids_and_types_are_trimmed (host := RefHost.host)
                         paddedInput initialState paddedState H))).
Defined.
